(** * zone.js core: a shallow embedding of [lib/zone.ts]

    The zone tree, the delegate chain, the task state machine and the
    microtask queue of [lib/zone.ts], written as Rocq functions over an
    explicit process-wide state ([World]) in a state-and-exception monad.

    User-supplied JavaScript (callbacks, [scheduleFn]/[cancelFn], the
    [ZoneSpec] hooks) is represented by a small command language [Code]
    whose commands are the calls user code makes into the zone API and
    into the delegates handed to its hooks; [exec] interprets it.  Objects
    with identity (zones, delegates, tasks, the [_zoneDelegates] arrays)
    are referred to by number.  [wrap], [intercept] and the patch registry
    are not part of the model; zone trees are built with the constructors,
    and [fork] is followed up to the call of an [onFork] hook. *)

From Stdlib Require Import ZArith String List Bool Lia.
From stdpp Require Import base option list gmap strings.

Set Warnings "-register-all".

Open Scope string_scope.
Open Scope list_scope.
Open Scope Z_scope.

(** ** Values and errors *)

Inductive TaskType := microTask | macroTask | eventTask.
Inductive TaskState :=
  notScheduled | scheduling | scheduled | running | canceling | unknown.

Definition TaskType_eqb (a b : TaskType) : bool :=
  match a, b with
  | microTask, microTask | macroTask, macroTask | eventTask, eventTask => true
  | _, _ => false
  end.

Definition TaskState_eqb (a b : TaskState) : bool :=
  match a, b with
  | notScheduled, notScheduled | scheduling, scheduling
  | scheduled, scheduled | running, running
  | canceling, canceling | unknown, unknown => true
  | _, _ => false
  end.

Definition TaskType_str (t : TaskType) : string :=
  match t with
  | microTask => "microTask" | macroTask => "macroTask"
  | eventTask => "eventTask"
  end.

Definition TaskState_str (s : TaskState) : string :=
  match s with
  | notScheduled => "notScheduled" | scheduling => "scheduling"
  | scheduled => "scheduled" | running => "running"
  | canceling => "canceling" | unknown => "unknown"
  end.

(** [HasTaskState]: the snapshot handed to [onHasTask]. *)
Record HasTaskState := {
  hts_microTask : bool;
  hts_macroTask : bool;
  hts_eventTask : bool;
  hts_change : TaskType
}.

(** JavaScript values that cross the zone API in this model. *)
Inductive Val :=
| VUndefined
| VNull
| VBool (b : bool)
| VNum (n : Z)
| VStr (s : string)
| VTask (t : nat).

(** Thrown values: [new Error(msg)], the engine's [TypeError], or any
    value thrown by user code. *)
Inductive Err :=
| EError (msg : string)
| ETypeError (msg : string)
| EVal (v : Val).

(** JavaScript truthiness, as used by [if (handleError(...))]. *)
Definition truthy (v : Val) : bool :=
  match v with
  | VUndefined | VNull => false
  | VBool b => b
  | VNum n => negb (Z.eqb n 0)
  | VStr s => negb (String.eqb s "")
  | VTask _ => true
  end.

(** [TaskData]: the optional bag carried by a task. *)
Record TaskData := {
  isPeriodic : option bool;
  delay : option Z;
  handleId : option Z;
  useG : bool
}.

(** ** User code *)

(** The calls user code can make.  Zones, delegates and tasks are named by
    number; a delegate bears the number of its owning zone.  [applyThis]
    and [applyArgs] are passed through the core untouched, so callbacks are
    closed commands. *)
Inductive Code :=
| CRet (v : Val)
| CThrow (e : Err)
| CBind (c : Code) (k : Val -> Code)
| CTry (c : Code) (h : Err -> Code)
| CLog (s : string)
| CRun (z : nat) (cb : Code)
| CRunGuarded (z : nat) (cb : Code)
| CNewTask (type : TaskType) (source : string) (cb : Code)
    (data : option TaskData)
    (scheduleFn cancelFn : option (nat -> Code))
| CScheduleTask (z t : nat)
| CRunTask (z t : nat)
| CCancelTask (z t : nat)
| CTaskInvoke (t : nat)
| CCancelScheduleRequest (t : nat)
| CDrainMicroTaskQueue
| CDlgInvoke (d target : nat) (cb : Code)
| CDlgHandleError (d target : nat) (e : Err)
| CDlgScheduleTask (d target t : nat)
| CDlgInvokeTask (d target t : nat)
| CDlgCancelTask (d target t : nat)
| CDlgHasTask (d target : nat) (st : HasTaskState).

Definition CSeq (c1 c2 : Code) : Code := CBind c1 (fun _ => c2).

(** ** Zone specs, delegates and zones *)

(** A properties object ([{[key: string]: any}]): the entries it owns, and
    whether the lookup of [hasOwnProperty] along its prototype chain ends
    at the built-in of [Object.prototype], as it does for an object
    literal and does not for [Object.create(null)] or below a prototype
    that shadows the method with data.  Property values are data ([Val]
    has no functions), so an entry named [hasOwnProperty] is never
    callable. *)
Record Properties := {
  ownEntries : gmap string Val;
  inheritsHasOwnProperty : bool
}.

(** [{k1: v1, ...}]. *)
Definition objectLiteral (entries : gmap string Val) : Properties :=
  {| ownEntries := entries; inheritsHasOwnProperty := true |}.

(** [ZoneSpec]: hooks receive [(parentZoneDelegate, currentZone, targetZone,
    ...)].  [onFork] and [onIntercept] are kept only as presence flags for
    the delegate constructor. *)
Record ZoneSpec := {
  zs_name : string;
  zs_properties : option Properties;
  onFork : bool;
  onIntercept : bool;
  onInvoke : option (option nat -> option nat -> nat -> Code -> Code);
  onHandleError : option (option nat -> option nat -> nat -> Err -> Code);
  onScheduleTask : option (option nat -> option nat -> nat -> nat -> Code);
  onInvokeTask : option (option nat -> option nat -> nat -> nat -> Code);
  onCancelTask : option (option nat -> option nat -> nat -> nat -> Code);
  onHasTask : option (option nat -> option nat -> nat -> HasTaskState -> Code)
}.

(** One cached hook entry [(ZS, Dlgt, CurrZone)] of a delegate. *)
Record Triple := {
  tZS : option ZoneSpec;
  tDlgt : option nat;
  tCurrZone : option nat
}.

Definition noTriple : Triple :=
  {| tZS := None; tDlgt := None; tCurrZone := None |}.

Record ZoneDelegate := {
  zd_zone : nat;
  _parentDelegate : option nat;
  _fork : Triple;
  _intercept : Triple;
  _invoke : Triple;
  _handleError : Triple;
  _scheduleTask : Triple;
  _invokeTask : Triple;
  _cancelTask : Triple;
  _hasTask : Triple;
  _hasTaskDlgtOwner : option nat
}.

(** A zone is immutable after construction, so it carries its parent. *)
Inductive Zone := mkZone {
  zid : nat;
  _parent : option Zone;
  _name : string;
  _properties : Properties;
  _zoneDelegate : ZoneDelegate
}.

(** [DELEGATE_ZS]: the built-in forwarding spec used when ref-counting
    forces task hooks through a delegate.  Calling a method on a [null]
    parent delegate is the engine's [TypeError]. *)
Definition withDlgt (d : option nat) (k : nat -> Code) : Code :=
  match d with
  | Some d => k d
  | None => CThrow (ETypeError "Cannot read property of null")
  end.

Definition DELEGATE_ZS : ZoneSpec :=
  {| zs_name := "";
     zs_properties := None;
     onFork := false;
     onIntercept := false;
     onInvoke := None;
     onHandleError := None;
     onScheduleTask := Some (fun delegate _ target task =>
        withDlgt delegate (fun d => CDlgScheduleTask d target task));
     onInvokeTask := Some (fun delegate _ target task =>
        withDlgt delegate (fun d => CDlgInvokeTask d target task));
     onCancelTask := Some (fun delegate _ target task =>
        withDlgt delegate (fun d => CDlgCancelTask d target task));
     onHasTask := Some (fun delegate _ target hasTaskState =>
        withDlgt delegate (fun d => CDlgHasTask d target hasTaskState)) |}.

(** [zoneSpec && (zoneSpec.onH ? (zoneSpec, parentDelegate, this.zone)
                               : (parentDelegate!._hZS, parentDelegate!._hDlgt,
                                  parentDelegate!.zone))].
    [None] is the [TypeError] of dereferencing a [null] parent delegate. *)
Definition hookTriple (zone : nat) (parentDelegate : option ZoneDelegate)
    (zoneSpec : option ZoneSpec) (has : ZoneSpec -> bool)
    (sel : ZoneDelegate -> Triple) : option Triple :=
  match zoneSpec with
  | None => Some noTriple
  | Some zs =>
      if has zs then
        Some {| tZS := Some zs;
                tDlgt := zd_zone <$> parentDelegate;
                tCurrZone := Some zone |}
      else
        match parentDelegate with
        | Some pd => Some {| tZS := tZS (sel pd);
                             tDlgt := tDlgt (sel pd);
                             tCurrZone := Some (zd_zone pd) |}
        | None => None
        end
  end.

(** The override applied to a task hook when ref-counting is on and the
    spec leaves the hook unset. *)
Definition forced (zone : nat) (parentDelegate : option ZoneDelegate)
    (has : bool) (t : Triple) : Triple :=
  if has then t
  else {| tZS := Some DELEGATE_ZS;
          tDlgt := zd_zone <$> parentDelegate;
          tCurrZone := Some zone |}.

Definition isSome {A} (o : option A) : bool :=
  match o with Some _ => true | None => false end.

(** [new ZoneDelegate(zone, parentDelegate, zoneSpec)]. *)
Definition ZoneDelegate_new (zone : nat) (parentDelegate : option ZoneDelegate)
    (zoneSpec : option ZoneSpec) : option ZoneDelegate :=
  fk ← hookTriple zone parentDelegate zoneSpec onFork _fork;
  ic ← hookTriple zone parentDelegate zoneSpec onIntercept _intercept;
  iv ← hookTriple zone parentDelegate zoneSpec (fun s => isSome (onInvoke s)) _invoke;
  he ← hookTriple zone parentDelegate zoneSpec (fun s => isSome (onHandleError s)) _handleError;
  st ← hookTriple zone parentDelegate zoneSpec (fun s => isSome (onScheduleTask s)) _scheduleTask;
  it ← hookTriple zone parentDelegate zoneSpec (fun s => isSome (onInvokeTask s)) _invokeTask;
  ct ← hookTriple zone parentDelegate zoneSpec (fun s => isSome (onCancelTask s)) _cancelTask;
  let zoneSpecHasTask :=
    match zoneSpec with Some zs => isSome (onHasTask zs) | None => false end in
  let parentHasTask :=
    match parentDelegate with
    | Some pd => isSome (tZS (_hasTask pd)) | None => false
    end in
  if zoneSpecHasTask || parentHasTask then
    zs ← zoneSpec;
    Some {| zd_zone := zone;
            _parentDelegate := zd_zone <$> parentDelegate;
            _fork := fk; _intercept := ic; _invoke := iv; _handleError := he;
            _scheduleTask :=
              forced zone parentDelegate (isSome (onScheduleTask zs)) st;
            _invokeTask :=
              forced zone parentDelegate (isSome (onInvokeTask zs)) it;
            _cancelTask :=
              forced zone parentDelegate (isSome (onCancelTask zs)) ct;
            _hasTask :=
              {| tZS := Some (if zoneSpecHasTask then zs else DELEGATE_ZS);
                 tDlgt := zd_zone <$> parentDelegate;
                 tCurrZone := Some zone |};
            _hasTaskDlgtOwner := Some zone |}
  else
    Some {| zd_zone := zone;
            _parentDelegate := zd_zone <$> parentDelegate;
            _fork := fk; _intercept := ic; _invoke := iv; _handleError := he;
            _scheduleTask := st; _invokeTask := it; _cancelTask := ct;
            _hasTask := noTriple;
            _hasTaskDlgtOwner := None |}.

(** [new Zone(parent, zoneSpec)]; [id] is the identity of the new object. *)
Definition Zone_new (id : nat) (parent : option Zone)
    (zoneSpec : option ZoneSpec) : option Zone :=
  dlg ← ZoneDelegate_new id (_zoneDelegate <$> parent) zoneSpec;
  Some {| zid := id;
          _parent := parent;
          _name := match zoneSpec with
                   | Some zs => if String.eqb (zs_name zs) "" then "unnamed"
                                else zs_name zs
                   | None => "<root>"
                   end;
          _properties := match zoneSpec with
                         | Some zs =>
                             default (objectLiteral ∅) (zs_properties zs)
                         | None => objectLiteral ∅
                         end;
          _zoneDelegate := dlg |}.

(** [props.hasOwnProperty(key)]: the method is looked up on the object
    itself, so an own entry of that name is what gets called, and an
    object that neither owns nor inherits the method has nothing to call;
    both are the engine's [TypeError]. *)
Definition notAFunction : Err :=
  ETypeError "current._properties.hasOwnProperty is not a function".

Definition hasOwnProperty (props : Properties) (key : string) : Err + bool :=
  match ownEntries props !! "hasOwnProperty" with
  | Some _ => inl notAFunction
  | None =>
      if inheritsHasOwnProperty props
      then inr (isSome (ownEntries props !! key))
      else inl notAFunction
  end.

(** [Zone.getZoneWith]: walk from [this] up the parent pointers. *)
Fixpoint Zone_getZoneWith (this : Zone) (key : string) : Err + option Zone :=
  match this with
  | mkZone _ parent _ props _ =>
      match hasOwnProperty props key with
      | inl e => inl e
      | inr true => inr (Some this)
      | inr false =>
          match parent with
          | Some p => Zone_getZoneWith p key
          | None => inr None
          end
      end
  end.

(** [Zone.get]: [zone._properties[key]] of the zone found, else
    [undefined]. *)
Definition Zone_get (this : Zone) (key : string) : Err + Val :=
  match Zone_getZoneWith this key with
  | inl e => inl e
  | inr (Some zone) =>
      inr (default VUndefined (ownEntries (_properties zone) !! key))
  | inr None => inr VUndefined
  end.

(** The parent chain of a zone, from the zone itself up to the root. *)
Fixpoint chain (z : Zone) : list Zone :=
  match z with
  | mkZone _ parent _ _ _ =>
      z :: match parent with Some p => chain p | None => [] end
  end.

(** ** Process-wide state *)

(** A task object ([ZoneTask]).  [_zoneDelegates] is a reference into the
    store of delegate arrays, because [scheduleTask] compares it by
    identity. *)
Record ZoneTask := {
  type : TaskType;
  source : string;
  callback : Code;
  data : option TaskData;
  scheduleFn : option (nat -> Code);
  cancelFn : option (nat -> Code);
  _zone : option nat;
  runCount : Z;
  _zoneDelegates : option nat;
  _state : TaskState
}.

(** [_ZoneFrame]: [{parent, zone}]. *)
Inductive ZoneFrame := mkFrame {
  f_parent : option ZoneFrame;
  f_zone : nat
}.

(** [_taskCounts] of one delegate. *)
Record TaskCounts := {
  c_microTask : Z;
  c_macroTask : Z;
  c_eventTask : Z
}.

Definition zeroCounts : TaskCounts :=
  {| c_microTask := 0; c_macroTask := 0; c_eventTask := 0 |}.

Definition getCount (c : TaskCounts) (ty : TaskType) : Z :=
  match ty with
  | microTask => c_microTask c
  | macroTask => c_macroTask c
  | eventTask => c_eventTask c
  end.

Definition setCount (c : TaskCounts) (ty : TaskType) (n : Z) : TaskCounts :=
  match ty with
  | microTask => {| c_microTask := n; c_macroTask := c_macroTask c;
                    c_eventTask := c_eventTask c |}
  | macroTask => {| c_microTask := c_microTask c; c_macroTask := n;
                    c_eventTask := c_eventTask c |}
  | eventTask => {| c_microTask := c_microTask c;
                    c_macroTask := c_macroTask c; c_eventTask := n |}
  end.

(** What the outside world can observe: calls that leave the core.  The
    trace is instrumentation; the core never reads it. *)
Inductive Event :=
| EvLog (s : string)
| EvHasTask (zone target : nat) (st : HasTaskState)
| EvUnhandledError (e : Err)
| EvDrainDone
| EvArmDrain
| EvEnqueue (t : nat)
| EvDequeue (t : nat).

Record World := {
  tasks : list ZoneTask;
  arrays : list (list (option nat));
  taskCounts : gmap nat TaskCounts;
  _currentZoneFrame : option ZoneFrame;
  _currentTask : option nat;
  _numberOfNestedTaskFrames : Z;
  _microTaskQueue : list nat;
  _isDrainingMicrotaskQueue : bool;
  trace : list Event
}.

Definition set_tasks (f : list ZoneTask -> list ZoneTask) (w : World) :=
  {| tasks := f (tasks w); arrays := arrays w; taskCounts := taskCounts w;
     _currentZoneFrame := _currentZoneFrame w; _currentTask := _currentTask w;
     _numberOfNestedTaskFrames := _numberOfNestedTaskFrames w;
     _microTaskQueue := _microTaskQueue w;
     _isDrainingMicrotaskQueue := _isDrainingMicrotaskQueue w;
     trace := trace w |}.

Definition set_arrays (f : list (list (option nat)) -> list (list (option nat)))
    (w : World) :=
  {| tasks := tasks w; arrays := f (arrays w); taskCounts := taskCounts w;
     _currentZoneFrame := _currentZoneFrame w; _currentTask := _currentTask w;
     _numberOfNestedTaskFrames := _numberOfNestedTaskFrames w;
     _microTaskQueue := _microTaskQueue w;
     _isDrainingMicrotaskQueue := _isDrainingMicrotaskQueue w;
     trace := trace w |}.

Definition set_taskCounts (f : gmap nat TaskCounts -> gmap nat TaskCounts)
    (w : World) :=
  {| tasks := tasks w; arrays := arrays w; taskCounts := f (taskCounts w);
     _currentZoneFrame := _currentZoneFrame w; _currentTask := _currentTask w;
     _numberOfNestedTaskFrames := _numberOfNestedTaskFrames w;
     _microTaskQueue := _microTaskQueue w;
     _isDrainingMicrotaskQueue := _isDrainingMicrotaskQueue w;
     trace := trace w |}.

Definition set_frame (f : option ZoneFrame) (w : World) :=
  {| tasks := tasks w; arrays := arrays w; taskCounts := taskCounts w;
     _currentZoneFrame := f; _currentTask := _currentTask w;
     _numberOfNestedTaskFrames := _numberOfNestedTaskFrames w;
     _microTaskQueue := _microTaskQueue w;
     _isDrainingMicrotaskQueue := _isDrainingMicrotaskQueue w;
     trace := trace w |}.

Definition set_currentTask (t : option nat) (w : World) :=
  {| tasks := tasks w; arrays := arrays w; taskCounts := taskCounts w;
     _currentZoneFrame := _currentZoneFrame w; _currentTask := t;
     _numberOfNestedTaskFrames := _numberOfNestedTaskFrames w;
     _microTaskQueue := _microTaskQueue w;
     _isDrainingMicrotaskQueue := _isDrainingMicrotaskQueue w;
     trace := trace w |}.

Definition set_nested (n : Z) (w : World) :=
  {| tasks := tasks w; arrays := arrays w; taskCounts := taskCounts w;
     _currentZoneFrame := _currentZoneFrame w; _currentTask := _currentTask w;
     _numberOfNestedTaskFrames := n;
     _microTaskQueue := _microTaskQueue w;
     _isDrainingMicrotaskQueue := _isDrainingMicrotaskQueue w;
     trace := trace w |}.

Definition set_queue (q : list nat) (w : World) :=
  {| tasks := tasks w; arrays := arrays w; taskCounts := taskCounts w;
     _currentZoneFrame := _currentZoneFrame w; _currentTask := _currentTask w;
     _numberOfNestedTaskFrames := _numberOfNestedTaskFrames w;
     _microTaskQueue := q;
     _isDrainingMicrotaskQueue := _isDrainingMicrotaskQueue w;
     trace := trace w |}.

Definition set_draining (b : bool) (w : World) :=
  {| tasks := tasks w; arrays := arrays w; taskCounts := taskCounts w;
     _currentZoneFrame := _currentZoneFrame w; _currentTask := _currentTask w;
     _numberOfNestedTaskFrames := _numberOfNestedTaskFrames w;
     _microTaskQueue := _microTaskQueue w;
     _isDrainingMicrotaskQueue := b;
     trace := trace w |}.

Definition add_event (e : Event) (w : World) :=
  {| tasks := tasks w; arrays := arrays w; taskCounts := taskCounts w;
     _currentZoneFrame := _currentZoneFrame w; _currentTask := _currentTask w;
     _numberOfNestedTaskFrames := _numberOfNestedTaskFrames w;
     _microTaskQueue := _microTaskQueue w;
     _isDrainingMicrotaskQueue := _isDrainingMicrotaskQueue w;
     trace := trace w ++ [e] |}.

(** ** The monad: state, exceptions, and running out of fuel *)

Inductive Res (A : Type) :=
| Ok (a : A)
| Throw (e : Err)
| Diverge.
Arguments Ok {A} a.
Arguments Throw {A} e.
Arguments Diverge {A}.

Definition M (A : Type) : Type := World -> Res A * World.

Definition ret {A} (a : A) : M A := fun w => (Ok a, w).
Definition throw {A} (e : Err) : M A := fun w => (Throw e, w).
Definition diverge {A} : M A := fun w => (Diverge, w).

Definition bind {A B} (m : M A) (k : A -> M B) : M B :=
  fun w => match m w with
           | (Ok a, w') => k a w'
           | (Throw e, w') => (Throw e, w')
           | (Diverge, w') => (Diverge, w')
           end.

Notation "'let*' x ':=' m 'in' k" := (bind m (fun x => k))
  (at level 10, x name, m at level 100, k at level 200).
Notation "m ';;' k" := (bind m (fun _ => k))
  (at level 100, k at level 200, right associativity).

(** [try { m } catch (e) { h e }]. *)
Definition try_catch {A} (m : M A) (h : Err -> M A) : M A :=
  fun w => match m w with
           | (Throw e, w') => h e w'
           | r => r
           end.

(** [try { m } finally { f }]: [f] runs on both exits of [m]; when [f]
    throws, its error replaces the outcome of [m]. *)
Definition try_finally {A} (m : M A) (f : M unit) : M A :=
  fun w => match m w with
           | (Diverge, w') => (Diverge, w')
           | (r, w') => match f w' with
                        | (Ok _, w'') => (r, w'')
                        | (Throw e, w'') => (Throw e, w'')
                        | (Diverge, w'') => (Diverge, w'')
                        end
           end.

Definition get_world : M World := fun w => (Ok w, w).
Definition modify (f : World -> World) : M unit := fun w => (Ok tt, f w).
Definition emit (e : Event) : M unit := modify (add_event e).

(** ** Tasks *)

Definition typeError {A} (what : string) : M A :=
  throw (ETypeError what).

(** Dereference a task; a number that names no task stands for a
    non-object, whose field access is a [TypeError]. *)
Definition getTask (t : nat) : M ZoneTask :=
  fun w => match tasks w !! t with
           | Some tk => (Ok tk, w)
           | None => (Throw (ETypeError "Cannot read property of undefined"), w)
           end.

Definition updTask (t : nat) (f : ZoneTask -> ZoneTask) : M unit :=
  modify (set_tasks (fun ts => match ts !! t with
                               | Some tk => <[t := f tk]> ts
                               | None => ts
                               end)).

Definition with_state (s : TaskState) (tk : ZoneTask) : ZoneTask :=
  {| type := type tk; source := source tk; callback := callback tk;
     data := data tk; scheduleFn := scheduleFn tk; cancelFn := cancelFn tk;
     _zone := _zone tk; runCount := runCount tk;
     _zoneDelegates := _zoneDelegates tk; _state := s |}.

Definition with_zoneDelegates (zd : option nat) (tk : ZoneTask) : ZoneTask :=
  {| type := type tk; source := source tk; callback := callback tk;
     data := data tk; scheduleFn := scheduleFn tk; cancelFn := cancelFn tk;
     _zone := _zone tk; runCount := runCount tk;
     _zoneDelegates := zd; _state := _state tk |}.

Definition with_zone (z : option nat) (tk : ZoneTask) : ZoneTask :=
  {| type := type tk; source := source tk; callback := callback tk;
     data := data tk; scheduleFn := scheduleFn tk; cancelFn := cancelFn tk;
     _zone := z; runCount := runCount tk;
     _zoneDelegates := _zoneDelegates tk; _state := _state tk |}.

Definition with_runCount (n : Z) (tk : ZoneTask) : ZoneTask :=
  {| type := type tk; source := source tk; callback := callback tk;
     data := data tk; scheduleFn := scheduleFn tk; cancelFn := cancelFn tk;
     _zone := _zone tk; runCount := n;
     _zoneDelegates := _zoneDelegates tk; _state := _state tk |}.

Definition with_cancelFn (c : option (nat -> Code)) (tk : ZoneTask) : ZoneTask :=
  {| type := type tk; source := source tk; callback := callback tk;
     data := data tk; scheduleFn := scheduleFn tk; cancelFn := c;
     _zone := _zone tk; runCount := runCount tk;
     _zoneDelegates := _zoneDelegates tk; _state := _state tk |}.

(** [new ZoneTask(type, source, callback, options, scheduleFn, cancelFn)]. *)
Definition ZoneTask_new (ty : TaskType) (src : string) (cb : Code)
    (options : option TaskData) (sf cf : option (nat -> Code)) : ZoneTask :=
  {| type := ty; source := src; callback := cb; data := options;
     scheduleFn := sf; cancelFn := cf;
     _zone := None; runCount := 0; _zoneDelegates := None;
     _state := notScheduled |}.

(** The message of an illegal transition. *)
Definition transitionMsg (tk : ZoneTask) (toState fromState1 : TaskState)
    (fromState2 : option TaskState) : string :=
  (TaskType_str (type tk) ++ " '" ++ source tk ++ "': can not transition to '"
   ++ TaskState_str toState ++ "', expecting state '"
   ++ TaskState_str fromState1 ++ "'"
   ++ match fromState2 with
      | Some s2 => " or '" ++ TaskState_str s2 ++ "'"
      | None => ""
      end
   ++ ", was '" ++ TaskState_str (_state tk) ++ "'.")%string.

Definition stateIs (tk : ZoneTask) (s : option TaskState) : bool :=
  match s with
  | Some s => TaskState_eqb (_state tk) s
  | None => false
  end.

(** [ZoneTask._transitionTo(toState, fromState1, fromState2?)]. *)
Definition ZoneTask__transitionTo (t : nat) (toState fromState1 : TaskState)
    (fromState2 : option TaskState) : M unit :=
  let* tk := getTask t in
  if stateIs tk (Some fromState1) || stateIs tk fromState2 then
    updTask t (with_state toState);;
    if TaskState_eqb toState notScheduled
    then updTask t (with_zoneDelegates None)
    else ret tt
  else
    throw (EError (transitionMsg tk toState fromState1 fromState2)).

(** [ZoneTask.cancelScheduleRequest()]. *)
Definition ZoneTask_cancelScheduleRequest (t : nat) : M unit :=
  ZoneTask__transitionTo t notScheduled scheduling None.

(** [task.data && task.data.isPeriodic]. *)
Definition dataIsPeriodic (tk : ZoneTask) : bool :=
  match data tk with
  | Some d => default false (isPeriodic d)
  | None => false
  end.

(** [type == eventTask || (data && data.isPeriodic)]: the task stays
    scheduled after a run. *)
Definition staysScheduled (tk : ZoneTask) : bool :=
  TaskType_eqb (type tk) eventTask || dataIsPeriodic tk.

(** ** The microtask queue: enqueueing *)

(** [scheduleMicroTask(task)]: arm the host trigger when nothing else will
    drain the queue, then push. *)
Definition scheduleMicroTask (task : nat) : M unit :=
  let* w := get_world in
  (if Z.eqb (_numberOfNestedTaskFrames w) 0
      && Nat.eqb (length (_microTaskQueue w)) 0
   then emit EvArmDrain else ret tt);;
  modify (fun w => set_queue (_microTaskQueue w ++ [task]) w);;
  emit (EvEnqueue task).

(** ** The zone frame stack *)

(** [_currentZoneFrame = {parent: _currentZoneFrame, zone: this}]. *)
Definition pushFrame (z : nat) : M unit :=
  modify (fun w => set_frame (Some (mkFrame (_currentZoneFrame w) z)) w).

(** [_currentZoneFrame = _currentZoneFrame.parent!]. *)
Definition popFrame : M unit :=
  fun w => match _currentZoneFrame w with
           | Some f => (Ok tt, set_frame (f_parent f) w)
           | None => (Throw (ETypeError "Cannot read property 'parent' of null"), w)
           end.

(** [Zone.current]. *)
Definition Zone_current (w : World) : option nat :=
  f_zone <$> _currentZoneFrame w.

(** ** The core, relative to a way of running user code

    [zones] is the table of zone objects, [call] runs a piece of user
    code, and [fuel] bounds the two loops whose length user code can
    extend while they run. *)
Section Core.

Variable zones : list Zone.
Variable fuel : nat.
Variable call : Code -> M Val.

Definition getZone (z : nat) : M Zone :=
  match zones !! z with
  | Some zn => ret zn
  | None => typeError "Cannot read property of undefined"
  end.

Definition getDelegate (d : nat) : M ZoneDelegate :=
  let* zn := getZone d in ret (_zoneDelegate zn).

(** [(zone || NO_ZONE).name]. *)
Definition zoneName (z : option nat) : string :=
  match z with
  | None => "NO ZONE"
  | Some z => match zones !! z with
              | Some zn => _name zn
              | None => "undefined"
              end
  end.

(** *** ZoneDelegate *)

Definition ZoneDelegate_invoke (d : ZoneDelegate) (targetZone : nat)
    (cb : Code) : M Val :=
  match tZS (_invoke d) with
  | Some zs =>
      match onInvoke zs with
      | Some h => call (h (tDlgt (_invoke d)) (tCurrZone (_invoke d))
                          targetZone cb)
      | None => typeError "onInvoke is not a function"
      end
  | None => call cb
  end.

Definition ZoneDelegate_handleError (d : ZoneDelegate) (targetZone : nat)
    (error : Err) : M Val :=
  match tZS (_handleError d) with
  | Some zs =>
      match onHandleError zs with
      | Some h => call (h (tDlgt (_handleError d))
                          (tCurrZone (_handleError d)) targetZone error)
      | None => typeError "onHandleError is not a function"
      end
  | None => ret (VBool true)
  end.

(** [array.push(x)] on the array numbered [a]. *)
Definition pushArray (a : nat) (x : option nat) : M unit :=
  modify (set_arrays (fun arrs => match arrs !! a with
                                  | Some l => <[a := l ++ [x]]> arrs
                                  | None => arrs
                                  end)).

Definition ZoneDelegate_scheduleTask (d : ZoneDelegate) (targetZone : nat)
    (task : nat) : M Val :=
  match tZS (_scheduleTask d) with
  | Some zs =>
      (if isSome (tZS (_hasTask d)) then
         let* tk := getTask task in
         match _zoneDelegates tk with
         | Some a => pushArray a (_hasTaskDlgtOwner d)
         | None => typeError "Cannot read property 'push' of null"
         end
       else ret tt);;
      let* returnTask :=
        match onScheduleTask zs with
        | Some h => call (h (tDlgt (_scheduleTask d))
                            (tCurrZone (_scheduleTask d)) targetZone task)
        | None => typeError "onScheduleTask is not a function"
        end in
      ret (if truthy returnTask then returnTask else VTask task)
  | None =>
      let* tk := getTask task in
      match scheduleFn tk with
      | Some sf => call (sf task);; ret (VTask task)
      | None =>
          if TaskType_eqb (type tk) microTask
          then scheduleMicroTask task;; ret (VTask task)
          else throw (EError "Task is missing scheduleFn.")
      end
  end.

Definition ZoneDelegate_invokeTask (d : ZoneDelegate) (targetZone : nat)
    (task : nat) : M Val :=
  match tZS (_invokeTask d) with
  | Some zs =>
      match onInvokeTask zs with
      | Some h => call (h (tDlgt (_invokeTask d))
                          (tCurrZone (_invokeTask d)) targetZone task)
      | None => typeError "onInvokeTask is not a function"
      end
  | None => let* tk := getTask task in call (callback tk)
  end.

Definition ZoneDelegate_cancelTask (d : ZoneDelegate) (targetZone : nat)
    (task : nat) : M Val :=
  match tZS (_cancelTask d) with
  | Some zs =>
      match onCancelTask zs with
      | Some h => call (h (tDlgt (_cancelTask d))
                          (tCurrZone (_cancelTask d)) targetZone task)
      | None => typeError "onCancelTask is not a function"
      end
  | None =>
      let* tk := getTask task in
      match cancelFn tk with
      | None => throw (EError "Task is not cancelable")
      | Some cf => call (cf task)
      end
  end.

(** The body of [hasTask]: a failing hook is routed to [handleError]. *)
Definition hasTask_dispatch (d : ZoneDelegate) (targetZone : nat)
    (isEmpty : HasTaskState) : M unit :=
  try_catch
    (match tZS (_hasTask d) with
     | Some zs =>
         match onHasTask zs with
         | Some h => call (h (tDlgt (_hasTask d)) (tCurrZone (_hasTask d))
                             targetZone isEmpty);; ret tt
         | None => typeError "onHasTask is not a function"
         end
     | None => ret tt
     end)
    (fun err => ZoneDelegate_handleError d targetZone err;; ret tt).

(** [ZoneDelegate.hasTask]; every call is recorded in the trace. *)
Definition ZoneDelegate_hasTask (d : ZoneDelegate) (targetZone : nat)
    (isEmpty : HasTaskState) : M unit :=
  emit (EvHasTask (zd_zone d) targetZone isEmpty);;
  hasTask_dispatch d targetZone isEmpty.

Definition countsOf (w : World) (d : nat) : TaskCounts :=
  default zeroCounts (taskCounts w !! d).

Definition snapshot (counts : TaskCounts) (change : TaskType) : HasTaskState :=
  {| hts_microTask := 0 <? c_microTask counts;
     hts_macroTask := 0 <? c_macroTask counts;
     hts_eventTask := 0 <? c_eventTask counts;
     hts_change := change |}.

Definition ZoneDelegate__updateTaskCount (d : ZoneDelegate) (ty : TaskType)
    (count : Z) : M unit :=
  let* w := get_world in
  let counts := countsOf w (zd_zone d) in
  let prev := getCount counts ty in
  let next := prev + count in
  modify (set_taskCounts (fun m => <[zd_zone d := setCount counts ty next]> m));;
  if next <? 0 then
    throw (EError "More tasks executed then were scheduled.")
  else if (prev =? 0) || (next =? 0) then
    let* w' := get_world in
    ZoneDelegate_hasTask d (zd_zone d)
      (snapshot (countsOf w' (zd_zone d)) ty)
  else ret tt.

(** *** Zone *)

(** [Zone._updateTaskCount]: the [for] loop re-reads the array length on
    every iteration. *)
Fixpoint updateLoop (n : nat) (a : nat) (ty : TaskType) (count : Z)
    (i : nat) : M unit :=
  match n with
  | O => diverge
  | S n' =>
      let* w := get_world in
      match arrays w !! a with
      | None => typeError "Cannot read property 'length' of undefined"
      | Some zoneDelegates =>
          if (i <? length zoneDelegates)%nat then
            match zoneDelegates !! i with
            | Some (Some d) =>
                let* dl := getDelegate d in
                ZoneDelegate__updateTaskCount dl ty count;;
                updateLoop n' a ty count (S i)
            | _ => typeError "Cannot read property '_updateTaskCount' of null"
            end
          else ret tt
      end
  end.

Definition Zone__updateTaskCount (this : Zone) (task : nat) (count : Z)
    : M unit :=
  let* tk := getTask task in
  let zoneDelegates := _zoneDelegates tk in
  (if count =? -1 then updTask task (with_zoneDelegates None) else ret tt);;
  match zoneDelegates with
  | None => typeError "Cannot read property 'length' of null"
  | Some a => updateLoop fuel a (type tk) count 0
  end.

(** [Zone.run].  A callback is a closed command: its [applyThis],
    [applyArgs] and [source] are not represented, here and in
    [runGuarded], [runTask] and the hooks. *)
Definition Zone_run (this : Zone) (cb : Code) : M Val :=
  pushFrame (zid this);;
  try_finally
    (ZoneDelegate_invoke (_zoneDelegate this) (zid this) cb)
    popFrame.

(** The inner [try ... catch] of [Zone.runGuarded]. *)
Definition runGuarded_body (this : Zone) (cb : Code) : M Val :=
  try_catch
    (ZoneDelegate_invoke (_zoneDelegate this) (zid this) cb)
    (fun error =>
       let* h := ZoneDelegate_handleError (_zoneDelegate this)
                   (zid this) error in
       if truthy h then throw error else ret VUndefined).

(** [Zone.runGuarded].  Its default [applyThis = null], where [run]
    passes [undefined] on, has no counterpart here: the two differ in the
    source for a callback or an [onInvoke] hook that looks at [this]. *)
Definition Zone_runGuarded (this : Zone) (cb : Code) : M Val :=
  pushFrame (zid this);;
  try_finally (runGuarded_body this cb) popFrame.

Definition sameZone (tz : option nat) (this : Zone) : bool :=
  match tz with
  | Some z => Nat.eqb z (zid this)
  | None => false
  end.

Definition wrongZoneMsg (what : string) (tk : ZoneTask) (this : Zone)
    : string :=
  ("A task can only be " ++ what ++ " in the zone of creation! (Creation: "
   ++ zoneName (_zone tk) ++ "; Execution: " ++ _name this ++ ")")%string.

(** [task.type == macroTask && task.data && !task.data.isPeriodic]. *)
Definition oneShotMacroWithData (tk : ZoneTask) : bool :=
  TaskType_eqb (type tk) macroTask && isSome (data tk)
  && negb (dataIsPeriodic tk).

(** The first half of the [finally] block of [Zone.runTask]: settle the
    task's state, run count and counters. *)
Definition runTask_settle (this : Zone) (task : nat) (reEntryGuard : bool)
    : M unit :=
  let* tk := getTask task in
  if negb (TaskState_eqb (_state tk) notScheduled)
     && negb (TaskState_eqb (_state tk) unknown)
  then
    if staysScheduled tk then
      if reEntryGuard
      then ZoneTask__transitionTo task scheduled running None
      else ret tt
    else
      updTask task (with_runCount 0);;
      Zone__updateTaskCount this task (-1);;
      if reEntryGuard
      then ZoneTask__transitionTo task notScheduled running
             (Some notScheduled)
      else ret tt
  else ret tt.

(** The [finally] block of [Zone.runTask]. *)
Definition runTask_unwind (this : Zone) (task : nat) (reEntryGuard : bool)
    (previousTask : option nat) : M unit :=
  runTask_settle this task reEntryGuard;;
  popFrame;;
  modify (set_currentTask previousTask).

(** The steps of [Zone.runTask] between the entry checks and the [try]:
    mark the task running, count the run, and switch the current task and
    zone frame.  Returns [previousTask]. *)
Definition runTask_enter (this : Zone) (task : nat) (reEntryGuard : bool)
    : M (option nat) :=
  (if reEntryGuard
   then ZoneTask__transitionTo task running scheduled None
   else ret tt);;
  updTask task (fun tk => with_runCount (runCount tk + 1) tk);;
  let* w := get_world in
  let previousTask := _currentTask w in
  modify (set_currentTask (Some task));;
  pushFrame (zid this);;
  ret previousTask.

(** The guarded callback invocation inside [Zone.runTask]. *)
Definition runTask_body (this : Zone) (task : nat) : M Val :=
  let* tk := getTask task in
  (if oneShotMacroWithData tk
   then updTask task (with_cancelFn None) else ret tt);;
  try_catch
    (ZoneDelegate_invokeTask (_zoneDelegate this) (zid this) task)
    (fun error =>
       let* h := ZoneDelegate_handleError (_zoneDelegate this)
                   (zid this) error in
       if truthy h then throw error else ret VUndefined).

(** [Zone.runTask]. *)
Definition Zone_runTask (this : Zone) (task : nat) : M Val :=
  let* tk := getTask task in
  if negb (sameZone (_zone tk) this) then
    throw (EError (wrongZoneMsg "run" tk this))
  else if TaskState_eqb (_state tk) notScheduled
          && TaskType_eqb (type tk) eventTask then
    ret VUndefined
  else
    let reEntryGuard := negb (TaskState_eqb (_state tk) running) in
    let* previousTask := runTask_enter this task reEntryGuard in
    try_finally (runTask_body this task)
                (runTask_unwind this task reEntryGuard previousTask).

(** The walk of [scheduleTask]: is the zone numbered [target] met going
    from [z] up the parent pointers? *)
Fixpoint onParentChain (z : Zone) (target : nat) : bool :=
  match z with
  | mkZone id parent _ _ _ =>
      Nat.eqb id target
      || match parent with
         | Some p => onParentChain p target
         | None => false
         end
  end.

Definition rescheduleMsg (this : Zone) (tz : nat) : string :=
  ("can not reschedule task to " ++ _name this
   ++ " which is descendants of the original zone "
   ++ zoneName (Some tz))%string.

(** The guard at the head of [Zone.scheduleTask]. *)
Definition rescheduleCheck (this : Zone) (tk : ZoneTask) : M unit :=
  match _zone tk with
  | Some tz =>
      if negb (Nat.eqb tz (zid this)) && onParentChain this tz
      then throw (EError (rescheduleMsg this tz))
      else ret tt
  | None => ret tt
  end.

(** [const zoneDelegates = []]: a fresh array. *)
Definition newArray : M nat :=
  fun w => (Ok (length (arrays w)), set_arrays (fun arrs => arrs ++ [[]]) w).

Definition optNat_eqb (a b : option nat) : bool :=
  match a, b with
  | Some x, Some y => Nat.eqb x y
  | None, None => true
  | _, _ => false
  end.

(** [Zone.scheduleTask], step by step.  First the task is moved to
    [scheduling] and bound to a fresh [_zoneDelegates] array and to the
    receiver. *)
Definition scheduleTask_bind (this : Zone) (task : nat) : M nat :=
  ZoneTask__transitionTo task scheduling notScheduled None;;
  let* zoneDelegates := newArray in
  updTask task (with_zoneDelegates (Some zoneDelegates));;
  updTask task (with_zone (Some (zid this)));;
  ret zoneDelegates.

(** Then the delegate schedules it; an error moves the task to [unknown],
    goes through [handleError] and is thrown again. *)
Definition scheduleTask_dispatch (this : Zone) (task : nat) : M Val :=
  try_catch
    (ZoneDelegate_scheduleTask (_zoneDelegate this) (zid this) task)
    (fun err =>
       ZoneTask__transitionTo task unknown scheduling (Some notScheduled);;
       ZoneDelegate_handleError (_zoneDelegate this) (zid this) err;;
       throw err).

(** Last, on the task the delegate returned: count it when its array is
    still the one bound above, and move it to [scheduled] when it is still
    [scheduling]. *)
Definition scheduleTask_finish (this : Zone) (zoneDelegates : nat)
    (returned : Val) : M Val :=
  match returned with
  | VTask task' =>
      let* w := get_world in
      match tasks w !! task' with
      | Some tk' =>
          (if optNat_eqb (_zoneDelegates tk') (Some zoneDelegates)
           then Zone__updateTaskCount this task' 1 else ret tt);;
          let* w' := get_world in
          match tasks w' !! task' with
          | Some tk'' =>
              if TaskState_eqb (_state tk'') scheduling
              then ZoneTask__transitionTo task' scheduled scheduling None
              else ret tt
          | None => ret tt
          end
      | None => ret tt
      end;;
      ret returned
  | _ => ret returned
  end.

(** [Zone.scheduleTask] after the guard. *)
Definition scheduleTask_proceed (this : Zone) (task : nat) : M Val :=
  let* zoneDelegates := scheduleTask_bind this task in
  let* returned := scheduleTask_dispatch this task in
  scheduleTask_finish this zoneDelegates returned.

(** [Zone.scheduleTask]. *)
Definition Zone_scheduleTask (this : Zone) (task : nat) : M Val :=
  let* tk := getTask task in
  rescheduleCheck this tk;;
  scheduleTask_proceed this task.

(** [Zone.cancelTask]. *)
Definition Zone_cancelTask (this : Zone) (task : nat) : M Val :=
  let* tk := getTask task in
  if negb (sameZone (_zone tk) this) then
    throw (EError (wrongZoneMsg "cancelled" tk this))
  else
    ZoneTask__transitionTo task canceling scheduled (Some running);;
    try_catch
      (ZoneDelegate_cancelTask (_zoneDelegate this) (zid this) task;; ret tt)
      (fun err =>
         ZoneTask__transitionTo task unknown canceling None;;
         ZoneDelegate_handleError (_zoneDelegate this) (zid this) err;;
         throw err);;
    Zone__updateTaskCount this task (-1);;
    ZoneTask__transitionTo task notScheduled canceling None;;
    updTask task (with_runCount 0);;
    ret (VTask task).

(** *** Draining the microtask queue *)

(** [task.zone.runTask(task, ...)]. *)
Definition runInOwnZone (task : nat) : M Val :=
  let* tk := getTask task in
  match _zone tk with
  | Some z => let* zn := getZone z in Zone_runTask zn task
  | None => typeError "Cannot read property 'runTask' of null"
  end.

(** [_api.onUnhandledError] and [_api.microtaskDrainDone] are [noop] in
    this file; a call is recorded in the trace. *)
Definition onUnhandledError (error : Err) : M unit :=
  emit (EvUnhandledError error).

Definition microtaskDrainDone : M unit := emit EvDrainDone.

(** The inner [for] loop over the swapped-out array. *)
Fixpoint drainPass (queue : list nat) : M unit :=
  match queue with
  | [] => ret tt
  | task :: rest =>
      emit (EvDequeue task);;
      try_catch (runInOwnZone task;; ret tt) onUnhandledError;;
      drainPass rest
  end.

(** The outer [while (_microTaskQueue.length)] loop. *)
Fixpoint drainLoop (n : nat) : M unit :=
  match n with
  | O => diverge
  | S n' =>
      let* w := get_world in
      match _microTaskQueue w with
      | [] => ret tt
      | queue =>
          modify (set_queue []);;
          drainPass queue;;
          drainLoop n'
      end
  end.

(** [drainMicroTaskQueue]. *)
Definition drainMicroTaskQueue : M unit :=
  let* w := get_world in
  if _isDrainingMicrotaskQueue w then ret tt
  else
    modify (set_draining true);;
    drainLoop fuel;;
    microtaskDrainDone;;
    modify (set_draining false).

(** The static [ZoneTask.invokeTask(task, target, args)]. *)
Definition ZoneTask_invokeTask (task : nat) : M Val :=
  modify (fun w => set_nested (_numberOfNestedTaskFrames w + 1) w);;
  try_finally
    (getTask task;;
     updTask task (fun tk => with_runCount (runCount tk + 1) tk);;
     runInOwnZone task)
    (let* w := get_world in
     (if _numberOfNestedTaskFrames w =? 1
      then drainMicroTaskQueue else ret tt);;
     modify (fun w => set_nested (_numberOfNestedTaskFrames w - 1) w)).

End Core.

(** ** Running user code *)

(** [new ZoneTask(...)] allocates a task object. *)
Definition allocTask (tk : ZoneTask) : M nat :=
  fun w => (Ok (length (tasks w)), set_tasks (fun ts => ts ++ [tk]) w).

(** [exec zones n c] runs the command [c]; each call into the zone API
    that re-enters user code spends one unit of [n]. *)
Fixpoint exec (zones : list Zone) (n : nat) (c : Code) : M Val :=
  match n with
  | O => diverge
  | S n' =>
      let call := exec zones n' in
      match c with
      | CRet v => ret v
      | CThrow e => throw e
      | CBind c1 k => let* v := call c1 in call (k v)
      | CTry c1 h => try_catch (call c1) (fun e => call (h e))
      | CLog s => emit (EvLog s);; ret VUndefined
      | CRun z cb =>
          let* zn := getZone zones z in Zone_run call zn cb
      | CRunGuarded z cb =>
          let* zn := getZone zones z in Zone_runGuarded call zn cb
      | CNewTask ty src cb dat sf cf =>
          let* t := allocTask (ZoneTask_new ty src cb dat sf cf) in
          ret (VTask t)
      | CScheduleTask z t =>
          let* zn := getZone zones z in Zone_scheduleTask zones n' call zn t
      | CRunTask z t =>
          let* zn := getZone zones z in Zone_runTask zones n' call zn t
      | CCancelTask z t =>
          let* zn := getZone zones z in Zone_cancelTask zones n' call zn t
      | CTaskInvoke t => ZoneTask_invokeTask zones n' call t
      | CCancelScheduleRequest t =>
          ZoneTask_cancelScheduleRequest t;; ret VUndefined
      | CDrainMicroTaskQueue =>
          drainMicroTaskQueue zones n' call;; ret VUndefined
      | CDlgInvoke d target cb =>
          let* dl := getDelegate zones d in ZoneDelegate_invoke call dl target cb
      | CDlgHandleError d target e =>
          let* dl := getDelegate zones d in
          ZoneDelegate_handleError call dl target e
      | CDlgScheduleTask d target t =>
          let* dl := getDelegate zones d in
          ZoneDelegate_scheduleTask call dl target t
      | CDlgInvokeTask d target t =>
          let* dl := getDelegate zones d in
          ZoneDelegate_invokeTask call dl target t
      | CDlgCancelTask d target t =>
          let* dl := getDelegate zones d in
          ZoneDelegate_cancelTask call dl target t
      | CDlgHasTask d target st =>
          let* dl := getDelegate zones d in
          ZoneDelegate_hasTask call dl target st;; ret VUndefined
      end
  end.

(** ** Notions used to state the properties *)

(** The receiver is a proper descendant of the task's zone: [task.zone] is
    set, is not the receiver, and is met walking up from the receiver. *)
Definition properDescendant (this : Zone) (tz : option nat) : Prop :=
  exists z, tz = Some z /\ z <> zid this /\ z ∈ (zid <$> chain this).

(** The state right after [counts[type] = prev + count]. *)
Definition stored (d : ZoneDelegate) (ty : TaskType) (count : Z) (w : World)
    : World :=
  set_taskCounts
    (fun m => <[zd_zone d :=
                setCount (countsOf w (zd_zone d)) ty
                  (getCount (countsOf w (zd_zone d)) ty + count)]> m) w.

(** The state with task [t] replaced by [tk]. *)
Definition putTask (t : nat) (tk : ZoneTask) (w : World) : World :=
  set_tasks (fun ts => <[t := tk]> ts) w.

(** A task after a legal transition to [to]. *)
Definition transitioned (to : TaskState) (tk : ZoneTask) : ZoneTask :=
  if TaskState_eqb to notScheduled
  then with_zoneDelegates None (with_state to tk)
  else with_state to tk.

(** The state in which the callback of a scheduled task [tk] starts under
    [runTask]: task running, run counted, current task and frame
    switched. *)
Definition runTask_entered (this : Zone) (task : nat) (tk : ZoneTask)
    (w : World) : World :=
  set_frame (Some (mkFrame (_currentZoneFrame w) (zid this)))
    (set_currentTask (Some task)
       (putTask task
          (with_runCount (runCount tk + 1) (with_state running tk)) w)).

(** The state in which the static [ZoneTask.invokeTask] calls
    [task.zone.runTask]: one more nested frame, one run counted. *)
Definition invokeTask_entered (task : nat) (tk : ZoneTask) (w : World)
    : World :=
  putTask task (with_runCount (runCount tk + 1) tk)
    (set_nested (_numberOfNestedTaskFrames w + 1) w).

(** The state in which [scheduleTask] calls the delegate: the task is
    [scheduling], owns a fresh empty array and is bound to the receiver. *)
Definition scheduleTask_bound (this : Zone) (task : nat) (tk : ZoneTask)
    (w : World) : World :=
  putTask task
    (with_zone (Some (zid this))
       (with_zoneDelegates (Some (length (arrays w)))
          (with_state scheduling tk)))
    (set_arrays (fun arrs => arrs ++ [[]]) w).

Definition set_trace (tr : list Event) (w : World) :=
  {| tasks := tasks w; arrays := arrays w; taskCounts := taskCounts w;
     _currentZoneFrame := _currentZoneFrame w; _currentTask := _currentTask w;
     _numberOfNestedTaskFrames := _numberOfNestedTaskFrames w;
     _microTaskQueue := _microTaskQueue w;
     _isDrainingMicrotaskQueue := _isDrainingMicrotaskQueue w;
     trace := tr |}.

(** The counters after [counts[ty] += count] in delegate [d]. *)
Definition bump (d : nat) (ty : TaskType) (count : Z)
    (m : gmap nat TaskCounts) : gmap nat TaskCounts :=
  let c := default zeroCounts (m !! d) in
  <[d := setCount c ty (getCount c ty + count)]> m.

(** ... and after doing so for each entry of [ds] in turn. *)
Fixpoint bumpAll (ds : list nat) (ty : TaskType) (count : Z)
    (m : gmap nat TaskCounts) : gmap nat TaskCounts :=
  match ds with
  | [] => m
  | d :: ds' => bumpAll ds' ty count (bump d ty count m)
  end.

(** No counter becomes negative on the way. *)
Fixpoint bumpable (ds : list nat) (ty : TaskType) (count : Z)
    (m : gmap nat TaskCounts) : bool :=
  match ds with
  | [] => true
  | d :: ds' =>
      (0 <=? getCount (default zeroCounts (m !! d)) ty + count)
      && bumpable ds' ty count (bump d ty count m)
  end.

(** Every entry of [ds] names a zone of the table, whose delegate bears
    that number. *)
Definition resolves (zones : list Zone) (ds : list nat) : Prop :=
  forall d, d ∈ ds ->
    exists zn, zones !! d = Some zn /\ zd_zone (_zoneDelegate zn) = d.

(** The [hasTask] notifications of the delegates in [ds] return normally
    and change nothing but the trace. *)
Definition quietHasTask (call : Code -> M Val) (zones : list Zone)
    (ds : list nat) : Prop :=
  forall d zn st w, d ∈ ds -> zones !! d = Some zn ->
    exists tr, ZoneDelegate_hasTask call (_zoneDelegate zn)
                 (zd_zone (_zoneDelegate zn)) st w
               = (Ok tt, set_trace tr w).

(** The tasks pushed on, and taken off, the microtask queue, in order, as
    recorded in a trace. *)
Definition enqueued (tr : list Event) : list nat :=
  omap (fun e => match e with EvEnqueue t => Some t | _ => None end) tr.

Definition dequeued (tr : list Event) : list nat :=
  omap (fun e => match e with EvDequeue t => Some t | _ => None end) tr.

(** What a step made while the queue is being drained may do to the
    queue: push tasks at its end, and nothing else. *)
Definition onlyEnqueues (w w' : World) : Prop :=
  _isDrainingMicrotaskQueue w = true ->
  _isDrainingMicrotaskQueue w' = true
  /\ exists new,
       _microTaskQueue w' = _microTaskQueue w ++ new
       /\ enqueued (trace w') = enqueued (trace w) ++ new
       /\ dequeued (trace w') = dequeued (trace w).

(** [m] only ever takes a state to one related to it by [R]. *)
Definition preserves (R : World -> World -> Prop) {A} (m : M A) : Prop :=
  forall w r w', m w = (r, w') -> R w w'.

(** [m'] does whatever [m] does, whenever [m] comes to an end. *)
Definition refines {A} (m m' : M A) : Prop :=
  forall w r w', m w = (r, w') -> r <> Diverge -> m' w = (r, w').

(** The state in which the callback starts: one frame pushed. *)
Definition entered (this : Zone) (w : World) : World :=
  set_frame (Some (mkFrame (_currentZoneFrame w) (zid this))) w.

(** ** A small zone tree used by the examples

    [root] (0), [A = root.fork(specA)] (1), [B = A.fork(specB)] (2), and
    [H = root.fork(specH)] (3) whose spec logs [onHasTask] and swallows
    errors. *)
Module Ex.

Definition plainSpec (name : string) : ZoneSpec :=
  {| zs_name := name; zs_properties := None;
     onFork := false; onIntercept := false;
     onInvoke := None; onHandleError := None;
     onScheduleTask := None; onInvokeTask := None;
     onCancelTask := None; onHasTask := None |}.

Definition specH : ZoneSpec :=
  {| zs_name := "H"; zs_properties := Some (objectLiteral {["k" := VNum 7]});
     onFork := false; onIntercept := false;
     onInvoke := None;
     onHandleError := Some (fun _ _ _ _ => CRet (VBool false));
     onScheduleTask := None; onInvokeTask := None;
     onCancelTask := None;
     onHasTask := Some (fun _ _ _ _ => CLog "hasTask") |}.

Definition orRoot (z : option Zone) : Zone :=
  default (mkZone 0 None "" (objectLiteral ∅)
             {| zd_zone := 0; _parentDelegate := None;
                _fork := noTriple; _intercept := noTriple;
                _invoke := noTriple; _handleError := noTriple;
                _scheduleTask := noTriple; _invokeTask := noTriple;
                _cancelTask := noTriple; _hasTask := noTriple;
                _hasTaskDlgtOwner := None |}) z.

Definition root : Zone := orRoot (Zone_new 0 None None).
Definition A : Zone := orRoot (Zone_new 1 (Some root) (Some (plainSpec "A"))).
Definition B : Zone := orRoot (Zone_new 2 (Some A) (Some (plainSpec "B"))).
Definition H : Zone := orRoot (Zone_new 3 (Some root) (Some specH)).

Definition zones : list Zone := [root; A; B; H].

(** The state at module load. *)
Definition w0 : World :=
  {| tasks := []; arrays := []; taskCounts := ∅;
     _currentZoneFrame := Some (mkFrame None 0);
     _currentTask := None;
     _numberOfNestedTaskFrames := 0;
     _microTaskQueue := [];
     _isDrainingMicrotaskQueue := false;
     trace := [] |}.

Definition noop : option (nat -> Code) := Some (fun _ => CRet VUndefined).

(** The task numbered [t] in state [w]. *)
Definition taskAt (w : World) (t : nat) : ZoneTask :=
  default (ZoneTask_new microTask "" (CRet VUndefined) None None None)
    (tasks w !! t).

(** A one-shot macrotask of zone [A] whose callback cancels the task and
    schedules it again; [wRescheduling] is the state after
    [A.scheduleTask(task)]. *)
Definition reschedulingTask : Code :=
  CNewTask macroTask "t" (CSeq (CCancelTask 1 0) (CScheduleTask 1 0))
    None noop noop.

Definition wRescheduling : World :=
  snd (exec zones 20 (CSeq reschedulingTask (CScheduleTask 1 0)) w0).


(** A one-shot macrotask scheduled in [H], whose delegate counts tasks. *)
Definition macroInH : Code :=
  CSeq (CNewTask macroTask "timer" (CLog "run") None noop noop)
       (CScheduleTask 3 0).

Definition wMacroInH : World := snd (exec zones 20 macroInH w0).

(** User code hands the scheduled task to [H]'s delegate once more, which
    registers the delegate a second time without counting the task in,
    and then cancels the task, catching the error. *)
Definition countedOutTwice : Code :=
  CSeq macroInH
    (CSeq (CDlgScheduleTask 3 3 0)
          (CTry (CCancelTask 3 0) (fun _ => CRet VNull))).

(** The same task, created and not yet scheduled. *)
Definition wMacroNew : World :=
  snd (exec zones 20
         (CNewTask macroTask "timer" (CLog "run") None noop noop) w0).

(** An event task scheduled in [A]. *)
Definition eventInA : Code :=
  CSeq (CNewTask eventTask "click" (CLog "click") None noop noop)
       (CScheduleTask 1 0).

Definition wEventInA : World := snd (exec zones 20 eventInA w0).

(** The same event task while it is running: the state a callback of the
    task sees. *)
Definition wEventRunning : World :=
  match tasks wEventInA !! 0%nat with
  | Some tk => runTask_entered A 0 tk wEventInA
  | None => wEventInA
  end.

(** A task of zone [A] that was scheduled and cancelled. *)
Definition ownedByA : Code :=
  CSeq (CNewTask macroTask "t" (CRet VUndefined) None noop noop)
       (CSeq (CScheduleTask 1 0) (CCancelTask 1 0)).

Definition wOwnedByA : World := snd (exec zones 20 ownedByA w0).


(** Three microtasks queued from inside [A.run]; the first throws and the
    second queues one more when it runs. *)
Definition queueing : Code :=
  CRun 1
    (CSeq (CNewTask microTask "m1" (CThrow (EError "m1 failed")) None None None)
    (CSeq (CScheduleTask 1 0)
    (CSeq (CNewTask microTask "m2" (CScheduleTask 1 2) None None None)
    (CSeq (CScheduleTask 1 1)
    (CSeq (CNewTask microTask "m3" (CLog "m3") None None None)
          (CLog "sync")))))).

Definition wQueued : World := snd (exec zones 20 queueing w0).


(** S1 of the specification: two microtasks queued inside [A.run]. *)
Definition twoMicrotasks : Code :=
  CSeq
    (CRun 1
       (CSeq (CNewTask microTask "m1" (CLog "a") None None None)
       (CSeq (CScheduleTask 1 0)
       (CSeq (CNewTask microTask "m2" (CLog "b") None None None)
       (CSeq (CScheduleTask 1 1)
             (CLog "sync"))))))
    CDrainMicroTaskQueue.

(** The [EvLog] entries of a trace. *)
Definition logged (tr : list Event) : list string :=
  omap (fun e => match e with EvLog s => Some s | _ => None end) tr.

(** S2 of the specification: schedule and cancel a macrotask in [H]. *)
Definition scheduleAndCancel : Code :=
  CSeq macroInH (CCancelTask 3 0).

End Ex.

(** ** More of the zone API *)

(** What [ZoneDelegate.fork] does: build the child itself, or hand the
    request to the [onFork] hook of the cached spec (whose body is user
    code and is not interpreted here). *)
Inductive ForkOutcome :=
| Forked (child : option Zone)
| ForkHook (zs : ZoneSpec) (parentZoneDelegate : option nat)
    (currentZone targetZone : nat) (zoneSpec : ZoneSpec).

(** [ZoneDelegate.fork(targetZone, zoneSpec)]; [id] is the identity the
    new zone object gets. *)
Definition ZoneDelegate_fork (d : ZoneDelegate) (targetZone : Zone)
    (id : nat) (zoneSpec : ZoneSpec) : ForkOutcome :=
  match tZS (_fork d) with
  | Some zs => ForkHook zs (tDlgt (_fork d)) (zd_zone d) (zid targetZone)
                 zoneSpec
  | None => Forked (Zone_new id (Some targetZone) (Some zoneSpec))
  end.

(** [Zone.fork(zoneSpec)]. *)
Definition Zone_fork (this : Zone) (id : nat) (zoneSpec : option ZoneSpec)
    : Err + ForkOutcome :=
  match zoneSpec with
  | None => inl (EError "ZoneSpec required!")
  | Some zs => inr (ZoneDelegate_fork (_zoneDelegate this) this id zs)
  end.

(** The static [Zone.root], from the current zone: follow [parent] until
    there is none. *)
Fixpoint rootOf (zone : Zone) : Zone :=
  match zone with
  | mkZone _ parent _ _ _ =>
      match parent with
      | Some p => rootOf p
      | None => zone
      end
  end.

(** [z] was built from [base] by [new Zone(parent, spec)], child of child;
    [specs] are the specs used, the one of [z] first. *)
Inductive BuiltFrom (base : Zone) : Zone -> list ZoneSpec -> Prop :=
| BuiltFrom_base : BuiltFrom base base []
| BuiltFrom_child id p s z specs :
    BuiltFrom base p specs ->
    Zone_new id (Some p) (Some s) = Some z ->
    BuiltFrom base z (s :: specs).

(** The cached entry a zone should hold for a hook, going by the specs on
    its parent chain: the first spec that defines the hook, the delegate
    of the parent of the zone that spec belongs to, and as current zone the
    zone itself when its own spec defines the hook and its parent
    otherwise. *)
Definition nearest (has : ZoneSpec -> bool) (sel : ZoneDelegate -> Triple)
    (base z : Zone) (specs : list ZoneSpec) : Triple :=
  match list_find (fun s => has s = true) specs with
  | Some (k, s) =>
      {| tZS := Some s;
         tDlgt := zid <$> (chain z !! S k);
         tCurrZone := zid <$> (chain z !! (if k is O then O else 1%nat)) |}
  | None =>
      match specs with
      | [] => sel (_zoneDelegate base)
      | _ => {| tZS := tZS (sel (_zoneDelegate base));
                tDlgt := tDlgt (sel (_zoneDelegate base));
                tCurrZone := zid <$> (chain z !! 1%nat) |}
      end
  end.

(** The entry a child holds for a hook that ref-counting does not force. *)
Definition childTriple (id : nat) (p : Zone) (s : ZoneSpec)
    (has : ZoneSpec -> bool) (sel : ZoneDelegate -> Triple) : Triple :=
  if has s
  then {| tZS := Some s; tDlgt := Some (zd_zone (_zoneDelegate p));
          tCurrZone := Some id |}
  else {| tZS := tZS (sel (_zoneDelegate p));
          tDlgt := tDlgt (sel (_zoneDelegate p));
          tCurrZone := Some (zd_zone (_zoneDelegate p)) |}.

(** Whether ref-counting is on at the end of a line of descent: some spec
    on the line defines [onHasTask], or the base delegate already reports
    task counts. *)
Definition counting (base : Zone) (specs : list ZoneSpec) : bool :=
  existsb (fun s => isSome (onHasTask s)) specs
  || isSome (tZS (_hasTask (_zoneDelegate base))).

(** The entry of a task hook in a delegate that counts tasks. *)
Definition countedTriple (id : nat) (p : Zone) (s : ZoneSpec)
    (has : ZoneSpec -> bool) : Triple :=
  {| tZS := Some (if has s then s else DELEGATE_ZS);
     tDlgt := Some (zd_zone (_zoneDelegate p));
     tCurrZone := Some id |}.

(** [Zone.scheduleMicroTask], [scheduleMacroTask] and
    [scheduleEventTask]: make the task, then [scheduleTask] it. *)
Definition Zone_scheduleMicroTask (zones : list Zone) (fuel : nat)
    (call : Code -> M Val) (this : Zone) (source : string) (callback : Code)
    (data : option TaskData) (customSchedule : option (nat -> Code))
    : M Val :=
  let* task := allocTask (ZoneTask_new microTask source callback data
                            customSchedule None) in
  Zone_scheduleTask zones fuel call this task.

Definition Zone_scheduleMacroTask (zones : list Zone) (fuel : nat)
    (call : Code -> M Val) (this : Zone) (source : string) (callback : Code)
    (data : option TaskData) (customSchedule customCancel : option (nat -> Code))
    : M Val :=
  let* task := allocTask (ZoneTask_new macroTask source callback data
                            customSchedule customCancel) in
  Zone_scheduleTask zones fuel call this task.

Definition Zone_scheduleEventTask (zones : list Zone) (fuel : nat)
    (call : Code -> M Val) (this : Zone) (source : string) (callback : Code)
    (data : option TaskData) (customSchedule customCancel : option (nat -> Code))
    : M Val :=
  let* task := allocTask (ZoneTask_new eventTask source callback data
                            customSchedule customCancel) in
  Zone_scheduleTask zones fuel call this task.


(** An ordinary properties object: it inherits [hasOwnProperty] and has
    no entry of that name. *)
Definition ordinary (props : Properties) : bool :=
  negb (isSome (ownEntries props !! "hasOwnProperty"))
  && inheritsHasOwnProperty props.


(** The zones of the frames of the zone stack, the current one first. *)
Fixpoint frameZones (f : ZoneFrame) : list nat :=
  match f with
  | mkFrame parent zone =>
      zone :: match parent with
              | Some p => frameZones p
              | None => []
              end
  end.

Definition stack (w : World) : list nat :=
  match _currentZoneFrame w with
  | Some f => frameZones f
  | None => []
  end.

(** From [w] to [w'] no frame of the stack of [w] was popped and no task
    frame open in [w] was closed. *)
Definition stackGrows (w w' : World) : Prop :=
  stack w `suffix_of` stack w'
  /\ _numberOfNestedTaskFrames w <= _numberOfNestedTaskFrames w'.

(** ... and the frame of zone [z] pushed on the stack of [w] is still
    there in [w']. *)
Definition inFrame (z : nat) (w w' : World) : Prop :=
  (z :: stack w) `suffix_of` stack w'
  /\ _numberOfNestedTaskFrames w <= _numberOfNestedTaskFrames w'.

(** The state after the drain has dealt with the outcome [r] of a task:
    an error is handed to [onUnhandledError]. *)
Definition reported (r : Res Val) (w : World) : World :=
  match r with
  | Throw e => add_event (EvUnhandledError e) w
  | _ => w
  end.

(** [passRuns zones n call queue w w']: from [w], the tasks of [queue]
    are taken one after the other, each is run by [task.zone.runTask] and
    its run comes to an end, and [w'] is the state after the last. *)
Inductive passRuns (zones : list Zone) (n : nat) (call : Code -> M Val)
  : list nat -> World -> World -> Prop :=
| passRuns_nil w : passRuns zones n call [] w w
| passRuns_cons task rest w r w1 w2 :
    runInOwnZone zones n call task (add_event (EvDequeue task) w) = (r, w1) ->
    r <> Diverge ->
    passRuns zones n call rest (reported r w1) w2 ->
    passRuns zones n call (task :: rest) w w2.

(** [drainRuns zones n call p w w']: [p] passes, each over the queue as
    it is when the pass starts, take [w] to a state [w'] whose queue is
    empty. *)
Inductive drainRuns (zones : list Zone) (n : nat) (call : Code -> M Val)
  : nat -> World -> World -> Prop :=
| drainRuns_done w :
    _microTaskQueue w = [] -> drainRuns zones n call 0 w w
| drainRuns_pass p w w1 w2 :
    _microTaskQueue w <> [] ->
    passRuns zones n call (_microTaskQueue w) (set_queue [] w) w1 ->
    drainRuns zones n call p w1 w2 ->
    drainRuns zones n call (S p) w w2.

(** ** A line of zones with hooks, used by the examples

    [root] (0), [I] (1) whose spec defines [onInvoke], [J] (2) plain,
    [K] (3) whose spec defines [onHasTask], and [L] (4) plain, each the
    child of the one before. *)
Module ExHooks.

Definition specI : ZoneSpec :=
  {| zs_name := "I";
     zs_properties := Some (objectLiteral {["k" := VNum 1; "i" := VNum 2]});
     onFork := false; onIntercept := false;
     onInvoke := Some (fun _ _ _ cb => CSeq (CLog "invoke") cb);
     onHandleError := None;
     onScheduleTask := None; onInvokeTask := None;
     onCancelTask := None; onHasTask := None |}.

Definition specK : ZoneSpec :=
  {| zs_name := "K"; zs_properties := Some (objectLiteral {["k" := VNum 3]});
     onFork := true; onIntercept := false;
     onInvoke := None; onHandleError := None;
     onScheduleTask := None; onInvokeTask := None;
     onCancelTask := None;
     onHasTask := Some (fun _ _ _ _ => CLog "hasTask") |}.

Definition root : Zone := Ex.root.
Definition I : Zone := Ex.orRoot (Zone_new 1 (Some root) (Some specI)).
Definition J : Zone :=
  Ex.orRoot (Zone_new 2 (Some I) (Some (Ex.plainSpec "J"))).
Definition K : Zone := Ex.orRoot (Zone_new 3 (Some J) (Some specK)).
Definition L : Zone :=
  Ex.orRoot (Zone_new 4 (Some K) (Some (Ex.plainSpec "L"))).

Definition zones : list Zone := [root; I; J; K; L].

End ExHooks.

(** ** Tasks used by the examples of the further properties *)
Module ExTasks.

(** A microtask created and, in [wMicroInA], scheduled in [Ex.A]. *)
Definition newMicro : Code :=
  CNewTask microTask "m" (CLog "m") None None None.

Definition wMicroNew : World := snd (exec Ex.zones 20 newMicro Ex.w0).

Definition wMicroInA : World :=
  snd (exec Ex.zones 20 (CSeq newMicro (CScheduleTask 1 0)) Ex.w0).

(** A zone [S] (1) whose [onScheduleTask] withdraws every request. *)
Definition specS : ZoneSpec :=
  {| zs_name := "S"; zs_properties := None;
     onFork := false; onIntercept := false;
     onInvoke := None; onHandleError := None;
     onScheduleTask := Some (fun _ _ _ task =>
        CSeq (CCancelScheduleRequest task) (CRet (VTask task)));
     onInvokeTask := None; onCancelTask := None; onHasTask := None |}.

Definition S : Zone := Ex.orRoot (Zone_new 1 (Some Ex.root) (Some specS)).

Definition zonesS : list Zone := [Ex.root; S].

(** A zone [T] (1) whose [onHasTask] throws and whose [onHandleError]
    asks for the error to be thrown again. *)
Definition specT : ZoneSpec :=
  {| zs_name := "T"; zs_properties := None;
     onFork := false; onIntercept := false;
     onInvoke := None;
     onHandleError := Some (fun _ _ _ _ =>
        CSeq (CLog "handled") (CRet (VBool true)));
     onScheduleTask := None; onInvokeTask := None; onCancelTask := None;
     onHasTask := Some (fun _ _ _ _ => CThrow (EError "hook failed")) |}.

Definition T : Zone := Ex.orRoot (Zone_new 1 (Some Ex.root) (Some specT)).

Definition zonesT : list Zone := [Ex.root; T].

Definition stMicro : HasTaskState :=
  {| hts_microTask := true; hts_macroTask := false;
     hts_eventTask := false; hts_change := microTask |}.

(** The microtask of [wMicroInA] after a failed [cancelTask]. *)
Definition wUnknown : World :=
  snd (Zone_cancelTask Ex.zones 20 (exec Ex.zones 20) Ex.A 0 wMicroInA).

(** An event task of [Ex.A] whose callback cancels the task, scheduled. *)
Definition wSelfCancelling : World :=
  snd (exec Ex.zones 20
         (CSeq (CNewTask eventTask "click" (CCancelTask 1 0) None Ex.noop
                  Ex.noop)
               (CScheduleTask 1 0))
         Ex.w0).

(** The event task of [Ex.A], scheduled, and a queued microtask that will
    cancel it. *)
Definition wEventAndCanceller : World :=
  snd (exec Ex.zones 20
         (CSeq Ex.eventInA
            (CSeq (CNewTask microTask "m" (CCancelTask 1 0) None None None)
                  (CScheduleTask 1 1)))
         Ex.w0).

(** The state in which the host fires the event task of [Ex.A] while one
    microtask is queued. *)
Definition wEventAndMicro : World :=
  snd (exec Ex.zones 20
         (CSeq Ex.eventInA
            (CSeq (CNewTask microTask "m" (CLog "m") None None None)
                  (CScheduleTask 1 1)))
         Ex.w0).

End ExTasks.

(** ** Zones with unusual properties objects

    [P] (1) has [properties = {hasOwnProperty: 1, k: 1}], [Q] (2) is a
    plain child of [P], and [N] (3) has a properties object made with
    [Object.create(null)] that holds [k]. *)
Module ExProps.

Definition specP : ZoneSpec :=
  {| zs_name := "P";
     zs_properties :=
       Some (objectLiteral {["hasOwnProperty" := VNum 1; "k" := VNum 1]});
     onFork := false; onIntercept := false;
     onInvoke := None; onHandleError := None;
     onScheduleTask := None; onInvokeTask := None;
     onCancelTask := None; onHasTask := None |}.

Definition specN : ZoneSpec :=
  {| zs_name := "N";
     zs_properties :=
       Some {| ownEntries := {["k" := VNum 1]};
               inheritsHasOwnProperty := false |};
     onFork := false; onIntercept := false;
     onInvoke := None; onHandleError := None;
     onScheduleTask := None; onInvokeTask := None;
     onCancelTask := None; onHasTask := None |}.

Definition P : Zone := Ex.orRoot (Zone_new 1 (Some Ex.root) (Some specP)).
Definition Q : Zone :=
  Ex.orRoot (Zone_new 2 (Some P) (Some (Ex.plainSpec "Q"))).
Definition N : Zone := Ex.orRoot (Zone_new 3 (Some Ex.root) (Some specN)).

End ExProps.
(** * Properties *)

(** ** Zone properties: [get] and [getZoneWith] *)

Section ZoneProperties.

(** Induction along the parent pointer. *)
Lemma Zone_parent_ind (P : Zone -> Prop) :
  (forall id nm props d, P (mkZone id None nm props d)) ->
  (forall id p nm props d, P p -> P (mkZone id (Some p) nm props d)) ->
  forall z, P z.
Proof.
  intros Hroot Hchild.
  fix IH 1. intros [id [p|] nm props d].
  - apply Hchild, IH.
  - apply Hroot.
Qed.

Lemma hasOwnProperty_ordinary props key :
  ordinary props = true ->
  hasOwnProperty props key = inr (isSome (ownEntries props !! key)).
Proof.
  unfold ordinary, hasOwnProperty.
  destruct (ownEntries props !! "hasOwnProperty"); simpl; [discriminate|].
  by intros ->.
Qed.

Lemma hasOwnProperty_exotic props key :
  ordinary props = false -> hasOwnProperty props key = inl notAFunction.
Proof.
  unfold ordinary, hasOwnProperty.
  destruct (ownEntries props !! "hasOwnProperty"); simpl; [done|].
  by intros ->.
Qed.

(** [getZoneWith] stops at the first zone of the chain whose properties
    object either owns the key or cannot answer [hasOwnProperty]: it
    returns the former and throws at the latter. *)
Lemma getZoneWith_find (Z : Zone) (K : string) :
  Zone_getZoneWith Z K
  = match List.find (fun z => negb (ordinary (_properties z))
                              || isSome (ownEntries (_properties z) !! K))
            (chain Z) with
    | Some z => if ordinary (_properties z) then inr (Some z)
                else inl notAFunction
    | None => inr None
    end.
Proof.
  induction Z as [id nm props d | id p nm props d IH] using Zone_parent_ind;
    simpl; destruct (ordinary props) eqn:Hord; simpl;
    rewrite ?(hasOwnProperty_ordinary _ _ Hord),
      ?(hasOwnProperty_exotic _ _ Hord);
    try done;
    destruct (isSome (ownEntries props !! K)); simpl;
    by rewrite ?Hord.
Qed.

Lemma find_first {A} (f : A -> bool) (l : list A) :
  match List.find f l with
  | Some z => exists pre post,
                l = pre ++ z :: post
                /\ (forall y, y ∈ pre -> f y = false) /\ f z = true
  | None => forall y, y ∈ l -> f y = false
  end.
Proof.
  induction l as [|x l IH]; simpl.
  - intros y Hy. inversion Hy.
  - destruct (f x) eqn:Hx.
    + exists [], l. repeat split; [|done]. intros y Hy. inversion Hy.
    + destruct (List.find f l) as [z|].
      * destruct IH as (pre & post & -> & Hpre & Hz).
        exists (x :: pre), post. repeat split; [|done].
        intros y Hy. apply elem_of_cons in Hy as [->|Hy]; [done|auto].
      * intros y Hy. apply elem_of_cons in Hy as [->|Hy]; [done|auto].
Qed.

(** On a chain of ordinary properties objects, [getZoneWith(K)] is the
    nearest zone of the chain that owns [K] (none when no zone does), and
    [get(K)] is that zone's [properties[K]], [undefined] when there is
    none. *)
Lemma get_of_ordinary_chain (Z : Zone) (K : string) :
  (forall y, y ∈ chain Z -> ordinary (_properties y) = true) ->
  match Zone_getZoneWith Z K with
  | inr (Some z) =>
      exists pre post v,
        chain Z = pre ++ z :: post
        /\ (forall y, y ∈ pre -> ownEntries (_properties y) !! K = None)
        /\ ownEntries (_properties z) !! K = Some v
        /\ Zone_get Z K = inr v
  | inr None =>
      (forall y, y ∈ chain Z -> ownEntries (_properties y) !! K = None)
      /\ Zone_get Z K = inr VUndefined
  | inl _ => False
  end.
Proof.
  intros Hord. unfold Zone_get. rewrite getZoneWith_find.
  pose proof (find_first
                (fun z => negb (ordinary (_properties z))
                          || isSome (ownEntries (_properties z) !! K))
                (chain Z)) as Hf.
  destruct (List.find _ (chain Z)) as [z|].
  - destruct Hf as (pre & post & Hc & Hpre & Hz).
    assert (ordinary (_properties z) = true) as Hoz.
    { apply Hord. rewrite Hc. set_solver. }
    rewrite Hoz in Hz |- *. simpl in Hz.
    destruct (ownEntries (_properties z) !! K) as [v|] eqn:Hv; [|done].
    exists pre, post, v. split; [done|]. split; [|done].
    intros y Hy. specialize (Hpre y Hy).
    rewrite Hord in Hpre by (rewrite Hc; set_solver). simpl in Hpre.
    by destruct (ownEntries (_properties y) !! K).
  - split; [|done]. intros y Hy. specialize (Hf y Hy).
    rewrite (Hord y Hy) in Hf. simpl in Hf.
    by destruct (ownEntries (_properties y) !! K).
Qed.

(** C8 fails on the code: [P]'s properties object owns [k], and so is the
    nearest zone of its own chain and of [Q]'s that owns it, but
    [getZoneWith] and [get] call [hasOwnProperty] through that object,
    which holds the number 1 under that name, and throw a [TypeError]
    instead of returning [P] and 1; they throw as well for [N], whose
    properties object has no prototype. *)
Theorem get_throws_on_unusual_properties :
  ownEntries (_properties ExProps.P) !! "k" = Some (VNum 1)
  /\ Zone_getZoneWith ExProps.P "k" = inl notAFunction
  /\ Zone_get ExProps.P "k" = inl notAFunction
  /\ Zone_getZoneWith ExProps.Q "k" = inl notAFunction
  /\ Zone_get ExProps.Q "k" = inl notAFunction
  /\ ownEntries (_properties ExProps.N) !! "k" = Some (VNum 1)
  /\ Zone_get ExProps.N "k" = inl notAFunction.
Proof. repeat split; vm_compute; reflexivity. Qed.

End ZoneProperties.

(** ** Rescheduling into a descendant *)

Section Reschedule.

Variable zones : list Zone.
Variable fuel : nat.
Variable call : Code -> M Val.

Lemma onParentChain_chain (z : Zone) (target : nat) :
  onParentChain z target = true <-> target ∈ (zid <$> chain z).
Proof.
  induction z as [id nm props d | id p nm props d IH] using Zone_parent_ind;
    simpl; rewrite orb_true_iff, Nat.eqb_eq, elem_of_cons.
  - split; [intros [->|?]; [by left|discriminate] | intros [->|H]; [by left|]].
    inversion H.
  - rewrite IH. split; (intros [->|?]; [by left|by right]).
Qed.

Lemma rescheduleCheck_throws (this : Zone) (tk : ZoneTask) (w : World) :
  (exists e, rescheduleCheck zones this tk w = (Throw e, w))
  <-> properDescendant this (_zone tk).
Proof.
  unfold rescheduleCheck, properDescendant.
  destruct (_zone tk) as [tz|].
  - destruct (Nat.eqb tz (zid this)) eqn:He; simpl.
    + apply Nat.eqb_eq in He. split.
      * intros [e H]. discriminate.
      * intros (z & [= <-] & Hne & _). done.
    + apply Nat.eqb_neq in He.
      destruct (onParentChain this tz) eqn:Hc.
      * apply onParentChain_chain in Hc. split; [|eauto].
        intros _. exists tz. auto.
      * split; [intros [e H]; discriminate|].
        intros (z & [= <-] & _ & Hin).
        apply onParentChain_chain in Hin. congruence.
  - split; [intros [e H]; discriminate | intros (z & H & _); discriminate].
Qed.

Lemma rescheduleMsg_prefix (this : Zone) (tz : nat) :
  String.prefix "can not reschedule" (rescheduleMsg zones this tz) = true.
Proof. reflexivity. Qed.

(** C3: [scheduleTask] throws the "can not reschedule" error, before
    touching anything, exactly when the receiver is a proper descendant
    of [task.zone]; in every other case the guard passes and scheduling
    proceeds. *)
Theorem scheduleTask_rejects_iff_descendant
    (this : Zone) (task : nat) (tk : ZoneTask) (w : World)
    (Htask : tasks w !! task = Some tk) :
  ((exists e, rescheduleCheck zones this tk w = (Throw e, w))
   <-> properDescendant this (_zone tk))
  /\ (properDescendant this (_zone tk) ->
      exists tz msg,
        _zone tk = Some tz
        /\ msg = rescheduleMsg zones this tz
        /\ String.prefix "can not reschedule" msg = true
        /\ Zone_scheduleTask zones fuel call this task w
           = (Throw (EError msg), w))
  /\ (~ properDescendant this (_zone tk) ->
      Zone_scheduleTask zones fuel call this task w
      = scheduleTask_proceed zones fuel call this task w).
Proof.
  split; [apply rescheduleCheck_throws|].
  unfold Zone_scheduleTask, bind, getTask. rewrite Htask.
  split.
  - intros Hd. pose proof Hd as (tz & Hz & Hne & Hin).
    exists tz, (rescheduleMsg zones this tz).
    split; [done|]. split; [done|]. split; [apply rescheduleMsg_prefix|].
    unfold rescheduleCheck. rewrite Hz.
    apply Nat.eqb_neq in Hne. rewrite Hne.
    apply onParentChain_chain in Hin. rewrite Hin. reflexivity.
  - intros Hnd.
    destruct (rescheduleCheck zones this tk w) as [[[]|e|] w'] eqn:Hc.
    + unfold rescheduleCheck in Hc.
      destruct (_zone tk); [|by inversion Hc].
      destruct (_ && _); by inversion Hc.
    + exfalso. apply Hnd. apply (rescheduleCheck_throws this tk w).
      unfold rescheduleCheck in *.
      destruct (_zone tk); [|by inversion Hc].
      destruct (_ && _); inversion Hc; subst; eauto.
    + unfold rescheduleCheck in Hc.
      destruct (_zone tk); [|by inversion Hc].
      destruct (_ && _); by inversion Hc.
Qed.

End Reschedule.

(** ** The per-delegate task counters *)

Section TaskCount.

Variable call : Code -> M Val.

Lemma getCount_setCount c ty n : getCount (setCount c ty n) ty = n.
Proof. by destruct ty. Qed.

Lemma getCount_setCount_ne c ty ty' n :
  ty <> ty' -> getCount (setCount c ty n) ty' = getCount c ty'.
Proof. by destruct ty, ty'. Qed.

Lemma countsOf_stored d ty count w :
  countsOf (stored d ty count w) (zd_zone d)
  = setCount (countsOf w (zd_zone d)) ty
      (getCount (countsOf w (zd_zone d)) ty + count).
Proof. unfold countsOf at 1, stored. simpl. by rewrite lookup_insert_eq. Qed.

Lemma countsOf_stored_ne d ty count w d' :
  d' <> zd_zone d -> countsOf (stored d ty count w) d' = countsOf w d'.
Proof.
  intros Hne. unfold countsOf, stored. simpl.
  by rewrite lookup_insert_ne.
Qed.

(** How [_updateTaskCount] unfolds in its three cases. *)
Lemma updateTaskCount_cases (d : ZoneDelegate) (ty : TaskType) (count : Z)
    (w : World) :
  let prev := getCount (countsOf w (zd_zone d)) ty in
  let next := prev + count in
  ZoneDelegate__updateTaskCount call d ty count w
  = if next <? 0 then
      (Throw (EError "More tasks executed then were scheduled."),
       stored d ty count w)
    else if (prev =? 0) || (next =? 0) then
      ZoneDelegate_hasTask call d (zd_zone d)
        (snapshot (countsOf (stored d ty count w) (zd_zone d)) ty)
        (stored d ty count w)
    else (Ok tt, stored d ty count w).
Proof.
  simpl. unfold ZoneDelegate__updateTaskCount, bind, get_world, modify.
  fold (stored d ty count w).
  destruct (_ <? 0); [done|].
  destruct (_ || _); done.
Qed.

(** C4 (amended): a call whose updated count is not negative announces
    [hasTask] on the owning zone exactly when the previous or the new
    count is zero; the announcement carries the snapshot of the three
    updated counters and the changed type, and is made inside the call,
    before the hook runs and before the call returns.  A call whose
    updated count is negative throws and announces nothing. *)
Theorem updateTaskCount_hasTask_iff_boundary (d : ZoneDelegate)
    (ty : TaskType) (count : Z) (w : World) :
  let id := zd_zone d in
  let prev := getCount (countsOf w id) ty in
  let next := prev + count in
  let w1 := stored d ty count w in
  let st := {| hts_microTask := 0 <? getCount (countsOf w1 id) microTask;
               hts_macroTask := 0 <? getCount (countsOf w1 id) macroTask;
               hts_eventTask := 0 <? getCount (countsOf w1 id) eventTask;
               hts_change := ty |} in
  getCount (countsOf w1 id) ty = next
  /\ trace w1 = trace w
  /\ (0 <= next -> prev = 0 \/ next = 0 ->
      ZoneDelegate__updateTaskCount call d ty count w
      = hasTask_dispatch call d id st (add_event (EvHasTask id id st) w1))
  /\ (0 <= next -> prev <> 0 /\ next <> 0 ->
      ZoneDelegate__updateTaskCount call d ty count w = (Ok tt, w1))
  /\ (next < 0 ->
      ZoneDelegate__updateTaskCount call d ty count w
      = (Throw (EError "More tasks executed then were scheduled."), w1)).
Proof.
  intros id prev next w1 st.
  split; [unfold w1, id; rewrite countsOf_stored; apply getCount_setCount|].
  split; [done|].
  rewrite updateTaskCount_cases. fold id prev next w1.
  split; [|split].
  - intros Hnext Hb.
    destruct (Z.ltb_spec next 0) as [?|_]; [lia|].
    assert ((prev =? 0) || (next =? 0) = true) as ->.
    { apply orb_true_iff. destruct Hb; [left|right]; by apply Z.eqb_eq. }
    reflexivity.
  - intros Hnext [Hp Hn].
    destruct (Z.ltb_spec next 0) as [?|_]; [lia|].
    apply Z.eqb_neq in Hp, Hn. by rewrite Hp, Hn.
  - intros Hneg. destruct (Z.ltb_spec next 0) as [_|?]; [done|lia].
Qed.

(** C5 (amended): [_updateTaskCount] throws "More tasks executed then were
    scheduled." exactly when the updated count is below zero, and by then
    the negative count has been stored; when the updated count is not
    negative the stored count is not negative and the call does not stop
    at the check. *)
Theorem updateTaskCount_negative_is_fatal (d : ZoneDelegate)
    (ty : TaskType) (count : Z) (w : World) :
  let id := zd_zone d in
  let prev := getCount (countsOf w id) ty in
  let next := prev + count in
  let w1 := stored d ty count w in
  getCount (countsOf w1 id) ty = next
  /\ (forall ty', ty' <> ty ->
        getCount (countsOf w1 id) ty' = getCount (countsOf w id) ty')
  /\ (next < 0 ->
      ZoneDelegate__updateTaskCount call d ty count w
      = (Throw (EError "More tasks executed then were scheduled."), w1))
  /\ (0 <= next ->
      ZoneDelegate__updateTaskCount call d ty count w
      = if (prev =? 0) || (next =? 0)
        then ZoneDelegate_hasTask call d id
               (snapshot (countsOf w1 id) ty) w1
        else (Ok tt, w1)).
Proof.
  intros id prev next w1.
  split; [unfold w1, id; rewrite countsOf_stored; apply getCount_setCount|].
  split.
  { intros ty' Hne. unfold w1, id. rewrite countsOf_stored.
    by apply getCount_setCount_ne. }
  rewrite updateTaskCount_cases. fold id prev next w1.
  split; intros H.
  - destruct (Z.ltb_spec next 0) as [_|?]; [done|lia].
  - destruct (Z.ltb_spec next 0) as [?|_]; [lia|done].
Qed.

End TaskCount.

(** ** Equations of the monad *)

Section MonadLaws.

Context {A B : Type}.

Lemma bind_Ok (m : M A) (k : A -> M B) w a w' :
  m w = (Ok a, w') -> bind m k w = k a w'.
Proof. unfold bind. by intros ->. Qed.

Lemma bind_Throw (m : M A) (k : A -> M B) w e w' :
  m w = (Throw e, w') -> bind m k w = (Throw e, w').
Proof. unfold bind. by intros ->. Qed.

Lemma bind_Diverge (m : M A) (k : A -> M B) w w' :
  m w = (Diverge, w') -> bind m k w = (Diverge, w').
Proof. unfold bind. by intros ->. Qed.

Lemma try_catch_Ok (m : M A) h w a w' :
  m w = (Ok a, w') -> try_catch m h w = (Ok a, w').
Proof. unfold try_catch. by intros ->. Qed.

Lemma try_catch_Throw (m : M A) h w e w' :
  m w = (Throw e, w') -> try_catch m h w = h e w'.
Proof. unfold try_catch. by intros ->. Qed.

Lemma try_finally_Ok (m : M A) f w a w' w'' :
  m w = (Ok a, w') -> f w' = (Ok tt, w'') ->
  try_finally m f w = (Ok a, w'').
Proof. unfold try_finally. by intros -> ->. Qed.

Lemma try_finally_Throw (m : M A) f w e w' w'' :
  m w = (Throw e, w') -> f w' = (Ok tt, w'') ->
  try_finally m f w = (Throw e, w'').
Proof. unfold try_finally. by intros -> ->. Qed.

Lemma try_finally_unwind_Throw (m : M A) f w r w' e w'' :
  m w = (r, w') -> r <> Diverge -> f w' = (Throw e, w'') ->
  try_finally m f w = (Throw e, w'').
Proof. unfold try_finally. intros -> Hr ->. by destruct r. Qed.

End MonadLaws.

Lemma popFrame_Some w top :
  _currentZoneFrame w = Some top ->
  popFrame w = (Ok tt, set_frame (f_parent top) w).
Proof. unfold popFrame. by intros ->. Qed.

(** ** Equations of the task store *)

Section TaskStore.

Lemma getTask_Some t tk w :
  tasks w !! t = Some tk -> getTask t w = (Ok tk, w).
Proof. unfold getTask. by intros ->. Qed.

Lemma updTask_Some t f tk w :
  tasks w !! t = Some tk -> updTask t f w = (Ok tt, putTask t (f tk) w).
Proof.
  intros H. unfold updTask, modify, putTask, set_tasks. by rewrite H.
Qed.

Lemma tasks_putTask_eq t tk tk0 w :
  tasks w !! t = Some tk0 -> tasks (putTask t tk w) !! t = Some tk.
Proof.
  intros H. simpl. apply list_lookup_insert_eq. by eapply lookup_lt_Some.
Qed.

Lemma tasks_putTask_ne t t' tk w :
  t <> t' -> tasks (putTask t tk w) !! t' = tasks w !! t'.
Proof. intros H. simpl. by apply list_lookup_insert_ne. Qed.

Lemma putTask_putTask t a b w :
  putTask t a (putTask t b w) = putTask t a w.
Proof.
  unfold putTask, set_tasks. simpl. by rewrite list_insert_insert_eq.
Qed.

Lemma putTask_same t tk w :
  tasks w !! t = Some tk -> putTask t tk w = w.
Proof.
  intros H. unfold putTask, set_tasks. rewrite list_insert_id by done.
  by destruct w.
Qed.

Lemma transitionTo_Ok t tk to from1 from2 w :
  tasks w !! t = Some tk ->
  stateIs tk (Some from1) || stateIs tk from2 = true ->
  ZoneTask__transitionTo t to from1 from2 w
  = (Ok tt, putTask t (transitioned to tk) w).
Proof.
  intros Ht Hs. unfold ZoneTask__transitionTo.
  erewrite bind_Ok by (by apply getTask_Some).
  rewrite Hs. erewrite bind_Ok by (by apply updTask_Some).
  unfold transitioned. destruct (TaskState_eqb to notScheduled).
  - erewrite updTask_Some by (by eapply tasks_putTask_eq).
    by rewrite putTask_putTask.
  - done.
Qed.

Lemma transitionTo_Throw t tk to from1 from2 w :
  tasks w !! t = Some tk ->
  stateIs tk (Some from1) || stateIs tk from2 = false ->
  ZoneTask__transitionTo t to from1 from2 w
  = (Throw (EError (transitionMsg tk to from1 from2)), w).
Proof.
  intros Ht Hs. unfold ZoneTask__transitionTo.
  erewrite bind_Ok by (by apply getTask_Some).
  by rewrite Hs.
Qed.

Lemma TaskState_eqb_eq a b : TaskState_eqb a b = true <-> a = b.
Proof. destruct a, b; simpl; split; congruence. Qed.

Lemma TaskState_eqb_refl a : TaskState_eqb a a = true.
Proof. by destruct a. Qed.

Lemma runTask_enter_scheduled this task tk w :
  tasks w !! task = Some tk ->
  _state tk = scheduled ->
  runTask_enter this task true w
  = (Ok (_currentTask w), runTask_entered this task tk w).
Proof.
  intros Ht Hs. unfold runTask_enter.
  erewrite bind_Ok
    by (apply transitionTo_Ok; [done | by unfold stateIs; rewrite Hs]).
  erewrite bind_Ok
    by (eapply updTask_Some; by eapply tasks_putTask_eq).
  rewrite putTask_putTask. reflexivity.
Qed.

End TaskStore.

(** ** [runGuarded] *)

Section RunGuarded.

Variable call : Code -> M Val.

(** C6: [runGuarded] runs the callback through [ZoneDelegate.invoke]; a
    value is returned as it is; an error goes to [handleError], whose
    truthy result rethrows it and whose falsy result makes [runGuarded]
    return [undefined]; the top frame is popped in all three cases. *)
Theorem runGuarded_routes_errors (this : Zone) (cb : Code) (w : World) :
  let dlg := _zoneDelegate this in
  (forall v w2 top,
      ZoneDelegate_invoke call dlg (zid this) cb (entered this w) = (Ok v, w2) ->
      _currentZoneFrame w2 = Some top ->
      Zone_runGuarded call this cb w = (Ok v, set_frame (f_parent top) w2))
  /\ (forall e w2 h w3 top,
      ZoneDelegate_invoke call dlg (zid this) cb (entered this w)
        = (Throw e, w2) ->
      ZoneDelegate_handleError call dlg (zid this) e w2 = (Ok h, w3) ->
      _currentZoneFrame w3 = Some top ->
      Zone_runGuarded call this cb w
      = (if truthy h then Throw e else Ok VUndefined,
         set_frame (f_parent top) w3)).
Proof.
  intros dlg. split.
  - intros v w2 top Hinv Htop.
    unfold Zone_runGuarded, bind at 1, pushFrame, modify. fold (entered this w).
    eapply try_finally_Ok; [|by apply popFrame_Some].
    unfold runGuarded_body. by eapply try_catch_Ok.
  - intros e w2 h w3 top Hinv Hh Htop.
    unfold Zone_runGuarded, bind at 1, pushFrame, modify. fold (entered this w).
    destruct (truthy h) eqn:Ht.
    + eapply try_finally_Throw; [|by apply popFrame_Some].
      unfold runGuarded_body. erewrite try_catch_Throw by done.
      erewrite bind_Ok by done. by rewrite Ht.
    + eapply try_finally_Ok; [|by apply popFrame_Some].
      unfold runGuarded_body. erewrite try_catch_Throw by done.
      erewrite bind_Ok by done. by rewrite Ht.
Qed.

End RunGuarded.

(** ** The zone frame stack across [run], [runGuarded] and [runTask] *)

Section Frames.

Variable zones : list Zone.
Variable fuel : nat.
Variable call : Code -> M Val.

Lemma transitionTo_cases (t : nat) (to from1 : TaskState)
    (from2 : option TaskState) (w : World) :
  (exists e, ZoneTask__transitionTo t to from1 from2 w = (Throw e, w))
  \/ (exists ts, ZoneTask__transitionTo t to from1 from2 w
                 = (Ok tt, set_tasks (fun _ => ts) w)).
Proof.
  unfold ZoneTask__transitionTo, bind, getTask, updTask, modify, throw, ret.
  destruct (tasks w !! t) as [tk|] eqn:Ht; [|left; eauto].
  destruct (_ || _); [|left; eauto].
  right. destruct (TaskState_eqb to notScheduled); eexists; reflexivity.
Qed.

Lemma runTask_enter_Ok (this : Zone) (task : nat) (g : bool) w prev w1 :
  runTask_enter this task g w = (Ok prev, w1) ->
  prev = _currentTask w
  /\ _currentZoneFrame w1 = Some (mkFrame (_currentZoneFrame w) (zid this)).
Proof.
  unfold runTask_enter, bind at 1.
  assert (exists e, (if g then ZoneTask__transitionTo task running scheduled None
                     else ret tt) w = (Throw e, w)
          \/ exists ts, (if g then ZoneTask__transitionTo task running scheduled None
                         else ret tt) w = (Ok tt, set_tasks (fun _ => ts) w))
    as [e [H|[ts H]]].
  { destruct g.
    - destruct (transitionTo_cases task running scheduled None w)
        as [[e H]|[ts H]]; [exists e; by left|].
      exists (EVal VNull). right. eauto.
    - exists (EVal VNull). right. exists (tasks w). by destruct w. }
  - rewrite H. discriminate.
  - rewrite H. unfold bind, updTask, modify, get_world, pushFrame, ret. simpl.
    intros [= <- <-]. done.
Qed.

Lemma runTask_enter_Throw (this : Zone) (task : nat) (g : bool) w e w1 :
  runTask_enter this task g w = (Throw e, w1) -> w1 = w.
Proof.
  unfold runTask_enter, bind at 1. destruct g.
  - destruct (transitionTo_cases task running scheduled None w)
      as [[e' H]|[ts H]]; rewrite H; [by intros [= _ <-]|].
    unfold bind, updTask, modify, get_world, pushFrame, ret. simpl. discriminate.
  - unfold bind, updTask, modify, get_world, pushFrame, ret. simpl. discriminate.
Qed.

(** Where the frame pushed on entry is popped on exit: [run] and
    [runGuarded] pop it on a normal return and on a thrown error alike,
    and so does [runTask] as long as its unwind handler does not throw
    before it reaches the pop; an exit of [runTask] before its [try]
    changes nothing.  The last part is the path on which [runTask] misses
    the pop: the unwind handler throws while settling the task. *)
Theorem frame_stack_restored (this : Zone) (w : World) :
  (forall cb r w2,
      ZoneDelegate_invoke call (_zoneDelegate this) (zid this) cb
        (entered this w) = (r, w2) ->
      r <> Diverge ->
      _currentZoneFrame w2 = _currentZoneFrame (entered this w) ->
      exists w3, Zone_run call this cb w = (r, w3)
                 /\ _currentZoneFrame w3 = _currentZoneFrame w)
  /\ (forall cb r w2,
      runGuarded_body call this cb (entered this w) = (r, w2) ->
      r <> Diverge ->
      _currentZoneFrame w2 = _currentZoneFrame (entered this w) ->
      exists w3, Zone_runGuarded call this cb w = (r, w3)
                 /\ _currentZoneFrame w3 = _currentZoneFrame w)
  /\ (forall task tk g prev w1 r w2 w3,
      tasks w !! task = Some tk ->
      sameZone (_zone tk) this = true ->
      TaskState_eqb (_state tk) notScheduled
        && TaskType_eqb (type tk) eventTask = false ->
      g = negb (TaskState_eqb (_state tk) running) ->
      runTask_enter this task g w = (Ok prev, w1) ->
      runTask_body call this task w1 = (r, w2) ->
      r <> Diverge ->
      runTask_settle zones fuel call this task g w2 = (Ok tt, w3) ->
      _currentZoneFrame w3 = _currentZoneFrame w1 ->
      exists w4, Zone_runTask zones fuel call this task w = (r, w4)
                 /\ _currentZoneFrame w4 = _currentZoneFrame w
                 /\ _currentTask w4 = _currentTask w)
  /\ (forall task tk g e w1,
      tasks w !! task = Some tk ->
      g = negb (TaskState_eqb (_state tk) running) ->
      (sameZone (_zone tk) this = false
       \/ TaskState_eqb (_state tk) notScheduled
            && TaskType_eqb (type tk) eventTask = true
       \/ runTask_enter this task g w = (Throw e, w1)) ->
      snd (Zone_runTask zones fuel call this task w) = w)
  /\ (forall task tk g prev w1 r w2 e w3,
      tasks w !! task = Some tk ->
      sameZone (_zone tk) this = true ->
      TaskState_eqb (_state tk) notScheduled
        && TaskType_eqb (type tk) eventTask = false ->
      g = negb (TaskState_eqb (_state tk) running) ->
      runTask_enter this task g w = (Ok prev, w1) ->
      runTask_body call this task w1 = (r, w2) ->
      r <> Diverge ->
      runTask_settle zones fuel call this task g w2 = (Throw e, w3) ->
      Zone_runTask zones fuel call this task w = (Throw e, w3)).
Proof.
  split; [|split; [|split; [|split]]].
  - intros cb r w2 Hinv Hr Hf.
    exists (set_frame (_currentZoneFrame w) w2). split; [|done].
    unfold Zone_run, bind, pushFrame, modify. fold (entered this w).
    unfold try_finally. rewrite Hinv.
    rewrite (popFrame_Some w2 (mkFrame (_currentZoneFrame w) (zid this)))
      by (by rewrite Hf).
    by destruct r.
  - intros cb r w2 Hinv Hr Hf.
    exists (set_frame (_currentZoneFrame w) w2). split; [|done].
    unfold Zone_runGuarded, bind, pushFrame, modify. fold (entered this w).
    unfold try_finally. rewrite Hinv.
    rewrite (popFrame_Some w2 (mkFrame (_currentZoneFrame w) (zid this)))
      by (by rewrite Hf).
    by destruct r.
  - intros task tk g prev w1 r w2 w3 Htk Hz He Hg Henter Hbody Hr Hsettle Hf.
    destruct (runTask_enter_Ok _ _ _ _ _ _ Henter) as [-> Hf1].
    exists (set_currentTask (_currentTask w)
              (set_frame (_currentZoneFrame w) w3)).
    split; [|done].
    unfold Zone_runTask, bind at 1, getTask. rewrite Htk, Hz, He. simpl.
    rewrite <- Hg. erewrite bind_Ok by exact Henter.
    unfold try_finally. rewrite Hbody.
    unfold runTask_unwind. erewrite bind_Ok by exact Hsettle.
    erewrite bind_Ok
      by (apply (popFrame_Some w3 (mkFrame (_currentZoneFrame w) (zid this)));
          by rewrite Hf, Hf1).
    unfold modify. by destruct r.
  - intros task tk g e w1 Htk Hg Hcase.
    unfold Zone_runTask, bind at 1, getTask. rewrite Htk.
    destruct (sameZone (_zone tk) this); [|done]. simpl.
    destruct (_ && _); [done|].
    destruct Hcase as [?|[?|Henter]]; [done..|].
    rewrite <- Hg. erewrite bind_Throw by exact Henter.
    simpl. by eapply runTask_enter_Throw.
  - intros task tk g prev w1 r w2 e w3 Htk Hz He Hg Henter Hbody Hr Hsettle.
    unfold Zone_runTask, bind at 1, getTask. rewrite Htk, Hz, He. simpl.
    rewrite <- Hg. erewrite bind_Ok by exact Henter.
    eapply try_finally_unwind_Throw; [exact Hbody | exact Hr |].
    unfold runTask_unwind. by erewrite bind_Throw by exact Hsettle.
Qed.

(** C2 fails on the code for [runTask]: the callback of a one-shot
    macrotask cancels and reschedules the task; the unwind handler then
    throws on the illegal transition before it reaches the pop, and
    [runTask] exits with the frame of zone [A] left on the stack above
    the root frame, where [run] and [runGuarded] pop theirs on every
    exit. *)
Lemma runTask_leaves_frame_pushed :
  _currentZoneFrame Ex.wRescheduling = Some (mkFrame None 0)
  /\ fst (Zone_runTask Ex.zones 20 (exec Ex.zones 20) Ex.A 0 Ex.wRescheduling)
     = Throw (EError "macroTask 't': can not transition to 'notScheduled', expecting state 'running' or 'notScheduled', was 'scheduled'.")
  /\ _currentZoneFrame
       (snd (Zone_runTask Ex.zones 20 (exec Ex.zones 20) Ex.A 0
               Ex.wRescheduling))
     = Some (mkFrame (Some (mkFrame None 0)) 1).
Proof. vm_compute. done. Qed.

End Frames.

(** ** Running a task *)

Section RunTask.

Variable zones : list Zone.
Variable call : Code -> M Val.

Lemma sameZone_true tz this :
  sameZone tz this = true <-> tz = Some (zid this).
Proof.
  unfold sameZone. destruct tz as [z|]; [|split; discriminate].
  rewrite Nat.eqb_eq. split; congruence.
Qed.

(** [runTask] on a task in state [scheduled] runs the body in
    [runTask_entered] and then the unwind handler. *)
Lemma runTask_scheduled (n : nat) (this : Zone) (task : nat)
    (tk : ZoneTask) w :
  tasks w !! task = Some tk ->
  _zone tk = Some (zid this) ->
  _state tk = scheduled ->
  Zone_runTask zones n call this task w
  = try_finally (runTask_body call this task)
      (runTask_unwind zones n call this task true (_currentTask w))
      (runTask_entered this task tk w).
Proof.
  intros Ht Hz Hs. unfold Zone_runTask.
  erewrite bind_Ok by (by apply getTask_Some).
  apply sameZone_true in Hz. rewrite Hz, Hs. simpl.
  by erewrite bind_Ok by (by apply runTask_enter_scheduled).
Qed.

(** The unwind handler on a task that is still [running] and stays
    scheduled. *)
Lemma runTask_unwind_staysScheduled (n : nat) (this : Zone) (task : nat)
    (tk2 : ZoneTask) prev w2 top :
  tasks w2 !! task = Some tk2 ->
  _state tk2 = running ->
  staysScheduled tk2 = true ->
  _currentZoneFrame w2 = Some top ->
  runTask_unwind zones n call this task true prev w2
  = (Ok tt, set_currentTask prev
              (set_frame (f_parent top)
                 (putTask task (with_state scheduled tk2) w2))).
Proof.
  intros Ht Hs Hp Hf. unfold runTask_unwind, runTask_settle.
  erewrite bind_Ok; cycle 1.
  { erewrite bind_Ok by (by apply getTask_Some).
    rewrite Hs, Hp. simpl.
    apply transitionTo_Ok; [done | by unfold stateIs; rewrite Hs]. }
  erewrite bind_Ok by (by apply popFrame_Some).
  reflexivity.
Qed.

(** A run of a scheduled task that stays scheduled and whose callback
    leaves the task object alone. *)
Lemma runTask_periodic_quiet (n : nat) (this : Zone) (task : nat)
    (tk : ZoneTask) w r w2 :
  tasks w !! task = Some tk ->
  _zone tk = Some (zid this) ->
  _state tk = scheduled ->
  staysScheduled tk = true ->
  runTask_body call this task (runTask_entered this task tk w) = (r, w2) ->
  r <> Diverge ->
  tasks w2 !! task = tasks (runTask_entered this task tk w) !! task ->
  _currentZoneFrame w2 = _currentZoneFrame (runTask_entered this task tk w) ->
  exists w3 tk3,
    Zone_runTask zones n call this task w = (r, w3)
    /\ tasks w3 !! task = Some tk3
    /\ runCount tk3 = runCount tk + 1
    /\ _state tk3 = scheduled
    /\ _microTaskQueue w3 = _microTaskQueue w2.
Proof.
  intros Ht Hz Hs Hp Hbody Hr Htasks Hframe.
  set (tkR := with_runCount (runCount tk + 1) (with_state running tk)).
  assert (tasks w2 !! task = Some tkR) as Ht2.
  { rewrite Htasks. simpl. apply list_lookup_insert_eq.
    by eapply lookup_lt_Some. }
  eexists _, (with_state scheduled tkR).
  split.
  { rewrite (runTask_scheduled n this task tk w) by done.
    unfold try_finally. rewrite Hbody.
    erewrite runTask_unwind_staysScheduled; [|done|done|done|by rewrite Hframe].
    by destruct r. }
  split; [|done].
  simpl. apply list_lookup_insert_eq. by eapply lookup_lt_Some.
Qed.

(** On an empty queue the drain runs no task. *)
Lemma drain_empty n w :
  _microTaskQueue w = [] ->
  exists w', drainMicroTaskQueue zones (S n) call w = (Ok tt, w')
             /\ tasks w' = tasks w.
Proof.
  intros Hq. unfold drainMicroTaskQueue, bind at 1, get_world.
  destruct (_isDrainingMicrotaskQueue w); [by eexists|].
  eexists. split.
  - unfold bind at 1, modify. unfold bind at 1. simpl.
    unfold bind at 1, get_world. simpl. rewrite Hq. simpl.
    reflexivity.
  - done.
Qed.

Lemma drain_if_one_empty n w :
  _microTaskQueue w = [] ->
  exists w', (if _numberOfNestedTaskFrames w =? 1
              then drainMicroTaskQueue zones (S n) call else ret tt) w
             = (Ok tt, w')
             /\ tasks w' = tasks w.
Proof.
  intros Hq. destruct (_ =? 1); [by apply drain_empty | by eexists].
Qed.

(** C9 (amended): a scheduled event task or periodic task whose callback
    leaves the task's record and the zone-frame stack as it found them is
    [scheduled] again with [runCount] raised by 1 when [zone.runTask]
    returns.  Fired through its [invoke] thunk, it has [runCount] raised
    by 2 when [runTask] returns to the static [ZoneTask.invokeTask], once
    by the thunk and once by [runTask]; and it still has when the thunk
    returns: at once when the thunk was not the outermost task frame, and
    after the drain of the microtask queue when it was, provided the
    drain returns and leaves the task's record alone. *)
Theorem invokeTask_counts_run_twice (fuel : nat) (this : Zone)
    (task : nat) (tk : ZoneTask) (w : World)
    (Htask : tasks w !! task = Some tk)
    (Hzone : _zone tk = Some (zid this))
    (Hthis : zones !! zid this = Some this)
    (Hstate : _state tk = scheduled)
    (Hstay : staysScheduled tk = true) :
  (forall r w2,
      let w1 := runTask_entered this task tk w in
      runTask_body call this task w1 = (r, w2) ->
      r <> Diverge ->
      tasks w2 !! task = tasks w1 !! task ->
      _currentZoneFrame w2 = _currentZoneFrame w1 ->
      exists w3 tk3,
        Zone_runTask zones (S fuel) call this task w = (r, w3)
        /\ tasks w3 !! task = Some tk3
        /\ runCount tk3 = runCount tk + 1
        /\ _state tk3 = scheduled)
  /\ (forall r w2,
      let tki := with_runCount (runCount tk + 1) tk in
      let w1 := runTask_entered this task tki (invokeTask_entered task tk w) in
      runTask_body call this task w1 = (r, w2) ->
      r <> Diverge ->
      tasks w2 !! task = tasks w1 !! task ->
      _currentZoneFrame w2 = _currentZoneFrame w1 ->
      exists w3 tk3,
        runInOwnZone zones (S fuel) call task (invokeTask_entered task tk w)
        = (r, w3)
        /\ tasks w3 !! task = Some tk3
        /\ runCount tk3 = runCount tk + 2
        /\ _state tk3 = scheduled
        /\ (_numberOfNestedTaskFrames w3 <> 1 ->
            exists w5,
              ZoneTask_invokeTask zones (S fuel) call task w = (r, w5)
              /\ tasks w5 !! task = Some tk3)
        /\ (_numberOfNestedTaskFrames w3 = 1 ->
            forall w4,
              drainMicroTaskQueue zones (S fuel) call w3 = (Ok tt, w4) ->
              tasks w4 !! task = tasks w3 !! task ->
              exists w5,
                ZoneTask_invokeTask zones (S fuel) call task w = (r, w5)
                /\ tasks w5 !! task = Some tk3)).
Proof.
  split.
  - intros r w2 w1 Hbody Hr Htasks Hframe.
    destruct (runTask_periodic_quiet (S fuel) this task tk w r w2
                Htask Hzone Hstate Hstay Hbody Hr Htasks Hframe)
      as (w3 & tk3 & H & ? & ? & ? & _).
    by exists w3, tk3.
  - intros r w2 tki w1 Hbody Hr Htasks Hframe.
    set (wi := invokeTask_entered task tk w) in *.
    assert (tasks wi !! task = Some tki) as Hti
      by (by eapply tasks_putTask_eq).
    destruct (runTask_periodic_quiet (S fuel) this task tki wi r w2
                Hti Hzone Hstate Hstay Hbody Hr Htasks Hframe)
      as (w3 & tk3 & Hrun & Ht3 & Hc3 & Hs3 & _).
    assert (runInOwnZone zones (S fuel) call task wi = (r, w3)) as Hown.
    { unfold runInOwnZone.
      erewrite bind_Ok by (by apply getTask_Some).
      simpl. rewrite Hzone. unfold getZone. rewrite Hthis.
      exact Hrun. }
    exists w3, tk3.
    split; [exact Hown|]. split; [exact Ht3|].
    split; [simpl in Hc3; lia|]. split; [exact Hs3|].
    assert ((getTask task;;
             updTask task (fun tk => with_runCount (runCount tk + 1) tk);;
             runInOwnZone zones (S fuel) call task)
              (set_nested (_numberOfNestedTaskFrames w + 1) w) = (r, w3))
      as Hmain.
    { erewrite bind_Ok by (by apply getTask_Some).
      erewrite bind_Ok by (by apply updTask_Some).
      exact Hown. }
    assert (forall w4,
              (if _numberOfNestedTaskFrames w3 =? 1
               then drainMicroTaskQueue zones (S fuel) call else ret tt) w3
              = (Ok tt, w4) ->
              ZoneTask_invokeTask zones (S fuel) call task w
              = (r, set_nested (_numberOfNestedTaskFrames w4 - 1) w4))
      as Hfin.
    { intros w4 Hd.
      assert ((let* w := get_world in
               (if _numberOfNestedTaskFrames w =? 1
                then drainMicroTaskQueue zones (S fuel) call else ret tt);;
               modify (fun w =>
                         set_nested (_numberOfNestedTaskFrames w - 1) w)) w3
              = (Ok tt, set_nested (_numberOfNestedTaskFrames w4 - 1) w4))
        as Hf.
      { unfold bind at 1, get_world. by erewrite bind_Ok by exact Hd. }
      unfold ZoneTask_invokeTask, bind at 1, modify.
      destruct r as [v|e|].
      - by eapply try_finally_Ok.
      - by eapply try_finally_Throw.
      - done. }
    split.
    + intros Hne. apply Z.eqb_neq in Hne.
      eexists. split; [apply Hfin; by rewrite Hne|]. exact Ht3.
    + intros Hone w4 Hdrain Hsame.
      eexists. split; [apply Hfin; by rewrite Hone|].
      simpl. by rewrite Hsame.
Qed.

End RunTask.

(** ** Scheduling a task *)

Section Schedule.

Variable zones : list Zone.
Variable call : Code -> M Val.

Lemma scheduleTask_bind_notScheduled (this : Zone) (task : nat)
    (tk : ZoneTask) w :
  tasks w !! task = Some tk ->
  _state tk = notScheduled ->
  scheduleTask_bind this task w
  = (Ok (length (arrays w)), scheduleTask_bound this task tk w).
Proof.
  intros Ht Hs. unfold scheduleTask_bind.
  erewrite bind_Ok
    by (apply transitionTo_Ok; [done | by unfold stateIs; rewrite Hs]).
  unfold bind at 1, newArray.
  set (w' := set_arrays _ _).
  assert (tasks w' !! task = Some (transitioned scheduling tk)) as Ht'.
  { simpl. apply list_lookup_insert_eq. by eapply lookup_lt_Some. }
  erewrite bind_Ok by (by apply updTask_Some).
  erewrite bind_Ok by (eapply updTask_Some; by eapply tasks_putTask_eq).
  rewrite putTask_putTask. unfold ret. f_equal.
  unfold scheduleTask_bound, w', putTask, set_tasks, set_arrays. simpl.
  by rewrite list_insert_insert_eq.
Qed.


End Schedule.

(** ** Counting a task in and out *)

Section Counting.

Variable zones : list Zone.
Variable call : Code -> M Val.

Lemma set_trace_same w : set_trace (trace w) w = w.
Proof. by destruct w. Qed.

Lemma updateTaskCount_quiet (zn : Zone) (ty : TaskType) (count : Z)
    (ds : list nat) (w : World) :
  let d := zd_zone (_zoneDelegate zn) in
  d ∈ ds -> zones !! d = Some zn ->
  quietHasTask call zones ds ->
  0 <= getCount (countsOf w d) ty + count ->
  exists tr,
    ZoneDelegate__updateTaskCount call (_zoneDelegate zn) ty count w
    = (Ok tt, set_trace tr
                (set_taskCounts (fun _ => bump d ty count (taskCounts w)) w)).
Proof.
  intros d Hd Hz Hq Hnn.
  rewrite updateTaskCount_cases. fold d.
  destruct (Z.ltb_spec (getCount (countsOf w d) ty + count) 0); [lia|].
  destruct (_ || _).
  - destruct (Hq d zn (snapshot (countsOf (stored (_zoneDelegate zn) ty count w) d) ty)
                (stored (_zoneDelegate zn) ty count w) Hd Hz) as [tr Htr].
    exists tr. exact Htr.
  - exists (trace w). f_equal.
Qed.

Lemma updateLoop_quiet (n : nat) (a : nat) (ty : TaskType) (count : Z)
    (ds : list nat) :
  resolves zones ds ->
  quietHasTask call zones ds ->
  forall (i : nat) (w : World),
    arrays w !! a = Some (Some <$> ds) ->
    bumpable (drop i ds) ty count (taskCounts w) = true ->
    (length ds - i < n)%nat ->
    exists tr,
      updateLoop zones call n a ty count i w
      = (Ok tt, set_trace tr
                  (set_taskCounts
                     (fun _ => bumpAll (drop i ds) ty count (taskCounts w)) w)).
Proof.
  intros Hres Hq. induction n as [|n IH]; intros i w Ha Hb Hn; [lia|].
  simpl. unfold bind at 1, get_world. rewrite Ha.
  rewrite length_fmap.
  destruct (Nat.ltb_spec i (length ds)) as [Hi|Hi].
  - destruct (lookup_lt_is_Some_2 ds i Hi) as [d Hd].
    rewrite list_lookup_fmap, Hd. simpl.
    rewrite (drop_S _ _ _ Hd) in Hb |- *. simpl in Hb |- *.
    apply andb_true_iff in Hb as [Hnn Hb]. apply Z.leb_le in Hnn.
    assert (d ∈ ds) as Hin by (by eapply list_elem_of_lookup_2).
    destruct (Hres d Hin) as (zn & Hz & Hzd).
    unfold getDelegate, getZone. rewrite Hz.
    unfold bind at 1. unfold bind at 1. unfold ret at 1.
    unfold ret at 1.
    assert (zones !! zd_zone (_zoneDelegate zn) = Some zn) as Hz'
      by (by rewrite Hzd).
    destruct (updateTaskCount_quiet zn ty count ds w) as [tr Hu];
      [by rewrite Hzd|done|done|by rewrite Hzd|].
    rewrite Hzd in Hu.
    erewrite bind_Ok by exact Hu.
    destruct (IH (S i) (set_trace tr
                 (set_taskCounts (fun _ => bump d ty count (taskCounts w)) w)))
      as [tr' Hl]; [done|done|lia|].
    exists tr'. rewrite Hl. reflexivity.
  - rewrite drop_ge by lia. simpl.
    exists (trace w). unfold ret. f_equal. by destruct w.
Qed.

Lemma setCount_setCount c ty a b :
  setCount (setCount c ty a) ty b = setCount c ty b.
Proof. by destruct ty. Qed.

Lemma setCount_getCount c ty : setCount c ty (getCount c ty) = c.
Proof. by destruct ty, c. Qed.

(** Pointwise, [bumpAll] adds [count] once for each occurrence. *)
Lemma bumpAll_lookup (ds : list nat) (ty : TaskType) (count : Z)
    (m : gmap nat TaskCounts) (d : nat) :
  default zeroCounts (bumpAll ds ty count m !! d)
  = setCount (default zeroCounts (m !! d)) ty
      (getCount (default zeroCounts (m !! d)) ty
       + count * Z.of_nat (count_occ Nat.eq_dec ds d)).
Proof.
  revert m. induction ds as [|d0 ds IH]; intros m; simpl.
  - by rewrite Z.mul_0_r, Z.add_0_r, setCount_getCount.
  - rewrite IH. unfold bump. destruct (Nat.eq_dec d0 d) as [->|Hne].
    + rewrite lookup_insert_eq. simpl.
      rewrite getCount_setCount, setCount_setCount. f_equal. lia.
    + by rewrite lookup_insert_ne.
Qed.

(** Counting a task out undoes counting it in. *)
Lemma bumpAll_round_trip (ds : list nat) (ty : TaskType)
    (m : gmap nat TaskCounts) (d : nat) :
  default zeroCounts (bumpAll ds ty (-1) (bumpAll ds ty 1 m) !! d)
  = default zeroCounts (m !! d).
Proof.
  rewrite !bumpAll_lookup, getCount_setCount, setCount_setCount.
  rewrite <- (setCount_getCount (default zeroCounts (m !! d)) ty) at 3.
  f_equal. lia.
Qed.

Lemma Zone__updateTaskCount_quiet (n : nat) (this : Zone) (task : nat)
    (tk : ZoneTask) (count : Z) (a : nat) (ds : list nat) (w : World) :
  tasks w !! task = Some tk ->
  _zoneDelegates tk = Some a ->
  arrays w !! a = Some (Some <$> ds) ->
  resolves zones ds ->
  quietHasTask call zones ds ->
  bumpable ds (type tk) count (taskCounts w) = true ->
  (length ds < n)%nat ->
  exists tr,
    Zone__updateTaskCount zones n call this task count w
    = (Ok tt,
       set_trace tr
         (set_taskCounts
            (fun _ => bumpAll ds (type tk) count (taskCounts w))
            (if count =? -1
             then putTask task (with_zoneDelegates None tk) w else w))).
Proof.
  intros Ht Hzd Ha Hres Hq Hb Hn. unfold Zone__updateTaskCount.
  erewrite bind_Ok by (by apply getTask_Some).
  rewrite Hzd.
  set (w' := if count =? -1
             then putTask task (with_zoneDelegates None tk) w else w).
  assert ((if count =? -1 then updTask task (with_zoneDelegates None)
           else ret tt) w = (Ok tt, w')) as Hstep.
  { unfold w'. destruct (count =? -1); [by apply updTask_Some|done]. }
  erewrite bind_Ok by exact Hstep.
  assert (arrays w' = arrays w /\ taskCounts w' = taskCounts w) as [Ha' Hc'].
  { unfold w'. by destruct (count =? -1). }
  destruct (updateLoop_quiet n a (type tk) count ds Hres Hq 0%nat w')
    as [tr Hl]; [by rewrite Ha'|by rewrite Hc'|lia|].
  exists tr. rewrite Hl, Hc'. reflexivity.
Qed.

Lemma bump_lookup (d0 d : nat) (ty : TaskType) (count : Z)
    (m : gmap nat TaskCounts) :
  getCount (default zeroCounts (bump d0 ty count m !! d)) ty
  = getCount (default zeroCounts (m !! d)) ty
    + (if Nat.eq_dec d0 d then count else 0).
Proof.
  unfold bump. destruct (Nat.eq_dec d0 d) as [->|Hne].
  - rewrite lookup_insert_eq. simpl. by rewrite getCount_setCount.
  - rewrite lookup_insert_ne by done. lia.
Qed.

Lemma bumpable_inc (ds : list nat) (ty : TaskType) :
  forall m,
    (forall d, 0 <= getCount (default zeroCounts (m !! d)) ty) ->
    bumpable ds ty 1 m = true.
Proof.
  induction ds as [|d0 ds IH]; intros m Hm; simpl; [done|].
  apply andb_true_iff. split.
  - apply Z.leb_le. specialize (Hm d0). lia.
  - apply IH. intros d. rewrite bump_lookup. specialize (Hm d).
    destruct (Nat.eq_dec d0 d); lia.
Qed.

Lemma bumpable_dec (ds : list nat) (ty : TaskType) :
  forall m,
    (forall d, Z.of_nat (count_occ Nat.eq_dec ds d)
               <= getCount (default zeroCounts (m !! d)) ty) ->
    bumpable ds ty (-1) m = true.
Proof.
  induction ds as [|d0 ds IH]; intros m Hm; simpl; [done|].
  apply andb_true_iff. split.
  - apply Z.leb_le. specialize (Hm d0). simpl in Hm.
    destruct (Nat.eq_dec d0 d0); [lia|done].
  - apply IH. intros d. rewrite bump_lookup. specialize (Hm d).
    simpl in Hm. destruct (Nat.eq_dec d0 d); lia.
Qed.

(** The last step of [scheduleTask] on the task it was given, still
    [scheduling] and still bound to its array: count it in, then move it
    to [scheduled]. *)
Lemma scheduleTask_finish_counts (n : nat) (this : Zone) (task : nat)
    (tkS : ZoneTask) (a : nat) (ds : list nat) (ws : World) :
  tasks ws !! task = Some tkS ->
  _zoneDelegates tkS = Some a ->
  _state tkS = scheduling ->
  arrays ws !! a = Some (Some <$> ds) ->
  resolves zones ds ->
  quietHasTask call zones ds ->
  bumpable ds (type tkS) 1 (taskCounts ws) = true ->
  (length ds < n)%nat ->
  exists tr,
    scheduleTask_finish zones n call this a (VTask task) ws
    = (Ok (VTask task),
       putTask task (with_state scheduled tkS)
         (set_trace tr
            (set_taskCounts
               (fun _ => bumpAll ds (type tkS) 1 (taskCounts ws)) ws))).
Proof.
  intros Ht Hzd Hs Ha Hres Hq Hb Hn.
  destruct (Zone__updateTaskCount_quiet n this task tkS 1 a ds ws)
    as [tr Hu]; [done..|].
  simpl in Hu. exists tr.
  unfold scheduleTask_finish, bind at 1.
  unfold bind at 1, get_world. rewrite Ht, Hzd. simpl.
  rewrite Nat.eqb_refl.
  erewrite bind_Ok by exact Hu.
  unfold bind at 1, get_world. simpl. rewrite Ht, Hs. simpl.
  erewrite transitionTo_Ok;
    [reflexivity | exact Ht | by unfold stateIs; rewrite Hs].
Qed.

End Counting.

(** ** What [runTask] leaves behind *)

Section RunTaskSettles.

Variable zones : list Zone.
Variable call : Code -> M Val.

(** The unwind handler on a one-shot task that is still [running]. *)
Lemma runTask_unwind_oneShot (n : nat) (this : Zone) (task : nat)
    (tk2 : ZoneTask) (a : nat) (ds : list nat) prev w2 top :
  tasks w2 !! task = Some tk2 ->
  _state tk2 = running ->
  staysScheduled tk2 = false ->
  _currentZoneFrame w2 = Some top ->
  _zoneDelegates tk2 = Some a ->
  arrays w2 !! a = Some (Some <$> ds) ->
  resolves zones ds ->
  quietHasTask call zones ds ->
  bumpable ds (type tk2) (-1) (taskCounts w2) = true ->
  (length ds < n)%nat ->
  exists w3,
    runTask_unwind zones n call this task true prev w2 = (Ok tt, w3)
    /\ tasks w3 !! task
       = Some (with_zoneDelegates None
                 (with_state notScheduled (with_runCount 0 tk2)))
    /\ taskCounts w3 = bumpAll ds (type tk2) (-1) (taskCounts w2)
    /\ _currentZoneFrame w3 = f_parent top
    /\ _currentTask w3 = prev.
Proof.
  intros Ht Hs Hp Hf Hzd Ha Hres Hq Hb Hn.
  set (tkA := with_runCount 0 tk2).
  set (wA := putTask task tkA w2).
  assert (tasks wA !! task = Some tkA) as HtA by (by eapply tasks_putTask_eq).
  destruct (Zone__updateTaskCount_quiet zones call n this task tkA (-1) a ds wA)
    as [tr Hu]; [done..|].
  simpl in Hu.
  set (wB := set_trace tr _) in Hu.
  assert (tasks wB !! task = Some (with_zoneDelegates None tkA)) as HtB.
  { unfold wB. simpl. rewrite list_insert_insert_eq.
    apply list_lookup_insert_eq. by eapply lookup_lt_Some. }
  eexists. split; [|split; [|split; [|split]]].
  - unfold runTask_unwind, runTask_settle.
    erewrite bind_Ok; cycle 1.
    { erewrite bind_Ok by (by apply getTask_Some).
      rewrite Hs, Hp. simpl.
      erewrite bind_Ok by (by apply updTask_Some).
      fold tkA. fold wA.
      erewrite bind_Ok by exact Hu.
      apply transitionTo_Ok; [exact HtB | by unfold stateIs; simpl; rewrite Hs]. }
    erewrite bind_Ok by (apply popFrame_Some; exact Hf).
    reflexivity.
  - simpl. rewrite !list_insert_insert_eq.
    apply list_lookup_insert_eq. by eapply lookup_lt_Some.
  - done.
  - done.
  - done.
Qed.

(** What [runTask] does to a task it found [scheduled] and whose callback
    left it [running]. *)
Lemma runTask_settles_running (n : nat) (this : Zone) (task : nat)
    (tk tk2 : ZoneTask) (r : Res Val) (w w2 : World) :
  tasks w !! task = Some tk ->
  _zone tk = Some (zid this) ->
  _state tk = scheduled ->
  runTask_body call this task (runTask_entered this task tk w) = (r, w2) ->
  r <> Diverge ->
  tasks w2 !! task = Some tk2 ->
  _state tk2 = running ->
  _currentZoneFrame w2 = _currentZoneFrame (runTask_entered this task tk w) ->
  (staysScheduled tk2 = true ->
   exists w3,
     Zone_runTask zones n call this task w = (r, w3)
     /\ tasks w3 !! task = Some (with_state scheduled tk2)
     /\ taskCounts w3 = taskCounts w2
     /\ (runCount tk2 = runCount tk + 1 -> 0 <= runCount tk ->
         1 <= runCount (with_state scheduled tk2)))
  /\ (staysScheduled tk2 = false ->
      forall a ds,
        _zoneDelegates tk2 = Some a ->
        arrays w2 !! a = Some (Some <$> ds) ->
        resolves zones ds ->
        quietHasTask call zones ds ->
        bumpable ds (type tk2) (-1) (taskCounts w2) = true ->
        (length ds < n)%nat ->
        exists w3 tk3,
          Zone_runTask zones n call this task w = (r, w3)
          /\ tasks w3 !! task = Some tk3
          /\ _state tk3 = notScheduled
          /\ runCount tk3 = 0
          /\ _zoneDelegates tk3 = None
          /\ taskCounts w3 = bumpAll ds (type tk2) (-1) (taskCounts w2)
          /\ forall d,
               getCount (countsOf w3 d) (type tk2)
               = getCount (countsOf w2 d) (type tk2)
                 - Z.of_nat (count_occ Nat.eq_dec ds d)).
Proof.
  intros Htask Hzone Hstate Hbody Hr Htask2 Hstate2 Hframe.
  assert (_currentZoneFrame w2
          = Some (mkFrame (_currentZoneFrame w) (zid this))) as Hf
    by (by rewrite Hframe).
  split.
  - intros Hp. eexists. split; [|split; [|split]].
    + rewrite (runTask_scheduled zones call n this task tk w) by done.
      unfold try_finally. rewrite Hbody.
      erewrite runTask_unwind_staysScheduled by done.
      by destruct r.
    + simpl. apply list_lookup_insert_eq. by eapply lookup_lt_Some.
    + done.
    + simpl. lia.
  - intros Hp a ds Hzd Ha Hres Hq Hb Hn.
    destruct (runTask_unwind_oneShot n this task tk2 a ds (_currentTask w)
                w2 _ Htask2 Hstate2 Hp Hf Hzd Ha Hres Hq Hb Hn)
      as (w3 & Hu & Ht3 & Hc3 & _).
    exists w3. eexists. split; [|split; [exact Ht3|]].
    + rewrite (runTask_scheduled zones call n this task tk w) by done.
      unfold try_finally. rewrite Hbody, Hu. by destruct r.
    + split; [done|]. split; [done|]. split; [done|]. split; [done|].
      intros d. unfold countsOf. rewrite Hc3, bumpAll_lookup.
      rewrite getCount_setCount. lia.
Qed.

(** Scheduling a one-shot task and then running it: the task ends
    [notScheduled] with [runCount = 0], and every counter is back at the
    value it had before the task was counted in. *)
Lemma schedule_then_run (n : nat) (this : Zone) (task : nat)
    (tk tkS : ZoneTask) (ds : list nat) (w ws : World) :
  tasks w !! task = Some tk ->
  _state tk = notScheduled ->
  rescheduleCheck zones this tk w = (Ok tt, w) ->
  scheduleTask_dispatch call this task (scheduleTask_bound this task tk w)
  = (Ok (VTask task), ws) ->
  tasks ws !! task = Some tkS ->
  _state tkS = scheduling ->
  _zone tkS = Some (zid this) ->
  _zoneDelegates tkS = Some (length (arrays w)) ->
  staysScheduled tkS = false ->
  arrays ws !! length (arrays w) = Some (Some <$> ds) ->
  resolves zones ds ->
  quietHasTask call zones ds ->
  (length ds < n)%nat ->
  (forall d, 0 <= getCount (countsOf ws d) (type tkS)) ->
  exists wS,
    Zone_scheduleTask zones n call this task w = (Ok (VTask task), wS)
    /\ tasks wS !! task = Some (with_state scheduled tkS)
    /\ (forall d,
          getCount (countsOf wS d) (type tkS)
          = getCount (countsOf ws d) (type tkS)
            + Z.of_nat (count_occ Nat.eq_dec ds d))
    /\ forall r w2,
         let w1 := runTask_entered this task (with_state scheduled tkS) wS in
         runTask_body call this task w1 = (r, w2) ->
         r <> Diverge ->
         tasks w2 !! task = tasks w1 !! task ->
         arrays w2 = arrays w1 ->
         taskCounts w2 = taskCounts w1 ->
         _currentZoneFrame w2 = _currentZoneFrame w1 ->
         exists w3 tk3,
           Zone_runTask zones n call this task wS = (r, w3)
           /\ tasks w3 !! task = Some tk3
           /\ _state tk3 = notScheduled
           /\ runCount tk3 = 0
           /\ forall d, countsOf w3 d = countsOf ws d.
Proof.
  intros Htask Hstate Hguard Hdisp HtS HsS HzS HaS Hone Harr Hres Hq Hn Hnn.
  destruct (scheduleTask_finish_counts zones call n this task tkS
              (length (arrays w)) ds ws HtS HaS HsS Harr Hres Hq)
    as [tr Hfin]; [by apply bumpable_inc | done |].
  set (wS := putTask task (with_state scheduled tkS) _) in Hfin.
  assert (tasks wS !! task = Some (with_state scheduled tkS)) as HtwS.
  { unfold wS. simpl. apply list_lookup_insert_eq. by eapply lookup_lt_Some. }
  assert (forall d, default zeroCounts (taskCounts wS !! d)
                    = default zeroCounts
                        (bumpAll ds (type tkS) 1 (taskCounts ws) !! d))
    as HcS by done.
  exists wS. split; [|split; [exact HtwS|split]].
  - unfold Zone_scheduleTask.
    erewrite bind_Ok by (by apply getTask_Some).
    erewrite bind_Ok by exact Hguard.
    unfold scheduleTask_proceed.
    erewrite bind_Ok by (by apply scheduleTask_bind_notScheduled).
    erewrite bind_Ok by exact Hdisp.
    exact Hfin.
  - intros d. unfold countsOf. rewrite HcS, bumpAll_lookup.
    rewrite getCount_setCount. lia.
  - intros r w2 w1 Hbody Hr Htasks Harrs Hcounts Hframe.
    set (tk2 := with_runCount (runCount (with_state scheduled tkS) + 1)
                  (with_state running (with_state scheduled tkS))).
    assert (tasks w2 !! task = Some tk2) as Ht2.
    { rewrite Htasks. unfold w1. simpl.
      apply list_lookup_insert_eq. eapply lookup_lt_Some.
      exact HtwS. }
    destruct (runTask_settles_running n this task (with_state scheduled tkS)
                tk2 r wS w2 HtwS HzS eq_refl Hbody Hr Ht2 eq_refl Hframe)
      as [_ Hsettle].
    destruct (Hsettle Hone (length (arrays w)) ds)
      as (w3 & tk3 & Hrun & Ht3 & Hs3 & Hc3 & _ & Hcounts3 & _).
    + exact HaS.
    + rewrite Harrs. unfold w1, wS. simpl. exact Harr.
    + exact Hres.
    + exact Hq.
    + apply bumpable_dec. intros d. rewrite Hcounts. unfold w1. simpl.
      change (taskCounts wS !! d)
        with (bumpAll ds (type tkS) 1 (taskCounts ws) !! d).
      rewrite bumpAll_lookup, getCount_setCount.
      specialize (Hnn d). unfold countsOf in Hnn. lia.
    + exact Hn.
    + exists w3, tk3. split; [exact Hrun|]. split; [exact Ht3|].
      split; [exact Hs3|]. split; [exact Hc3|].
      intros d. unfold countsOf. rewrite Hcounts3, Hcounts.
      unfold w1. simpl.
      change (taskCounts wS) with (bumpAll ds (type tkS) 1 (taskCounts ws)).
      apply bumpAll_round_trip.
Qed.

(** C1 (amended): for a task that [runTask] finds [scheduled] (not already
    running) and whose callback leaves it [running] and the zone-frame
    stack as it found it: an event task or periodic task goes back to
    [scheduled], with [runCount] and the counters as the callback left
    them, so [runCount >= 1] when the callback did not touch it; any
    other task, provided it still has its [zoneDelegates] list, no
    counter of its type would go below zero and the [hasTask]
    notifications return normally and only observe, gets [runCount = 0],
    is counted out once for each entry of the list, loses the list and
    becomes [notScheduled].  So, with such notifications, scheduling a
    one-shot task with success while no counter of its type is negative
    and then running it, with a callback that leaves the task, the lists,
    the counters and the frame stack alone, leaves the task
    [notScheduled] with [runCount = 0] and every counter where it was. *)
Theorem runTask_settles_task (n : nat) (this : Zone) (task : nat) :
  (forall (tk tk2 : ZoneTask) (r : Res Val) (w w2 : World),
      tasks w !! task = Some tk ->
      _zone tk = Some (zid this) ->
      _state tk = scheduled ->
      runTask_body call this task (runTask_entered this task tk w) = (r, w2) ->
      r <> Diverge ->
      tasks w2 !! task = Some tk2 ->
      _state tk2 = running ->
      _currentZoneFrame w2
      = _currentZoneFrame (runTask_entered this task tk w) ->
      (staysScheduled tk2 = true ->
       exists w3,
         Zone_runTask zones n call this task w = (r, w3)
         /\ tasks w3 !! task = Some (with_state scheduled tk2)
         /\ taskCounts w3 = taskCounts w2
         /\ (runCount tk2 = runCount tk + 1 -> 0 <= runCount tk ->
             1 <= runCount (with_state scheduled tk2)))
      /\ (staysScheduled tk2 = false ->
          forall a ds,
            _zoneDelegates tk2 = Some a ->
            arrays w2 !! a = Some (Some <$> ds) ->
            resolves zones ds ->
            quietHasTask call zones ds ->
            bumpable ds (type tk2) (-1) (taskCounts w2) = true ->
            (length ds < n)%nat ->
            exists w3 tk3,
              Zone_runTask zones n call this task w = (r, w3)
              /\ tasks w3 !! task = Some tk3
              /\ _state tk3 = notScheduled
              /\ runCount tk3 = 0
              /\ _zoneDelegates tk3 = None
              /\ taskCounts w3 = bumpAll ds (type tk2) (-1) (taskCounts w2)
              /\ forall d,
                   getCount (countsOf w3 d) (type tk2)
                   = getCount (countsOf w2 d) (type tk2)
                     - Z.of_nat (count_occ Nat.eq_dec ds d)))
  /\ (forall (tk tkS : ZoneTask) (ds : list nat) (w ws : World),
      tasks w !! task = Some tk ->
      _state tk = notScheduled ->
      rescheduleCheck zones this tk w = (Ok tt, w) ->
      scheduleTask_dispatch call this task (scheduleTask_bound this task tk w)
      = (Ok (VTask task), ws) ->
      tasks ws !! task = Some tkS ->
      _state tkS = scheduling ->
      _zone tkS = Some (zid this) ->
      _zoneDelegates tkS = Some (length (arrays w)) ->
      staysScheduled tkS = false ->
      arrays ws !! length (arrays w) = Some (Some <$> ds) ->
      resolves zones ds ->
      quietHasTask call zones ds ->
      (length ds < n)%nat ->
      (forall d, 0 <= getCount (countsOf ws d) (type tkS)) ->
      exists wS,
        Zone_scheduleTask zones n call this task w = (Ok (VTask task), wS)
        /\ tasks wS !! task = Some (with_state scheduled tkS)
        /\ (forall d,
              getCount (countsOf wS d) (type tkS)
              = getCount (countsOf ws d) (type tkS)
                + Z.of_nat (count_occ Nat.eq_dec ds d))
        /\ forall r w2,
             let w1 :=
               runTask_entered this task (with_state scheduled tkS) wS in
             runTask_body call this task w1 = (r, w2) ->
             r <> Diverge ->
             tasks w2 !! task = tasks w1 !! task ->
             arrays w2 = arrays w1 ->
             taskCounts w2 = taskCounts w1 ->
             _currentZoneFrame w2 = _currentZoneFrame w1 ->
             exists w3 tk3,
               Zone_runTask zones n call this task wS = (r, w3)
               /\ tasks w3 !! task = Some tk3
               /\ _state tk3 = notScheduled
               /\ runCount tk3 = 0
               /\ forall d, countsOf w3 d = countsOf ws d).
Proof.
  split.
  - intros. by eapply runTask_settles_running.
  - intros. by eapply schedule_then_run.
Qed.

End RunTaskSettles.

(** ** Relations kept by every operation

    A reflexive, transitive relation between states that each elementary
    state change respects is respected by every operation of the core and
    by every piece of user code. *)

Create HintDb pres.

Section Preserves.

Variable R : World -> World -> Prop.
Hypothesis R_refl : forall w, R w w.
Hypothesis R_trans : forall w1 w2 w3, R w1 w2 -> R w2 w3 -> R w1 w3.

Local Abbreviation pres := (preserves R).

Lemma pres_ret {A} (a : A) : pres (ret a).
Proof. intros w r w' [= _ <-]. apply R_refl. Qed.

Lemma pres_throw {A} e : pres (@throw A e).
Proof. intros w r w' [= _ <-]. apply R_refl. Qed.

Lemma pres_diverge {A} : pres (@diverge A).
Proof. intros w r w' [= _ <-]. apply R_refl. Qed.

Lemma pres_typeError {A} s : pres (@typeError A s).
Proof. apply pres_throw. Qed.

Lemma pres_get_world : pres get_world.
Proof. intros w r w' [= _ <-]. apply R_refl. Qed.

Lemma pres_bind {A B} (m : M A) (k : A -> M B) :
  pres m -> (forall a, pres (k a)) -> pres (bind m k).
Proof.
  intros Hm Hk w r w'. unfold bind.
  destruct (m w) as [[a|e|] w1] eqn:E; intros H.
  - eapply R_trans; [by eapply Hm | by eapply Hk].
  - injection H as _ <-. by eapply Hm.
  - injection H as _ <-. by eapply Hm.
Qed.

Lemma pres_try_catch {A} (m : M A) h :
  pres m -> (forall e, pres (h e)) -> pres (try_catch m h).
Proof.
  intros Hm Hh w r w'. unfold try_catch.
  destruct (m w) as [[a|e|] w1] eqn:E; intros H.
  - injection H as _ <-. by eapply Hm.
  - eapply R_trans; [by eapply Hm | by eapply Hh].
  - injection H as _ <-. by eapply Hm.
Qed.

Lemma pres_try_finally {A} (m : M A) f :
  pres m -> pres f -> pres (try_finally m f).
Proof.
  intros Hm Hf w r w'. unfold try_finally.
  destruct (m w) as [[a|e|] w1] eqn:E.
  - destruct (f w1) as [[[]|e'|] w2] eqn:F; intros [= _ <-];
      (eapply R_trans; [by eapply Hm | by eapply Hf]).
  - destruct (f w1) as [[[]|e'|] w2] eqn:F; intros [= _ <-];
      (eapply R_trans; [by eapply Hm | by eapply Hf]).
  - intros [= _ <-]. by eapply Hm.
Qed.

Lemma pres_modify (f : World -> World) :
  (forall w, R w (f w)) -> pres (modify f).
Proof. intros Hf w r w' [= _ <-]. apply Hf. Qed.

End Preserves.

Section PreservesOps.

Variable R : World -> World -> Prop.
Hypothesis R_refl : forall w, R w w.
Hypothesis R_trans : forall w1 w2 w3, R w1 w2 -> R w2 w3 -> R w1 w3.

(** The elementary state changes that user code can cause outside a
    drain of the microtask queue. *)
Hypothesis R_tasks : forall f w, R w (set_tasks f w).
Hypothesis R_arrays : forall f w, R w (set_arrays f w).
Hypothesis R_taskCounts : forall f w, R w (set_taskCounts f w).
Hypothesis R_frame : forall f w, R w (set_frame f w).
Hypothesis R_currentTask : forall t w, R w (set_currentTask t w).
Hypothesis R_nested : forall n w, R w (set_nested n w).
Hypothesis R_log : forall s w, R w (add_event (EvLog s) w).
Hypothesis R_hasTask : forall z t st w, R w (add_event (EvHasTask z t st) w).
Hypothesis R_enqueue : forall t, preserves R (scheduleMicroTask t).

Local Abbreviation pres := (preserves R).

Local Ltac pres_step :=
  first
    [ assumption
    | solve [eauto with pres]
    | apply (pres_ret R R_refl)
    | apply (pres_throw R R_refl)
    | apply (pres_diverge R R_refl)
    | apply (pres_typeError R R_refl)
    | apply (pres_get_world R R_refl)
    | apply (pres_bind R R_trans)
    | apply (pres_try_catch R R_trans)
    | apply (pres_try_finally R R_trans)
    | apply (pres_modify R); intro; cbv beta;
      first [ apply R_tasks | apply R_arrays | apply R_taskCounts
            | apply R_frame | apply R_currentTask | apply R_nested
            | apply R_log | apply R_hasTask ]
    | match goal with
      | |- preserves _ (match ?x with _ => _ end) => destruct x
      | |- preserves _ (if ?b then _ else _) => destruct b
      end
    | progress cbv zeta
    | intro ].

Local Ltac pres_auto := repeat pres_step.

Lemma pres_getTask t : pres (getTask t).
Proof.
  intros w r w'. unfold getTask.
  destruct (tasks w !! t); intros [= _ <-]; apply R_refl.
Qed.
#[local] Hint Resolve pres_getTask : pres.

Lemma pres_updTask t f : pres (updTask t f).
Proof. unfold updTask. pres_auto. Qed.
#[local] Hint Resolve pres_updTask : pres.

Lemma pres_transitionTo t to f1 f2 : pres (ZoneTask__transitionTo t to f1 f2).
Proof. unfold ZoneTask__transitionTo. pres_auto. Qed.
#[local] Hint Resolve pres_transitionTo : pres.

Lemma pres_cancelScheduleRequest t : pres (ZoneTask_cancelScheduleRequest t).
Proof. unfold ZoneTask_cancelScheduleRequest. pres_auto. Qed.
#[local] Hint Resolve pres_cancelScheduleRequest : pres.

Lemma pres_pushFrame z : pres (pushFrame z).
Proof. unfold pushFrame. pres_auto. Qed.
#[local] Hint Resolve pres_pushFrame : pres.

Lemma pres_popFrame : pres popFrame.
Proof.
  intros w r w'. unfold popFrame.
  destruct (_currentZoneFrame w); intros [= _ <-];
    [apply R_frame | apply R_refl].
Qed.
#[local] Hint Resolve pres_popFrame : pres.

Lemma pres_newArray : pres newArray.
Proof. intros w r w' [= _ <-]. apply R_arrays. Qed.
#[local] Hint Resolve pres_newArray : pres.

Lemma pres_allocTask tk : pres (allocTask tk).
Proof. intros w r w' [= _ <-]. apply R_tasks. Qed.
#[local] Hint Resolve pres_allocTask : pres.

Lemma pres_pushArray a x : pres (pushArray a x).
Proof. unfold pushArray. pres_auto. Qed.
#[local] Hint Resolve pres_pushArray : pres.

Lemma pres_emit_log s : pres (emit (EvLog s)).
Proof. unfold emit. pres_auto. Qed.
#[local] Hint Resolve pres_emit_log : pres.

Lemma pres_emit_hasTask z t st : pres (emit (EvHasTask z t st)).
Proof. unfold emit. pres_auto. Qed.
#[local] Hint Resolve pres_emit_hasTask : pres.

#[local] Hint Resolve R_enqueue : pres.

Section WithCall.

Variable zones : list Zone.
Variable call : Code -> M Val.
Hypothesis Hcall : forall c, pres (call c).

Lemma pres_getZone z : pres (getZone zones z).
Proof. unfold getZone. pres_auto. Qed.
#[local] Hint Resolve pres_getZone : pres.

Lemma pres_getDelegate d : pres (getDelegate zones d).
Proof. unfold getDelegate. pres_auto. Qed.
#[local] Hint Resolve pres_getDelegate : pres.

Lemma pres_invoke d tz cb : pres (ZoneDelegate_invoke call d tz cb).
Proof. unfold ZoneDelegate_invoke. pres_auto. Qed.
#[local] Hint Resolve pres_invoke : pres.

Lemma pres_handleError d tz e : pres (ZoneDelegate_handleError call d tz e).
Proof. unfold ZoneDelegate_handleError. pres_auto. Qed.
#[local] Hint Resolve pres_handleError : pres.

Lemma pres_dlg_scheduleTask d tz t : pres (ZoneDelegate_scheduleTask call d tz t).
Proof. unfold ZoneDelegate_scheduleTask. pres_auto. Qed.
#[local] Hint Resolve pres_dlg_scheduleTask : pres.

Lemma pres_dlg_invokeTask d tz t : pres (ZoneDelegate_invokeTask call d tz t).
Proof. unfold ZoneDelegate_invokeTask. pres_auto. Qed.
#[local] Hint Resolve pres_dlg_invokeTask : pres.

Lemma pres_dlg_cancelTask d tz t : pres (ZoneDelegate_cancelTask call d tz t).
Proof. unfold ZoneDelegate_cancelTask. pres_auto. Qed.
#[local] Hint Resolve pres_dlg_cancelTask : pres.

Lemma pres_hasTask d tz st : pres (ZoneDelegate_hasTask call d tz st).
Proof. unfold ZoneDelegate_hasTask, hasTask_dispatch. pres_auto. Qed.
#[local] Hint Resolve pres_hasTask : pres.

Lemma pres_dlg_updateTaskCount d ty count :
  pres (ZoneDelegate__updateTaskCount call d ty count).
Proof. unfold ZoneDelegate__updateTaskCount. pres_auto. Qed.
#[local] Hint Resolve pres_dlg_updateTaskCount : pres.

Lemma pres_updateLoop n a ty count i :
  pres (updateLoop zones call n a ty count i).
Proof.
  revert i. induction n as [|n IH]; intros i; simpl; pres_auto.
Qed.
#[local] Hint Resolve pres_updateLoop : pres.

Lemma pres_Zone_updateTaskCount n this t count :
  pres (Zone__updateTaskCount zones n call this t count).
Proof. unfold Zone__updateTaskCount. pres_auto. Qed.
#[local] Hint Resolve pres_Zone_updateTaskCount : pres.

Lemma pres_run this cb : pres (Zone_run call this cb).
Proof. unfold Zone_run. pres_auto. Qed.

Lemma pres_runGuarded this cb : pres (Zone_runGuarded call this cb).
Proof. unfold Zone_runGuarded, runGuarded_body. pres_auto. Qed.

Lemma pres_runTask n this t : pres (Zone_runTask zones n call this t).
Proof.
  unfold Zone_runTask, runTask_enter, runTask_body, runTask_unwind,
    runTask_settle.
  pres_auto.
Qed.
#[local] Hint Resolve pres_run pres_runGuarded pres_runTask : pres.

Lemma pres_scheduleTask n this t : pres (Zone_scheduleTask zones n call this t).
Proof.
  unfold Zone_scheduleTask, rescheduleCheck, scheduleTask_proceed,
    scheduleTask_bind, scheduleTask_dispatch, scheduleTask_finish.
  pres_auto.
Qed.

Lemma pres_cancelTask n this t : pres (Zone_cancelTask zones n call this t).
Proof. unfold Zone_cancelTask. pres_auto. Qed.

Lemma pres_runInOwnZone n t : pres (runInOwnZone zones n call t).
Proof. unfold runInOwnZone. pres_auto. Qed.
#[local] Hint Resolve pres_scheduleTask pres_cancelTask pres_runInOwnZone : pres.

End WithCall.

(** A drain of the queue is the one operation that takes tasks off it. *)
Hypothesis R_drain :
  forall zones n call,
    (forall c, pres (call c)) -> pres (drainMicroTaskQueue zones n call).

Lemma pres_ZoneTask_invokeTask zones n call t :
  (forall c, pres (call c)) -> pres (ZoneTask_invokeTask zones n call t).
Proof.
  intros Hcall. unfold ZoneTask_invokeTask.
  pose proof (pres_runInOwnZone zones call Hcall n t).
  pose proof (R_drain zones n call Hcall).
  pres_auto.
Qed.

(** User code respects the relation. *)
Lemma pres_exec zones n : forall c, pres (exec zones n c).
Proof.
  induction n as [|n IH]; intros c; simpl; [apply (pres_diverge R R_refl)|].
  pose proof (pres_getZone zones) as H1.
  pose proof (pres_getDelegate zones) as H2.
  destruct c;
    repeat first
      [ match goal with
        | |- preserves _ (exec _ _ _) => apply IH
        | |- preserves _ (getZone _ _) => apply H1
        | |- preserves _ (getDelegate _ _) => apply H2
        | |- preserves _ (ret _) => apply (pres_ret R R_refl)
        | |- preserves _ (throw _) => apply (pres_throw R R_refl)
        | |- preserves _ (bind _ _) => apply (pres_bind R R_trans); [|intro]
        | |- preserves _ (try_catch _ _) =>
            apply (pres_try_catch R R_trans); [|intro]
        | |- preserves _ (emit (EvLog _)) => apply pres_emit_log
        | |- preserves _ (allocTask _) => apply pres_allocTask
        | |- preserves _ (Zone_run _ _ _) => by apply pres_run
        | |- preserves _ (Zone_runGuarded _ _ _) => by apply pres_runGuarded
        | |- preserves _ (Zone_scheduleTask _ _ _ _ _) =>
            by apply pres_scheduleTask
        | |- preserves _ (Zone_runTask _ _ _ _ _) => by apply pres_runTask
        | |- preserves _ (Zone_cancelTask _ _ _ _ _) =>
            by apply pres_cancelTask
        | |- preserves _ (ZoneTask_invokeTask _ _ _ _) =>
            by apply pres_ZoneTask_invokeTask
        | |- preserves _ (ZoneTask_cancelScheduleRequest _) =>
            apply pres_cancelScheduleRequest
        | |- preserves _ (drainMicroTaskQueue _ _ _) => by apply R_drain
        | |- preserves _ (ZoneDelegate_invoke _ _ _ _) => by apply pres_invoke
        | |- preserves _ (ZoneDelegate_handleError _ _ _ _) =>
            by apply pres_handleError
        | |- preserves _ (ZoneDelegate_scheduleTask _ _ _ _) =>
            by apply pres_dlg_scheduleTask
        | |- preserves _ (ZoneDelegate_invokeTask _ _ _ _) =>
            by apply pres_dlg_invokeTask
        | |- preserves _ (ZoneDelegate_cancelTask _ _ _ _) =>
            by apply pres_dlg_cancelTask
        | |- preserves _ (ZoneDelegate_hasTask _ _ _ _) =>
            by apply pres_hasTask
        end ].
Qed.

End PreservesOps.

(** ** More fuel changes nothing

    An operation that comes to an end with some fuel gives the same
    outcome and the same state with any larger fuel. *)

Create HintDb ref.

Section Fuel.

Lemma refines_refl {A} (m : M A) : refines m m.
Proof. by intros w r w' H _. Qed.

Lemma refines_bind {A B} (m m' : M A) (k k' : A -> M B) :
  refines m m' -> (forall a, refines (k a) (k' a)) ->
  refines (bind m k) (bind m' k').
Proof.
  intros Hm Hk w r w'. unfold bind.
  destruct (m w) as [[a|e|] w1] eqn:E; intros H Hr.
  - rewrite (Hm _ _ _ E) by done. by apply Hk.
  - rewrite (Hm _ _ _ E) by done. done.
  - by injection H as <- <-.
Qed.

Lemma refines_try_catch {A} (m m' : M A) h h' :
  refines m m' -> (forall e, refines (h e) (h' e)) ->
  refines (try_catch m h) (try_catch m' h').
Proof.
  intros Hm Hh w r w'. unfold try_catch.
  destruct (m w) as [[a|e|] w1] eqn:E; intros H Hr.
  - rewrite (Hm _ _ _ E) by done. done.
  - rewrite (Hm _ _ _ E) by done. by apply Hh.
  - by injection H as <- <-.
Qed.

Lemma refines_try_finally {A} (m m' : M A) f f' :
  refines m m' -> refines f f' ->
  refines (try_finally m f) (try_finally m' f').
Proof.
  intros Hm Hf w r w'. unfold try_finally.
  destruct (m w) as [[a|e|] w1] eqn:E; intros H Hr.
  - rewrite (Hm _ _ _ E) by done.
    destruct (f w1) as [[[]|e'|] w2] eqn:F.
    + by rewrite (Hf _ _ _ F).
    + by rewrite (Hf _ _ _ F).
    + by injection H as <- <-.
  - rewrite (Hm _ _ _ E) by done.
    destruct (f w1) as [[[]|e'|] w2] eqn:F.
    + by rewrite (Hf _ _ _ F).
    + by rewrite (Hf _ _ _ F).
    + by injection H as <- <-.
  - by injection H as <- <-.
Qed.

Local Ltac ref_step :=
  first
    [ match goal with
      | |- refines ?m ?m => apply refines_refl
      | |- refines (bind _ _) (bind _ _) => apply refines_bind; [|intro]
      | |- refines (try_catch _ _) (try_catch _ _) =>
          apply refines_try_catch; [|intro]
      | |- refines (try_finally _ _) (try_finally _ _) =>
          apply refines_try_finally
      | |- refines (match ?x with _ => _ end) (match ?x with _ => _ end) =>
          destruct x
      | |- refines (if ?b then _ else _) (if ?b then _ else _) => destruct b
      end
    | solve [eauto 3 with ref]
    | progress cbv zeta ].

Local Ltac ref_auto := repeat ref_step.

Section WithCalls.

Variable zones : list Zone.
Variables call call' : Code -> M Val.
Hypothesis Hcall : forall c, refines (call c) (call' c).

Lemma ref_invoke d tz cb :
  refines (ZoneDelegate_invoke call d tz cb) (ZoneDelegate_invoke call' d tz cb).
Proof. unfold ZoneDelegate_invoke. ref_auto. Qed.

Lemma ref_handleError d tz e :
  refines (ZoneDelegate_handleError call d tz e)
          (ZoneDelegate_handleError call' d tz e).
Proof. unfold ZoneDelegate_handleError. ref_auto. Qed.
#[local] Hint Resolve ref_invoke ref_handleError : ref.

Lemma ref_dlg_scheduleTask d tz t :
  refines (ZoneDelegate_scheduleTask call d tz t)
          (ZoneDelegate_scheduleTask call' d tz t).
Proof. unfold ZoneDelegate_scheduleTask. ref_auto. Qed.

Lemma ref_dlg_invokeTask d tz t :
  refines (ZoneDelegate_invokeTask call d tz t)
          (ZoneDelegate_invokeTask call' d tz t).
Proof. unfold ZoneDelegate_invokeTask. ref_auto. Qed.

Lemma ref_dlg_cancelTask d tz t :
  refines (ZoneDelegate_cancelTask call d tz t)
          (ZoneDelegate_cancelTask call' d tz t).
Proof. unfold ZoneDelegate_cancelTask. ref_auto. Qed.

Lemma ref_hasTask d tz st :
  refines (ZoneDelegate_hasTask call d tz st)
          (ZoneDelegate_hasTask call' d tz st).
Proof. unfold ZoneDelegate_hasTask, hasTask_dispatch. ref_auto. Qed.
#[local] Hint Resolve ref_dlg_scheduleTask ref_dlg_invokeTask
  ref_dlg_cancelTask ref_hasTask : ref.

Lemma ref_dlg_updateTaskCount d ty count :
  refines (ZoneDelegate__updateTaskCount call d ty count)
          (ZoneDelegate__updateTaskCount call' d ty count).
Proof. unfold ZoneDelegate__updateTaskCount. ref_auto. Qed.
#[local] Hint Resolve ref_dlg_updateTaskCount : ref.

Lemma ref_updateLoop n a ty count :
  forall n' i, (n <= n')%nat ->
    refines (updateLoop zones call n a ty count i)
            (updateLoop zones call' n' a ty count i).
Proof.
  induction n as [|n IH]; intros n' i Hn.
  - intros w r w' [= <- <-] Hr. done.
  - destruct n' as [|n']; [lia|]. simpl.
    assert (forall i, refines (updateLoop zones call n a ty count i)
                        (updateLoop zones call' n' a ty count i)) as IH'
      by (intros; apply IH; lia).
    ref_auto.
Qed.

Section WithFuel.

Variables n n' : nat.
Hypothesis Hn : (n <= n')%nat.

Lemma ref_Zone_updateTaskCount this t count :
  refines (Zone__updateTaskCount zones n call this t count)
          (Zone__updateTaskCount zones n' call' this t count).
Proof.
  unfold Zone__updateTaskCount.
  pose proof (fun a ty i => ref_updateLoop n a ty count n' i Hn).
  ref_auto.
Qed.
#[local] Hint Resolve ref_Zone_updateTaskCount : ref.

Lemma ref_run this cb :
  refines (Zone_run call this cb) (Zone_run call' this cb).
Proof. unfold Zone_run. ref_auto. Qed.

Lemma ref_runGuarded this cb :
  refines (Zone_runGuarded call this cb) (Zone_runGuarded call' this cb).
Proof. unfold Zone_runGuarded, runGuarded_body. ref_auto. Qed.

Lemma ref_runTask this t :
  refines (Zone_runTask zones n call this t)
          (Zone_runTask zones n' call' this t).
Proof.
  unfold Zone_runTask, runTask_body, runTask_unwind, runTask_settle.
  ref_auto.
Qed.
#[local] Hint Resolve ref_run ref_runGuarded ref_runTask : ref.

Lemma ref_scheduleTask this t :
  refines (Zone_scheduleTask zones n call this t)
          (Zone_scheduleTask zones n' call' this t).
Proof.
  unfold Zone_scheduleTask, scheduleTask_proceed, scheduleTask_dispatch,
    scheduleTask_finish.
  ref_auto.
Qed.

Lemma ref_cancelTask this t :
  refines (Zone_cancelTask zones n call this t)
          (Zone_cancelTask zones n' call' this t).
Proof. unfold Zone_cancelTask. ref_auto. Qed.

Lemma ref_runInOwnZone t :
  refines (runInOwnZone zones n call t) (runInOwnZone zones n' call' t).
Proof. unfold runInOwnZone. ref_auto. Qed.
#[local] Hint Resolve ref_scheduleTask ref_cancelTask ref_runInOwnZone : ref.

Lemma ref_drainPass queue :
  refines (drainPass zones n call queue) (drainPass zones n' call' queue).
Proof.
  induction queue as [|task rest IH]; [apply refines_refl|].
  simpl. ref_auto.
Qed.
#[local] Hint Resolve ref_drainPass : ref.

Lemma ref_drainLoop k :
  forall k', (k <= k')%nat ->
    refines (drainLoop zones n call k) (drainLoop zones n' call' k').
Proof.
  induction k as [|k IH]; intros k' Hk.
  - intros w r w' [= <- <-] Hr. done.
  - destruct k' as [|k']; [lia|]. simpl.
    assert (refines (drainLoop zones n call k) (drainLoop zones n' call' k'))
      as IH' by (apply IH; lia).
    ref_auto.
Qed.

Lemma ref_drain :
  refines (drainMicroTaskQueue zones n call)
          (drainMicroTaskQueue zones n' call').
Proof.
  unfold drainMicroTaskQueue.
  pose proof (ref_drainLoop n n' Hn).
  ref_auto.
Qed.
#[local] Hint Resolve ref_drain : ref.

Lemma ref_ZoneTask_invokeTask t :
  refines (ZoneTask_invokeTask zones n call t)
          (ZoneTask_invokeTask zones n' call' t).
Proof. unfold ZoneTask_invokeTask. ref_auto. Qed.

End WithFuel.

End WithCalls.

(** User code: more fuel, same outcome. *)
Lemma exec_fuel_mono zones n :
  forall n' c, (n <= n')%nat -> refines (exec zones n c) (exec zones n' c).
Proof.
  induction n as [|n IH]; intros n' c Hn.
  - intros w r w' [= <- <-] Hr. done.
  - destruct n' as [|n']; [lia|].
    assert (forall c, refines (exec zones n c) (exec zones n' c)) as IH'
      by (intros; apply IH; lia).
    assert (n <= n')%nat as Hn' by lia.
    simpl. destruct c;
      repeat first
        [ match goal with
          | |- refines ?m ?m => apply refines_refl
          | |- refines (exec _ _ _) (exec _ _ _) => apply IH'
          | |- refines (bind _ _) (bind _ _) => apply refines_bind; [|intro]
          | |- refines (try_catch _ _) (try_catch _ _) =>
              apply refines_try_catch; [|intro]
          | |- refines (Zone_run _ _ _) _ => by apply ref_run
          | |- refines (Zone_runGuarded _ _ _) _ => by apply ref_runGuarded
          | |- refines (Zone_scheduleTask _ _ _ _ _) _ =>
              by apply ref_scheduleTask
          | |- refines (Zone_runTask _ _ _ _ _) _ => by apply ref_runTask
          | |- refines (Zone_cancelTask _ _ _ _ _) _ => by apply ref_cancelTask
          | |- refines (ZoneTask_invokeTask _ _ _ _) _ =>
              by apply ref_ZoneTask_invokeTask
          | |- refines (drainMicroTaskQueue _ _ _) _ => by apply ref_drain
          | |- refines (ZoneDelegate_invoke _ _ _ _) _ => by apply ref_invoke
          | |- refines (ZoneDelegate_handleError _ _ _ _) _ =>
              by apply ref_handleError
          | |- refines (ZoneDelegate_scheduleTask _ _ _ _) _ =>
              by apply ref_dlg_scheduleTask
          | |- refines (ZoneDelegate_invokeTask _ _ _ _) _ =>
              by apply ref_dlg_invokeTask
          | |- refines (ZoneDelegate_cancelTask _ _ _ _) _ =>
              by apply ref_dlg_cancelTask
          | |- refines (ZoneDelegate_hasTask _ _ _ _) _ =>
              by apply ref_hasTask
          end ].
Qed.

(** The drain: more fuel, same outcome. *)
Lemma drain_fuel_mono zones n m n' m' :
  (n <= n')%nat -> (m <= m')%nat ->
  refines (drainMicroTaskQueue zones n (exec zones m))
          (drainMicroTaskQueue zones n' (exec zones m')).
Proof.
  intros Hn Hm. apply ref_drain; [|done].
  intros c. by apply exec_fuel_mono.
Qed.

End Fuel.

(** ** Draining the microtask queue *)

Section Drain.

Lemma onlyEnqueues_refl w : onlyEnqueues w w.
Proof. intros H. split; [done|]. exists []. by rewrite !app_nil_r. Qed.

Lemma onlyEnqueues_trans w1 w2 w3 :
  onlyEnqueues w1 w2 -> onlyEnqueues w2 w3 -> onlyEnqueues w1 w3.
Proof.
  intros H12 H23 H1.
  destruct (H12 H1) as (H2 & n1 & Hq1 & He1 & Hd1).
  destruct (H23 H2) as (H3 & n2 & Hq2 & He2 & Hd2).
  split; [done|]. exists (n1 ++ n2).
  rewrite Hq2, Hq1, He2, He1, Hd2, Hd1, !app_assoc. done.
Qed.

Lemma onlyEnqueues_same w w' :
  _isDrainingMicrotaskQueue w' = _isDrainingMicrotaskQueue w ->
  _microTaskQueue w' = _microTaskQueue w ->
  enqueued (trace w') = enqueued (trace w) ->
  dequeued (trace w') = dequeued (trace w) ->
  onlyEnqueues w w'.
Proof.
  intros Hf Hq He Hd H. split; [congruence|].
  exists []. by rewrite Hq, He, Hd, !app_nil_r.
Qed.

Lemma enqueued_app tr1 tr2 :
  enqueued (tr1 ++ tr2) = enqueued tr1 ++ enqueued tr2.
Proof. apply omap_app. Qed.

Lemma dequeued_app tr1 tr2 :
  dequeued (tr1 ++ tr2) = dequeued tr1 ++ dequeued tr2.
Proof. apply omap_app. Qed.

Lemma onlyEnqueues_scheduleMicroTask t :
  preserves onlyEnqueues (scheduleMicroTask t).
Proof.
  intros w r w'. unfold scheduleMicroTask, bind, get_world, emit, modify.
  destruct (_ && _); simpl; intros [= _ <-]; intros H; (split; [done|]);
    exists [t]; simpl;
    rewrite ?enqueued_app, ?dequeued_app; simpl; by rewrite ?app_nil_r.
Qed.

Lemma onlyEnqueues_drain zones n call :
  preserves onlyEnqueues (drainMicroTaskQueue zones n call).
Proof.
  intros w r w'. unfold drainMicroTaskQueue, bind at 1, get_world.
  destruct (_isDrainingMicrotaskQueue w) eqn:Hf.
  - intros [= _ <-]. apply onlyEnqueues_refl.
  - intros _ H. congruence.
Qed.

(** User code run during a drain only pushes tasks at the end of the
    queue. *)
Lemma exec_onlyEnqueues zones n c :
  preserves onlyEnqueues (exec zones n c).
Proof.
  apply pres_exec;
    first [ apply onlyEnqueues_refl | apply onlyEnqueues_trans
          | apply onlyEnqueues_scheduleMicroTask
          | intros; apply onlyEnqueues_drain
          | intros; apply onlyEnqueues_same; simpl;
            rewrite ?enqueued_app, ?dequeued_app; simpl;
            by rewrite ?app_nil_r ].
Qed.

Lemma runInOwnZone_onlyEnqueues zones n m t :
  preserves onlyEnqueues (runInOwnZone zones n (exec zones m) t).
Proof.
  apply pres_runInOwnZone;
    first [ apply onlyEnqueues_refl | apply onlyEnqueues_trans
          | apply onlyEnqueues_scheduleMicroTask
          | intros; apply exec_onlyEnqueues
          | intros; apply onlyEnqueues_same; simpl;
            rewrite ?enqueued_app, ?dequeued_app; simpl;
            by rewrite ?app_nil_r ].
Qed.

(** One task of a pass: run it; an error goes to [onUnhandledError]. *)
Lemma drain_one zones n m task w r w' :
  _isDrainingMicrotaskQueue w = true ->
  try_catch (runInOwnZone zones n (exec zones m) task;; ret tt)
    onUnhandledError w = (r, w') ->
  r <> Diverge ->
  r = Ok tt
  /\ _isDrainingMicrotaskQueue w' = true
  /\ exists new,
       _microTaskQueue w' = _microTaskQueue w ++ new
       /\ enqueued (trace w') = enqueued (trace w) ++ new
       /\ dequeued (trace w') = dequeued (trace w).
Proof.
  intros Hf. unfold try_catch, bind.
  destruct (runInOwnZone zones n (exec zones m) task w) as [[v|e|] w1] eqn:E;
    pose proof (runInOwnZone_onlyEnqueues zones n m task w _ _ E Hf)
      as (Hf1 & new & Hq & He & Hd).
  - intros [= <- <-] _. eauto 10.
  - unfold onUnhandledError, emit, modify. intros [= <- <-] _.
    split; [done|]. split; [done|]. exists new. simpl.
    rewrite enqueued_app, dequeued_app. simpl.
    by rewrite !app_nil_r.
  - intros [= <- <-] Hr. done.
Qed.

Lemma drainPass_cons zones n call task rest w :
  drainPass zones n call (task :: rest) w
  = (try_catch (runInOwnZone zones n call task;; ret tt) onUnhandledError;;
     drainPass zones n call rest) (add_event (EvDequeue task) w).
Proof. reflexivity. Qed.

Lemma drainLoop_S zones n call k w :
  drainLoop zones n call (S k) w
  = match _microTaskQueue w with
    | [] => (Ok tt, w)
    | queue => (drainPass zones n call queue;; drainLoop zones n call k)
                 (set_queue [] w)
    end.
Proof. simpl. unfold bind at 1, get_world. by destruct (_microTaskQueue w). Qed.

(** One pass over the swapped-out array. *)
Lemma drainPass_fifo zones n m (queue : list nat) :
  forall w r w',
    _isDrainingMicrotaskQueue w = true ->
    drainPass zones n (exec zones m) queue w = (r, w') ->
    r <> Diverge ->
    r = Ok tt
    /\ _isDrainingMicrotaskQueue w' = true
    /\ exists new,
         _microTaskQueue w' = _microTaskQueue w ++ new
         /\ enqueued (trace w') = enqueued (trace w) ++ new
         /\ dequeued (trace w') = dequeued (trace w) ++ queue.
Proof.
  induction queue as [|task rest IH]; intros w r w' Hf.
  - intros [= <- <-] _. split; [done|]. split; [done|].
    exists []. by rewrite !app_nil_r.
  - rewrite drainPass_cons.
    set (wA := add_event (EvDequeue task) w).
    unfold bind at 1.
    destruct (try_catch _ _ wA) as [r1 w1] eqn:E1.
    destruct r1 as [[]|e|].
    + intros Hrest Hr.
      destruct (drain_one zones n m task wA _ _ Hf E1)
        as (_ & Hf1 & n1 & Hq1 & He1 & Hd1); [done|].
      destruct (IH w1 r w' Hf1 Hrest Hr) as (-> & Hf2 & n2 & Hq2 & He2 & Hd2).
      split; [done|]. split; [done|]. exists (n1 ++ n2).
      rewrite Hq2, Hq1, He2, He1, Hd2, Hd1. simpl.
      rewrite enqueued_app, dequeued_app. simpl.
      rewrite !app_nil_r, <- !app_assoc. done.
    + intros _ _.
      by destruct (drain_one zones n m task wA _ _ Hf E1) as (? & _).
    + intros [= <- <-] Hr. done.
Qed.

(** The outer loop: pass after pass until the queue is empty. *)
Lemma drainLoop_fifo zones n m (k : nat) :
  forall w r w',
    _isDrainingMicrotaskQueue w = true ->
    drainLoop zones n (exec zones m) k w = (r, w') ->
    r <> Diverge ->
    r = Ok tt
    /\ _isDrainingMicrotaskQueue w' = true
    /\ _microTaskQueue w' = []
    /\ exists new,
         enqueued (trace w') = enqueued (trace w) ++ new
         /\ dequeued (trace w')
            = dequeued (trace w) ++ _microTaskQueue w ++ new.
Proof.
  induction k as [|k IH]; intros w r w' Hf.
  - intros [= <- <-] Hr. done.
  - rewrite drainLoop_S.
    destruct (_microTaskQueue w) as [|t q] eqn:Hq.
    + intros [= <- <-] _. split; [done|]. split; [done|]. split; [done|].
      exists []. by rewrite !app_nil_r.
    + set (wA := set_queue [] w).
      unfold bind at 1.
      destruct (drainPass zones n (exec zones m) (t :: q) wA)
        as [r1 w1] eqn:E1.
      destruct r1 as [[]|e|].
      * intros Hloop Hr.
        destruct (drainPass_fifo zones n m (t :: q) wA _ _ Hf E1)
          as (_ & Hf1 & n1 & Hq1 & He1 & Hd1); [done|].
        destruct (IH w1 r w' Hf1 Hloop Hr)
          as (-> & Hf2 & Hq2 & n2 & He2 & Hd2).
        split; [done|]. split; [done|]. split; [done|].
        exists (n1 ++ n2).
        rewrite He2, He1, Hd2, Hd1, Hq1. simpl.
        rewrite <- !app_assoc. done.
      * intros _ _.
        by destruct (drainPass_fifo zones n m (t :: q) wA _ _ Hf E1) as (? & _).
      * intros [= <- <-] Hr. done.
Qed.

(** A pass whose tasks all come to an end runs them in order and returns
    normally, and a pass that comes to an end is such a pass. *)
Lemma drainPass_passRuns zones n call queue w w' :
  passRuns zones n call queue w w' ->
  drainPass zones n call queue w = (Ok tt, w').
Proof.
  induction 1 as [w | task rest w r w1 w2 Hrun Hr _ IH]; [done|].
  rewrite drainPass_cons. unfold bind at 1, try_catch, bind at 1.
  rewrite Hrun. by destruct r as [v|e|].
Qed.

Lemma passRuns_drainPass zones n call queue :
  forall w r w',
    drainPass zones n call queue w = (r, w') ->
    r <> Diverge ->
    r = Ok tt /\ passRuns zones n call queue w w'.
Proof.
  induction queue as [|task rest IH]; intros w r w'.
  - intros [= <- <-] _. split; [done | constructor].
  - rewrite drainPass_cons. unfold bind at 1, try_catch, bind at 1.
    destruct (runInOwnZone zones n call task (add_event (EvDequeue task) w))
      as [[v|e|] w1] eqn:Hrun.
    + intros Hrest Hr. destruct (IH _ _ _ Hrest Hr) as [-> Hp].
      split; [done|]. by eapply (passRuns_cons _ _ _ _ _ _ (Ok v)).
    + intros Hrest Hr. destruct (IH _ _ _ Hrest Hr) as [-> Hp].
      split; [done|]. by eapply (passRuns_cons _ _ _ _ _ _ (Throw e)).
    + by intros [= <- <-] Hr.
Qed.

Lemma drainLoop_drainRuns zones n call p w w' :
  drainRuns zones n call p w w' ->
  forall k, (p < k)%nat -> drainLoop zones n call k w = (Ok tt, w').
Proof.
  induction 1 as [w Hq | p w w1 w2 Hq Hpass _ IH]; intros k Hk;
    (destruct k as [|k]; [lia|]); rewrite drainLoop_S.
  - by rewrite Hq.
  - destruct (_microTaskQueue w) as [|t q] eqn:E; [done|].
    erewrite bind_Ok by (by apply drainPass_passRuns).
    apply IH. lia.
Qed.

Lemma drainRuns_drainLoop zones n call k :
  forall w r w',
    drainLoop zones n call k w = (r, w') ->
    r <> Diverge ->
    r = Ok tt
    /\ exists p, (p < k)%nat /\ drainRuns zones n call p w w'.
Proof.
  induction k as [|k IH]; intros w r w'; [by intros [= <- <-] Hr|].
  rewrite drainLoop_S.
  destruct (_microTaskQueue w) as [|t q] eqn:E.
  - intros [= <- <-] _. split; [done|].
    exists 0%nat. split; [lia | by constructor].
  - unfold bind at 1.
    destruct (drainPass zones n call (t :: q) (set_queue [] w))
      as [r1 w1] eqn:E1.
    destruct r1 as [[]|e|].
    + intros Hrest Hr.
      destruct (passRuns_drainPass _ _ _ _ _ _ _ E1) as [_ Hp]; [done|].
      destruct (IH _ _ _ Hrest Hr) as (-> & p & Hlt & Hd).
      split; [done|]. exists (S p). split; [lia|].
      eapply drainRuns_pass; [by rewrite E | by rewrite E | exact Hd].
    + by destruct (passRuns_drainPass _ _ _ _ _ _ _ E1) as [? _].
    + by intros [= <- <-] Hr.
Qed.

(** With more fuel the same passes are made. *)
Lemma passRuns_fuel_mono zones n m n' m' queue w w' :
  (n <= n')%nat -> (m <= m')%nat ->
  passRuns zones n (exec zones m) queue w w' ->
  passRuns zones n' (exec zones m') queue w w'.
Proof.
  intros Hn Hm.
  induction 1 as [w | task rest w r w1 w2 Hrun Hr _ IH]; [constructor|].
  eapply passRuns_cons; [|exact Hr|exact IH].
  eapply (ref_runInOwnZone zones (exec zones m) (exec zones m'));
    [|exact Hn|exact Hrun|exact Hr].
  intros c. by apply exec_fuel_mono.
Qed.

Lemma drainRuns_fuel_mono zones n m n' m' p w w' :
  (n <= n')%nat -> (m <= m')%nat ->
  drainRuns zones n (exec zones m) p w w' ->
  drainRuns zones n' (exec zones m') p w w'.
Proof.
  intros Hn Hm.
  induction 1 as [w Hq | p w w1 w2 Hq Hpass _ IH]; [by constructor|].
  eapply drainRuns_pass; [exact Hq| |exact IH].
  exact (passRuns_fuel_mono zones n m n' m' _ _ _ Hn Hm Hpass).
Qed.

(** The drain returns whenever its passes do. *)
Lemma drain_total zones n call p w w1 :
  _isDrainingMicrotaskQueue w = false ->
  drainRuns zones n call p (set_draining true w) w1 ->
  (p < n)%nat ->
  drainMicroTaskQueue zones n call w
  = (Ok tt, set_draining false (add_event EvDrainDone w1)).
Proof.
  intros Hf Hd Hp.
  unfold drainMicroTaskQueue, bind at 1, get_world. rewrite Hf.
  unfold bind at 1, modify.
  by erewrite bind_Ok by (by eapply drainLoop_drainRuns).
Qed.

Lemma drain_passes zones n call w r w' :
  _isDrainingMicrotaskQueue w = false ->
  drainMicroTaskQueue zones n call w = (r, w') ->
  r <> Diverge ->
  exists p w1,
    (p < n)%nat
    /\ drainRuns zones n call p (set_draining true w) w1
    /\ w' = set_draining false (add_event EvDrainDone w1).
Proof.
  intros Hf. unfold drainMicroTaskQueue, bind at 1, get_world. rewrite Hf.
  unfold bind at 1, modify. unfold bind at 1.
  destruct (drainLoop zones n call n (set_draining true w)) as [r1 w1] eqn:E.
  destruct r1 as [[]|e|].
  - intros [= <- <-] _.
    destruct (drainRuns_drainLoop _ _ _ _ _ _ _ E) as (_ & p & Hlt & Hd);
      [done|].
    by exists p, w1.
  - intros _ _. by destruct (drainRuns_drainLoop _ _ _ _ _ _ _ E) as [? _].
  - by intros [= <- <-] Hr.
Qed.

Lemma drain_outcome zones n m (w : World) r w' :
  _isDrainingMicrotaskQueue w = false ->
  drainMicroTaskQueue zones n (exec zones m) w = (r, w') ->
  r <> Diverge ->
  r = Ok tt
  /\ _microTaskQueue w' = []
  /\ _isDrainingMicrotaskQueue w' = false
  /\ (exists tr, trace w' = tr ++ [EvDrainDone])
  /\ (exists new,
        enqueued (trace w') = enqueued (trace w) ++ new
        /\ dequeued (trace w')
           = dequeued (trace w) ++ _microTaskQueue w ++ new)
  /\ (forall task rest w0 e w1,
        runInOwnZone zones n (exec zones m) task
          (add_event (EvDequeue task) w0) = (Throw e, w1) ->
        drainPass zones n (exec zones m) (task :: rest) w0
        = drainPass zones n (exec zones m) rest
            (add_event (EvUnhandledError e) w1))
  /\ (forall n' m', (n <= n')%nat -> (m <= m')%nat ->
        drainMicroTaskQueue zones n' (exec zones m') w = (r, w')).
Proof.
  intros Hf Hdrain Hr.
  assert (forall n' m', (n <= n')%nat -> (m <= m')%nat ->
            drainMicroTaskQueue zones n' (exec zones m') w = (r, w'))
    as Hmono.
  { intros n' m' Hn Hm. by eapply drain_fuel_mono. }
  revert Hdrain Hr.
  unfold drainMicroTaskQueue, bind at 1, get_world. rewrite Hf.
  unfold bind at 1, modify.
  set (wA := set_draining true w).
  unfold bind at 1.
  destruct (drainLoop zones n (exec zones m) n wA) as [r1 w1] eqn:E1.
  assert (forall task rest w0 e w1,
        runInOwnZone zones n (exec zones m) task
          (add_event (EvDequeue task) w0) = (Throw e, w1) ->
        drainPass zones n (exec zones m) (task :: rest) w0
        = drainPass zones n (exec zones m) rest
            (add_event (EvUnhandledError e) w1)) as Herr.
  { intros task rest w0 e w2 Hrun. rewrite drainPass_cons.
    unfold bind at 1, try_catch, bind at 1. by rewrite Hrun. }
  destruct r1 as [[]|e|].
  - unfold microtaskDrainDone, emit, bind, modify. intros [= <- <-] _.
    destruct (drainLoop_fifo zones n m n wA _ _ eq_refl E1)
      as (_ & Hf1 & Hq1 & new & He & Hd); [done|].
    split; [done|]. split; [done|]. split; [done|].
    split; [by eexists|]. split; [|done].
    exists new. simpl. rewrite enqueued_app, dequeued_app. simpl.
    by rewrite !app_nil_r.
  - intros _ _.
    by destruct (drainLoop_fifo zones n m n wA _ _ eq_refl E1) as (? & _).
  - intros [= <- <-] Hr. done.
Qed.


(** C7: a drain that starts (the flag is clear) returns normally whenever
    the run of each task it takes off the queue comes to an end and some
    pass ends with the queue empty, given any fuel beyond that of those
    runs and the number of passes: each pass swaps the queue for an empty
    one and runs the tasks it found, in order, by [task.zone.runTask], a
    thrown error going to [onUnhandledError] and the pass going on; the
    passes go on until one ends with the queue empty, then
    [microtaskDrainDone] is called and the flag cleared.  Conversely a
    drain that comes to an end was made of such passes and returned
    normally: no error of a drained task leaves it.  The tasks leave the
    queue in the order they were put on, first those queued at the start
    and then those queued while the drain ran, and the outcome does not
    depend on the fuel: any larger fuel gives the same. *)
Theorem drain_runs_queue_in_order zones n m (w : World) :
  _isDrainingMicrotaskQueue w = false ->
  (forall p w1,
      drainRuns zones n (exec zones m) p (set_draining true w) w1 ->
      forall n' m', (n <= n')%nat -> (m <= m')%nat -> (p < n')%nat ->
        drainMicroTaskQueue zones n' (exec zones m') w
        = (Ok tt, set_draining false (add_event EvDrainDone w1)))
  /\ forall r w',
       drainMicroTaskQueue zones n (exec zones m) w = (r, w') ->
       r <> Diverge ->
       r = Ok tt
       /\ (exists p w1,
             (p < n)%nat
             /\ drainRuns zones n (exec zones m) p (set_draining true w) w1
             /\ w' = set_draining false (add_event EvDrainDone w1))
       /\ _microTaskQueue w' = []
       /\ _isDrainingMicrotaskQueue w' = false
       /\ (exists tr, trace w' = tr ++ [EvDrainDone])
       /\ (exists new,
             enqueued (trace w') = enqueued (trace w) ++ new
             /\ dequeued (trace w')
                = dequeued (trace w) ++ _microTaskQueue w ++ new)
       /\ (forall task rest w0 e w1,
             runInOwnZone zones n (exec zones m) task
               (add_event (EvDequeue task) w0) = (Throw e, w1) ->
             drainPass zones n (exec zones m) (task :: rest) w0
             = drainPass zones n (exec zones m) rest
                 (add_event (EvUnhandledError e) w1))
       /\ (forall n' m', (n <= n')%nat -> (m <= m')%nat ->
             drainMicroTaskQueue zones n' (exec zones m') w = (r, w')).
Proof.
  intros Hf. split.
  - intros p w1 Hd n' m' Hn Hm Hp.
    apply (drain_total zones n' (exec zones m') p); [done| |done].
    exact (drainRuns_fuel_mono zones n m n' m' p _ _ Hn Hm Hd).
  - intros r w' Hdrain Hr.
    destruct (drain_outcome zones n m w r w' Hf Hdrain Hr)
      as (H1 & H2 & H3 & H4 & H5 & H6 & H7).
    split; [exact H1|].
    split; [by eapply drain_passes|].
    done.
Qed.

End Drain.

(** * Worked examples *)

Section Examples.

Import Ex.

Local Abbreviation run20 := (exec zones 20).

(** S1 of the specification: the microtasks run after the synchronous
    code, in the order they were queued. *)
Example microtasks_run_in_order :
  logged (trace (snd (exec zones 20 twoMicrotasks w0))) = ["sync"; "a"; "b"].
Proof. vm_compute. reflexivity. Qed.

(** S2 of the specification: [onHasTask] is called twice, first with
    [macroTask: true], then with [macroTask: false]. *)
Example hasTask_sees_both_transitions :
  trace (snd (exec zones 20 scheduleAndCancel w0))
  = [EvHasTask 3 3 {| hts_microTask := false; hts_macroTask := true;
                      hts_eventTask := false; hts_change := macroTask |};
     EvLog "hasTask";
     EvHasTask 3 3 {| hts_microTask := false; hts_macroTask := false;
                      hts_eventTask := false; hts_change := macroTask |};
     EvLog "hasTask"].
Proof. vm_compute. reflexivity. Qed.

(** S4 of the specification: a task of [H] cannot be run in [B]. *)
Example runTask_enforces_owning_zone :
  Zone_runTask zones 20 run20 B 0 wMacroInH
  = (Throw (EError "A task can only be run in the zone of creation! (Creation: H; Execution: B)"),
     wMacroInH).
Proof. vm_compute. reflexivity. Qed.

(** S6 of the specification: an illegal transition of a running task. *)
Example illegal_transition_is_fatal :
  fst (ZoneTask__transitionTo 0 scheduled notScheduled None wEventRunning)
  = Throw (EError "eventTask 'click': can not transition to 'scheduled', expecting state 'notScheduled', was 'running'.").
Proof. vm_compute. reflexivity. Qed.

(** S3 of the specification: [B.scheduleTask] of a task owned by [A]. *)
Lemma scheduleTask_rejects_iff_descendant_witness :
  tasks wOwnedByA !! 0%nat = Some (taskAt wOwnedByA 0)
  /\ _zone (taskAt wOwnedByA 0) = Some 1%nat
  /\ Zone_scheduleTask zones 20 run20 B 0 wOwnedByA
     = (Throw (EError "can not reschedule task to B which is descendants of the original zone A"),
        wOwnedByA).
Proof.
  assert (tasks wOwnedByA !! 0%nat = Some (taskAt wOwnedByA 0)) as Ht
    by (vm_compute; reflexivity).
  split; [exact Ht|]. split; [vm_compute; reflexivity|].
  destruct (scheduleTask_rejects_iff_descendant zones 20 run20 B 0
              (taskAt wOwnedByA 0) wOwnedByA Ht) as (_ & Hd & _).
  destruct Hd as (tz & msg & Hz & Hm & _ & Hr).
  { exists 1%nat. split; [vm_compute; reflexivity|].
    split; [vm_compute; lia|]. vm_compute. set_solver. }
  rewrite Hr, Hm.
  assert (tz = 1%nat) as -> by (vm_compute in Hz; congruence).
  vm_compute. reflexivity.
Defined.

(** S2 of the specification: the first task of [H] is announced. *)
Lemma updateTaskCount_hasTask_iff_boundary_witness :
  0 <= getCount (countsOf w0 (zd_zone (_zoneDelegate H))) macroTask + 1
  /\ fst (ZoneDelegate__updateTaskCount run20 (_zoneDelegate H) macroTask 1 w0)
     = Ok tt
  /\ trace (snd (ZoneDelegate__updateTaskCount run20 (_zoneDelegate H)
                   macroTask 1 w0))
     = [EvHasTask 3 3 {| hts_microTask := false; hts_macroTask := true;
                         hts_eventTask := false; hts_change := macroTask |};
        EvLog "hasTask"].
Proof.
  assert (0 <= getCount (countsOf w0 (zd_zone (_zoneDelegate H))) macroTask + 1)
    as Hnn by (vm_compute; discriminate).
  split; [exact Hnn|].
  destruct (updateTaskCount_hasTask_iff_boundary run20 (_zoneDelegate H)
              macroTask 1 w0) as (_ & _ & Hb & _).
  rewrite (Hb Hnn) by (left; vm_compute; reflexivity).
  split; vm_compute; reflexivity.
Defined.

(** C4, as stated, fails at a count of zero and a change of [-1]: the
    previous count is zero, yet the call throws and announces nothing. *)
Lemma updateTaskCount_zero_minus_one_is_silent :
  getCount (countsOf w0 (zd_zone (_zoneDelegate H))) macroTask = 0
  /\ fst (ZoneDelegate__updateTaskCount run20 (_zoneDelegate H)
            macroTask (-1) w0)
     = Throw (EError "More tasks executed then were scheduled.")
  /\ trace (snd (ZoneDelegate__updateTaskCount run20 (_zoneDelegate H)
                   macroTask (-1) w0)) = [].
Proof. vm_compute. done. Qed.

(** C5, as stated, fails at the same call: when it throws, the counter it
    leaves behind is [-1].  The same happens through the zone API when a
    delegate is registered twice for one task: cancelling the task counts
    it out twice, the second time below zero, and after user code has
    caught the error the counter of [H] is [-1]. *)
Lemma updateTaskCount_leaves_negative_count :
  (fst (ZoneDelegate__updateTaskCount run20 (_zoneDelegate H) macroTask (-1) w0)
   = Throw (EError "More tasks executed then were scheduled.")
   /\ getCount
        (countsOf (snd (ZoneDelegate__updateTaskCount run20 (_zoneDelegate H)
                          macroTask (-1) w0)) 3) macroTask = -1)
  /\ (fst (exec zones 20 countedOutTwice w0) = Ok VNull
      /\ getCount (countsOf (snd (exec zones 20 countedOutTwice w0)) 3)
           macroTask = -1).
Proof. vm_compute. done. Qed.

Lemma updateTaskCount_negative_is_fatal_witness :
  ZoneDelegate__updateTaskCount run20 (_zoneDelegate H) macroTask (-1) w0
  = (Throw (EError "More tasks executed then were scheduled."),
     stored (_zoneDelegate H) macroTask (-1) w0).
Proof.
  destruct (updateTaskCount_negative_is_fatal run20 (_zoneDelegate H)
              macroTask (-1) w0) as (_ & _ & Hneg & _).
  apply Hneg. vm_compute. reflexivity.
Defined.

(** S5 of the specification: [onHandleError] returning [false] makes
    [runGuarded] return [undefined]. *)
Lemma runGuarded_routes_errors_witness :
  Zone_runGuarded run20 H (CThrow (EError "x")) w0 = (Ok VUndefined, w0)
  /\ fst (Zone_runGuarded run20 root (CThrow (EError "x")) w0)
     = Throw (EError "x").
Proof.
  destruct (runGuarded_routes_errors run20 H (CThrow (EError "x")) w0)
    as [_ Herr].
  destruct (runGuarded_routes_errors run20 root (CThrow (EError "x")) w0)
    as [_ Herr'].
  split.
  - erewrite (Herr (EError "x") (entered H w0) (VBool false) (entered H w0));
      [ | vm_compute; reflexivity .. ].
    vm_compute. reflexivity.
  - erewrite (Herr' (EError "x") (entered root w0) (VBool true)
                (entered root w0));
      [ | vm_compute; reflexivity .. ].
    vm_compute. reflexivity.
Defined.

(** [A.run] of a callback that logs: the stack is as before. *)
Lemma frame_stack_restored_witness :
  exists w3, Zone_run run20 A (CLog "x") w0 = (Ok VUndefined, w3)
             /\ _currentZoneFrame w3 = _currentZoneFrame w0.
Proof.
  destruct (frame_stack_restored zones 20 run20 A w0) as (Hrun & _).
  apply (Hrun (CLog "x") (Ok VUndefined)
           (add_event (EvLog "x") (entered A w0))).
  - vm_compute. reflexivity.
  - discriminate.
  - reflexivity.
Defined.

(** C1, as stated, fails in two ways.  A task that is already running
    when [runTask] is entered: after the callback the event task is
    [running], and [runTask] leaves it [running].  And a one-shot task
    whose callback cancelled and rescheduled it: after the callback it is
    [scheduled], and [runTask] throws and leaves it [scheduled]. *)
Lemma runTask_reentrant_stays_running :
  (_state (taskAt wEventRunning 0) = running
   /\ type (taskAt wEventRunning 0) = eventTask
   /\ _state (taskAt (snd (runTask_body run20 A 0
                             (set_frame (Some (mkFrame
                                (_currentZoneFrame wEventRunning) 1))
                                wEventRunning))) 0) = running
   /\ fst (Zone_runTask zones 20 run20 A 0 wEventRunning) = Ok VUndefined
   /\ _state (taskAt (snd (Zone_runTask zones 20 run20 A 0 wEventRunning)) 0)
      = running)
  /\ (_state (taskAt wRescheduling 0) = scheduled
      /\ type (taskAt wRescheduling 0) = macroTask
      /\ staysScheduled (taskAt wRescheduling 0) = false
      /\ _state (taskAt (snd (runTask_body run20 A 0
                                (runTask_entered A 0 (taskAt wRescheduling 0)
                                   wRescheduling))) 0) = scheduled
      /\ fst (Zone_runTask zones 20 run20 A 0 wRescheduling)
         = Throw (EError "macroTask 't': can not transition to 'notScheduled', expecting state 'running' or 'notScheduled', was 'scheduled'.")
      /\ _state (taskAt (snd (Zone_runTask zones 20 run20 A 0 wRescheduling)) 0)
         = scheduled).
Proof. vm_compute. done. Qed.

Lemma H_resolves : resolves zones [3%nat].
Proof.
  intros d Hd. apply list_elem_of_singleton in Hd as ->.
  exists H. split; vm_compute; reflexivity.
Qed.

Lemma H_quietHasTask : quietHasTask run20 zones [3%nat].
Proof.
  intros d zn st w Hd Hz. apply list_elem_of_singleton in Hd as ->.
  assert (zones !! 3%nat = Some H) as Hz' by reflexivity.
  rewrite Hz' in Hz. injection Hz as <-.
  exists ((trace w ++ [EvHasTask 3 3 st]) ++ [EvLog "hasTask"]).
  reflexivity.
Qed.

(** Schedule-then-run of a one-shot macrotask in [H]. *)
Lemma runTask_settles_task_witness :
  (exists w3 tk3,
     Zone_runTask zones 20 run20 H 0 wMacroInH = (Ok VUndefined, w3)
     /\ tasks w3 !! 0%nat = Some tk3
     /\ _state tk3 = notScheduled
     /\ runCount tk3 = 0
     /\ _zoneDelegates tk3 = None
     /\ getCount (countsOf wMacroInH 3) macroTask = 1
     /\ getCount (countsOf w3 3) macroTask = 0)
  /\ (exists wS w3 tk3,
        Zone_scheduleTask zones 20 run20 H 0 wMacroNew = (Ok (VTask 0), wS)
        /\ getCount (countsOf wS 3) macroTask = 1
        /\ Zone_runTask zones 20 run20 H 0 wS = (Ok VUndefined, w3)
        /\ tasks w3 !! 0%nat = Some tk3
        /\ _state tk3 = notScheduled
        /\ runCount tk3 = 0
        /\ forall d, countsOf w3 d = countsOf wMacroNew d).
Proof.
  destruct (runTask_settles_task zones run20 20 H 0) as [Hsettle Hround].
  split.
  - set (tk := taskAt wMacroInH 0).
    set (X := runTask_body run20 H 0 (runTask_entered H 0 tk wMacroInH)).
    assert (X = (Ok VUndefined, snd X)) as HX by (vm_compute; reflexivity).
    destruct (Hsettle tk (taskAt (snd X) 0) (Ok VUndefined) wMacroInH (snd X))
      as (_ & Hone);
      [vm_compute; reflexivity | vm_compute; reflexivity
      | vm_compute; reflexivity | exact HX | discriminate
      | vm_compute; reflexivity | vm_compute; reflexivity
      | vm_compute; reflexivity | ].
    destruct (Hone eq_refl 0%nat [3%nat])
      as (w3 & tk3 & Hr & Ht & Hs & Hc & Hz & _ & Hn);
      [vm_compute; reflexivity | vm_compute; reflexivity
      | apply H_resolves | apply H_quietHasTask
      | vm_compute; reflexivity | vm_compute; lia |].
    exists w3, tk3.
    split; [exact Hr|]. split; [exact Ht|]. split; [exact Hs|].
    split; [exact Hc|]. split; [exact Hz|].
    split; [vm_compute; reflexivity|].
    change macroTask with (type (taskAt X.2 0)).
    rewrite (Hn 3%nat). vm_compute. reflexivity.
  - set (tk := taskAt wMacroNew 0).
    set (ws := snd (scheduleTask_dispatch run20 H 0
                      (scheduleTask_bound H 0 tk wMacroNew))).
    set (tkS := taskAt ws 0).
    destruct (Hround tk tkS [3%nat] wMacroNew ws)
      as (wS & Hsched & HtS & HcS & Hrun);
      [vm_compute; reflexivity | vm_compute; reflexivity
      | vm_compute; reflexivity | vm_compute; reflexivity
      | vm_compute; reflexivity | vm_compute; reflexivity
      | vm_compute; reflexivity | vm_compute; reflexivity
      | vm_compute; reflexivity | vm_compute; reflexivity
      | apply H_resolves | apply H_quietHasTask | vm_compute; lia
      | intros d; vm_compute; by destruct d as [|[|[|[|?]]]] |].
    assert (wS = snd (Zone_scheduleTask zones 20 run20 H 0 wMacroNew)) as HwS
      by (by rewrite Hsched).
    subst wS.
    set (wS := snd (Zone_scheduleTask zones 20 run20 H 0 wMacroNew)) in *.
    set (w1 := runTask_entered H 0 (with_state scheduled tkS) wS) in Hrun.
    destruct (Hrun (Ok VUndefined) (snd (runTask_body run20 H 0 w1)))
      as (w3 & tk3 & Hr3 & Ht3 & Hs3 & Hc3 & Hn3);
      [vm_compute; reflexivity | discriminate | vm_compute; reflexivity
      | vm_compute; reflexivity | vm_compute; reflexivity
      | vm_compute; reflexivity | ].
    exists wS, w3, tk3.
    split; [exact Hsched|].
    split; [change macroTask with (type tkS); rewrite (HcS 3%nat);
            vm_compute; reflexivity|].
    split; [exact Hr3|]. split; [exact Ht3|]. split; [exact Hs3|].
    split; [exact Hc3|].
    intros d. rewrite Hn3. vm_compute. reflexivity.
Defined.

(** The event task of [A] fired by the host through its thunk while a
    microtask is queued: the microtask is drained before the thunk
    returns, and the event task has [runCount = 2]. *)
Lemma invokeTask_counts_run_twice_witness :
  runCount (taskAt wEventInA 0) = 0
  /\ (exists w3 tk3,
        Zone_runTask zones 20 run20 A 0 wEventInA = (Ok VUndefined, w3)
        /\ tasks w3 !! 0%nat = Some tk3 /\ runCount tk3 = 1)
  /\ _microTaskQueue ExTasks.wEventAndMicro = [1%nat]
  /\ runCount (taskAt ExTasks.wEventAndMicro 0) = 0
  /\ (exists w5 tk5,
        ZoneTask_invokeTask zones 20 run20 0 ExTasks.wEventAndMicro
        = (Ok VUndefined, w5)
        /\ tasks w5 !! 0%nat = Some tk5 /\ runCount tk5 = 2
        /\ _state tk5 = scheduled).
Proof.
  set (tk := taskAt wEventInA 0).
  destruct (invokeTask_counts_run_twice zones run20 19 A 0 tk wEventInA)
    as [Hdirect _]; [vm_compute; reflexivity ..|].
  split; [vm_compute; reflexivity|]. split.
  { destruct (Hdirect (Ok VUndefined)
                (snd (runTask_body run20 A 0 (runTask_entered A 0 tk wEventInA))))
      as (w3 & tk3 & Hr & Ht & Hc & _);
      [vm_compute; reflexivity | discriminate
      | vm_compute; reflexivity | vm_compute; reflexivity |].
    exists w3, tk3. split; [exact Hr|]. split; [exact Ht|].
    rewrite Hc. vm_compute. reflexivity. }
  split; [vm_compute; reflexivity|]. split; [vm_compute; reflexivity|].
  set (wM := ExTasks.wEventAndMicro).
  set (tkM := taskAt wM 0).
  destruct (invokeTask_counts_run_twice zones run20 19 A 0 tkM wM)
    as [_ Hthunk]; [vm_compute; reflexivity ..|].
  destruct (Hthunk (Ok VUndefined)
              (snd (runTask_body run20 A 0
                      (runTask_entered A 0
                         (with_runCount (runCount tkM + 1) tkM)
                         (invokeTask_entered 0 tkM wM)))))
    as (w3 & tk3 & Hown & Ht & Hc & Hs & _ & Hdrain);
    [vm_compute; reflexivity | discriminate
    | vm_compute; reflexivity | vm_compute; reflexivity |].
  assert (w3 = snd (runInOwnZone zones 20 run20 0
                      (invokeTask_entered 0 tkM wM))) as ->
    by (by rewrite Hown).
  set (w3 := snd (runInOwnZone zones 20 run20 0
                    (invokeTask_entered 0 tkM wM))) in *.
  assert (_numberOfNestedTaskFrames w3 = 1) as Hone
    by (vm_compute; reflexivity).
  destruct (Hdrain Hone (snd (drainMicroTaskQueue zones 20 run20 w3)))
    as (w5 & Hr5 & Ht5);
    [vm_compute; reflexivity | vm_compute; reflexivity |].
  exists w5, tk3. split; [exact Hr5|]. split; [exact Ht5|].
  split; [rewrite Hc; vm_compute; reflexivity | exact Hs].
Defined.

(** C9, as stated, fails: an event task whose callback cancels it, and an
    event task fired while a queued microtask is going to cancel it, both
    end the firing through the thunk with [runCount = 0], not raised by
    2. *)
Lemma invokeTask_then_cancel_resets_runCount :
  (_state (taskAt ExTasks.wSelfCancelling 0) = scheduled
   /\ runCount (taskAt ExTasks.wSelfCancelling 0) = 0
   /\ fst (ZoneTask_invokeTask zones 20 run20 0 ExTasks.wSelfCancelling)
      = Ok (VTask 0)
   /\ runCount
        (taskAt (snd (ZoneTask_invokeTask zones 20 run20 0
                        ExTasks.wSelfCancelling)) 0) = 0)
  /\ (_state (taskAt ExTasks.wEventAndCanceller 0) = scheduled
      /\ runCount (taskAt ExTasks.wEventAndCanceller 0) = 0
      /\ _microTaskQueue ExTasks.wEventAndCanceller = [1%nat]
      /\ fst (ZoneTask_invokeTask zones 20 run20 0 ExTasks.wEventAndCanceller)
         = Ok VUndefined
      /\ runCount
           (taskAt (snd (ZoneTask_invokeTask zones 20 run20 0
                           ExTasks.wEventAndCanceller)) 0) = 0).
Proof. vm_compute. done. Qed.


(** S1 of the specification, with a failing task and a task queued
    during the drain. *)
Lemma drain_runs_queue_in_order_witness :
  _microTaskQueue wQueued = [0; 1]%nat
  /\ (exists w1,
        drainRuns zones 20 run20 2 (set_draining true wQueued) w1
        /\ drainMicroTaskQueue zones 20 run20 wQueued
           = (Ok tt, set_draining false (add_event EvDrainDone w1)))
  /\ _microTaskQueue (snd (drainMicroTaskQueue zones 20 run20 wQueued)) = []
  /\ dequeued (trace (snd (drainMicroTaskQueue zones 20 run20 wQueued)))
     = [0; 1; 2]%nat.
Proof.
  destruct (drain_runs_queue_in_order zones 20 20 wQueued)
    as [Htotal Hrest]; [vm_compute; reflexivity|].
  split; [vm_compute; reflexivity|]. split.
  - eexists. split; [|apply (Htotal 2%nat); [|lia..]];
      (eapply drainRuns_pass;
       [ vm_compute; discriminate
       | eapply passRuns_cons;
         [ vm_compute; reflexivity | discriminate
         | eapply passRuns_cons;
           [ vm_compute; reflexivity | discriminate | apply passRuns_nil ] ]
       | eapply drainRuns_pass;
         [ vm_compute; discriminate
         | eapply passRuns_cons;
           [ vm_compute; reflexivity | discriminate | apply passRuns_nil ]
         | apply drainRuns_done; vm_compute; reflexivity ] ]).
  - set (X := drainMicroTaskQueue zones 20 run20 wQueued).
    assert (X = (Ok tt, snd X)) as HX by (vm_compute; reflexivity).
    destruct (Hrest (Ok tt) (snd X) HX) as (_ & _ & Hq & _);
      [discriminate|].
    split; [exact Hq|]. vm_compute. reflexivity.
Defined.

End Examples.

(** * Further properties *)

(** ** Building the zone tree *)

Section Building.

Lemma hookTriple_child zone pd zs has sel :
  hookTriple zone (Some pd) (Some zs) has sel
  = Some (if has zs
          then {| tZS := Some zs; tDlgt := Some (zd_zone pd);
                  tCurrZone := Some zone |}
          else {| tZS := tZS (sel pd); tDlgt := tDlgt (sel pd);
                  tCurrZone := Some (zd_zone pd) |}).
Proof. unfold hookTriple. by destruct (has zs). Qed.

(** [new Zone(parent, spec)] with a parent and a spec always succeeds, and
    this is the zone it builds. *)
Lemma Zone_new_child id p s :
  exists z,
    Zone_new id (Some p) (Some s) = Some z
    /\ zid z = id
    /\ _parent z = Some p
    /\ zd_zone (_zoneDelegate z) = id
    /\ _fork (_zoneDelegate z) = childTriple id p s onFork _fork
    /\ _intercept (_zoneDelegate z) = childTriple id p s onIntercept _intercept
    /\ _invoke (_zoneDelegate z)
       = childTriple id p s (fun s => isSome (onInvoke s)) _invoke
    /\ _handleError (_zoneDelegate z)
       = childTriple id p s (fun s => isSome (onHandleError s)) _handleError.
Proof.
  unfold Zone_new, ZoneDelegate_new.
  change (_zoneDelegate <$> Some p) with (Some (_zoneDelegate p)).
  rewrite !hookTriple_child. simpl.
  destruct (_ || _); simpl; eexists; (split; [reflexivity|]); simpl;
    repeat split.
Qed.

Lemma Zone_new_child_tasks id p s :
  exists z, Zone_new id (Some p) (Some s) = Some z
    /\ if isSome (onHasTask s) || isSome (tZS (_hasTask (_zoneDelegate p)))
       then _hasTaskDlgtOwner (_zoneDelegate z) = Some id
            /\ _hasTask (_zoneDelegate z)
               = countedTriple id p s (fun s => isSome (onHasTask s))
            /\ _scheduleTask (_zoneDelegate z)
               = countedTriple id p s (fun s => isSome (onScheduleTask s))
            /\ _invokeTask (_zoneDelegate z)
               = countedTriple id p s (fun s => isSome (onInvokeTask s))
            /\ _cancelTask (_zoneDelegate z)
               = countedTriple id p s (fun s => isSome (onCancelTask s))
       else _hasTaskDlgtOwner (_zoneDelegate z) = None
            /\ _hasTask (_zoneDelegate z) = noTriple
            /\ _scheduleTask (_zoneDelegate z)
               = childTriple id p s (fun s => isSome (onScheduleTask s))
                   _scheduleTask
            /\ _invokeTask (_zoneDelegate z)
               = childTriple id p s (fun s => isSome (onInvokeTask s))
                   _invokeTask
            /\ _cancelTask (_zoneDelegate z)
               = childTriple id p s (fun s => isSome (onCancelTask s))
                   _cancelTask.
Proof.
  unfold Zone_new, ZoneDelegate_new.
  change (_zoneDelegate <$> Some p) with (Some (_zoneDelegate p)).
  rewrite !hookTriple_child. simpl.
  destruct (_ || _); simpl; eexists; (split; [reflexivity|]); simpl;
    unfold forced, countedTriple, childTriple; repeat split;
    by destruct (onScheduleTask s), (onInvokeTask s), (onCancelTask s).
Qed.

Lemma chain_unfold z :
  chain z = z :: match _parent z with Some p => chain p | None => [] end.
Proof. by destruct z. Qed.

Lemma BuiltFrom_zd_zone base z specs :
  BuiltFrom base z specs ->
  zd_zone (_zoneDelegate base) = zid base ->
  zd_zone (_zoneDelegate z) = zid z.
Proof.
  intros Hb Hbase. destruct Hb as [|id p s z specs _ Hnew]; [done|].
  destruct (Zone_new_child id p s) as (z' & Hz' & Hid & _ & Hzd & _).
  rewrite Hnew in Hz'. injection Hz' as <-. congruence.
Qed.

(** A hook entry that every child computes by [childTriple] is, down any
    line of descent, the entry [nearest] describes. *)
Lemma nearest_generic (has : ZoneSpec -> bool) (sel : ZoneDelegate -> Triple)
    (Hsel : forall id p s z,
        Zone_new id (Some p) (Some s) = Some z ->
        sel (_zoneDelegate z) = childTriple id p s has sel)
    base z specs :
  BuiltFrom base z specs ->
  zd_zone (_zoneDelegate base) = zid base ->
  sel (_zoneDelegate z) = nearest has sel base z specs.
Proof.
  intros Hb Hbase. induction Hb as [|id p s z specs Hp IH Hnew]; [done|].
  pose proof (BuiltFrom_zd_zone _ _ _ Hp Hbase) as Hzdp.
  rewrite (Hsel _ _ _ _ Hnew).
  destruct (Zone_new_child id p s) as (z' & Hz' & Hid & Hpar & _).
  rewrite Hnew in Hz'. injection Hz' as <-.
  unfold nearest, childTriple. simpl list_find.
  rewrite (chain_unfold z), Hpar. simpl.
  destruct (has s) eqn:Hs.
  - rewrite decide_True by done. simpl.
    rewrite (chain_unfold p). simpl. by rewrite Hzdp, Hid.
  - rewrite decide_False by done.
    rewrite IH. unfold nearest.
    destruct (list_find _ specs) as [[k s']|] eqn:Hfind; simpl.
    + replace (chain p !! 0%nat) with (Some p) by (by rewrite chain_unfold).
      simpl. by rewrite Hzdp.
    + replace (chain p !! 0%nat) with (Some p) by (by rewrite chain_unfold).
      simpl. rewrite Hzdp. by destruct specs.
Qed.

Lemma fork_entry_is_nearest base z specs :
  BuiltFrom base z specs ->
  zd_zone (_zoneDelegate base) = zid base ->
  _fork (_zoneDelegate z) = nearest onFork _fork base z specs.
Proof.
  intros Hb Hbase. apply nearest_generic; try done.
  intros id p s z' Hnew.
  destruct (Zone_new_child id p s) as (z'' & Hz'' & _ & _ & _ & H1 & _).
  rewrite Hnew in Hz''. by injection Hz'' as <-.
Qed.

(** X1: each zone's delegate holds, for [onFork], [onIntercept], [onInvoke]
    and [onHandleError], the spec of the nearest zone on its parent chain
    that defines the hook, together with the delegate of that zone's
    parent; the current zone it will pass is the zone itself when its own
    spec defines the hook and its immediate parent otherwise. *)
Theorem delegate_caches_nearest_hook (base z : Zone) (specs : list ZoneSpec) :
  BuiltFrom base z specs ->
  zd_zone (_zoneDelegate base) = zid base ->
  _fork (_zoneDelegate z) = nearest onFork _fork base z specs
  /\ _intercept (_zoneDelegate z)
     = nearest onIntercept _intercept base z specs
  /\ _invoke (_zoneDelegate z)
     = nearest (fun s => isSome (onInvoke s)) _invoke base z specs
  /\ _handleError (_zoneDelegate z)
     = nearest (fun s => isSome (onHandleError s)) _handleError base z specs.
Proof.
  intros Hb Hbase.
  repeat split; apply nearest_generic; try done;
    intros id p s z' Hnew;
    destruct (Zone_new_child id p s) as (z'' & Hz'' & _ & _ & _ & H1 & H2 & H3 & H4);
    rewrite Hnew in Hz''; injection Hz'' as <-; done.
Qed.

Lemma hasTask_iff_counting base z specs :
  BuiltFrom base z specs ->
  isSome (tZS (_hasTask (_zoneDelegate z))) = counting base specs.
Proof.
  induction 1 as [|id p s z specs Hp IH Hnew]; [done|].
  destruct (Zone_new_child_tasks id p s) as (z' & Hz' & Hc).
  rewrite Hnew in Hz'. injection Hz' as <-.
  unfold counting in *. simpl existsb. rewrite <- orb_assoc, <- IH.
  destruct (isSome (onHasTask s) || _) eqn:Hor.
  - destruct Hc as (_ & -> & _). done.
  - destruct Hc as (_ & -> & _). done.
Qed.

Lemma counted_child (base p z : Zone) (specs : list ZoneSpec) (id : nat)
    (s : ZoneSpec) :
  BuiltFrom base p specs ->
  Zone_new id (Some p) (Some s) = Some z ->
  counting base (s :: specs) = true ->
  _hasTaskDlgtOwner (_zoneDelegate z) = Some id
  /\ _hasTask (_zoneDelegate z)
     = countedTriple id p s (fun s => isSome (onHasTask s))
  /\ _scheduleTask (_zoneDelegate z)
     = countedTriple id p s (fun s => isSome (onScheduleTask s))
  /\ _invokeTask (_zoneDelegate z)
     = countedTriple id p s (fun s => isSome (onInvokeTask s))
  /\ _cancelTask (_zoneDelegate z)
     = countedTriple id p s (fun s => isSome (onCancelTask s)).
Proof.
  intros Hp Hnew Hc.
  destruct (Zone_new_child_tasks id p s) as (z' & Hz' & Hz).
  rewrite Hnew in Hz'. injection Hz' as <-.
  rewrite (hasTask_iff_counting _ _ _ Hp) in Hz.
  unfold counting in Hc, Hz. simpl existsb in Hc.
  rewrite <- orb_assoc in Hc. by rewrite Hc in Hz.
Qed.

(** X2: once a zone's spec defines [onHasTask], or the delegate it
    descends from reports task counts, every zone forked below it has a
    delegate that owns its task counts and routes all three task hooks
    through itself: the hook's spec is the zone's own spec where it
    defines the hook and [DELEGATE_ZS] otherwise, the delegate handed to
    the hook is the parent's, and the current zone is the zone itself. *)
Theorem ref_counting_reaches_descendants (base p z : Zone)
    (specs : list ZoneSpec) (id : nat) (s : ZoneSpec) :
  BuiltFrom base p specs ->
  Zone_new id (Some p) (Some s) = Some z ->
  counting base (s :: specs) = true ->
  _hasTaskDlgtOwner (_zoneDelegate z) = Some id
  /\ _hasTask (_zoneDelegate z)
     = countedTriple id p s (fun s => isSome (onHasTask s))
  /\ _scheduleTask (_zoneDelegate z)
     = countedTriple id p s (fun s => isSome (onScheduleTask s))
  /\ _invokeTask (_zoneDelegate z)
     = countedTriple id p s (fun s => isSome (onInvokeTask s))
  /\ _cancelTask (_zoneDelegate z)
     = countedTriple id p s (fun s => isSome (onCancelTask s)).
Proof. apply counted_child. Qed.

Lemma counting_tail base s specs :
  counting base (s :: specs) = false -> counting base specs = false.
Proof.
  unfold counting. simpl. rewrite <- orb_assoc.
  by intros [_ ?]%orb_false_iff.
Qed.

Lemma nearest_task_hook (has : ZoneSpec -> bool)
    (sel : ZoneDelegate -> Triple)
    (Hsel : forall id p s z,
        Zone_new id (Some p) (Some s) = Some z ->
        isSome (onHasTask s) || isSome (tZS (_hasTask (_zoneDelegate p)))
          = false ->
        sel (_zoneDelegate z) = childTriple id p s has sel)
    base z specs :
  BuiltFrom base z specs ->
  zd_zone (_zoneDelegate base) = zid base ->
  counting base specs = false ->
  sel (_zoneDelegate z) = nearest has sel base z specs.
Proof.
  intros Hb Hbase. induction Hb as [|id p s z specs Hp IH Hnew]; [done|].
  intros Hc. specialize (IH (counting_tail _ _ _ Hc)).
  pose proof (BuiltFrom_zd_zone _ _ _ Hp Hbase) as Hzdp.
  rewrite (Hsel _ _ _ _ Hnew); cycle 1.
  { rewrite (hasTask_iff_counting _ _ _ Hp).
    unfold counting in *. simpl existsb in Hc. by rewrite <- orb_assoc in Hc. }
  destruct (Zone_new_child id p s) as (z' & Hz' & Hid & Hpar & _).
  rewrite Hnew in Hz'. injection Hz' as <-.
  unfold nearest, childTriple. simpl list_find.
  rewrite (chain_unfold z), Hpar. simpl.
  destruct (has s) eqn:Hs.
  - rewrite decide_True by done. simpl.
    rewrite (chain_unfold p). simpl. by rewrite Hzdp, Hid.
  - rewrite decide_False by done.
    rewrite IH. unfold nearest.
    destruct (list_find _ specs) as [[k s']|] eqn:Hfind; simpl.
    + replace (chain p !! 0%nat) with (Some p) by (by rewrite chain_unfold).
      simpl. by rewrite Hzdp.
    + replace (chain p !! 0%nat) with (Some p) by (by rewrite chain_unfold).
      simpl. rewrite Hzdp. by destruct specs.
Qed.

(** X3: below a delegate that does not report task counts, and as long as
    no spec on the way defines [onHasTask], a zone's delegate owns no task
    counts, has no [hasTask] hook, and resolves the three task hooks like
    the other hooks: to the nearest zone on the parent chain whose spec
    defines them. *)
Theorem task_hooks_short_circuit_without_counting (base z : Zone)
    (specs : list ZoneSpec) :
  BuiltFrom base z specs ->
  zd_zone (_zoneDelegate base) = zid base ->
  counting base specs = false ->
  tZS (_hasTask (_zoneDelegate z)) = None
  /\ _scheduleTask (_zoneDelegate z)
     = nearest (fun s => isSome (onScheduleTask s)) _scheduleTask base z specs
  /\ _invokeTask (_zoneDelegate z)
     = nearest (fun s => isSome (onInvokeTask s)) _invokeTask base z specs
  /\ _cancelTask (_zoneDelegate z)
     = nearest (fun s => isSome (onCancelTask s)) _cancelTask base z specs.
Proof.
  intros Hb Hbase Hc. split.
  { pose proof (hasTask_iff_counting _ _ _ Hb) as Hh. rewrite Hc in Hh.
    by destruct (tZS _). }
  repeat split; apply nearest_task_hook; try done;
    intros id p s z' Hnew Hno;
    destruct (Zone_new_child_tasks id p s) as (z'' & Hz'' & Hz);
    rewrite Hnew in Hz''; injection Hz'' as <-;
    rewrite Hno in Hz; by destruct Hz as (_ & _ & ? & ? & ?).
Qed.

(** X4: [Zone.root], reached from a zone by following [parent], is the
    last zone of its parent chain, has no parent, and is the same from
    every zone of that chain. *)
Theorem root_is_top_of_chain (z : Zone) :
  _parent (rootOf z) = None
  /\ last (chain z) = Some (rootOf z)
  /\ forall a, a ∈ chain z -> rootOf a = rootOf z.
Proof.
  induction z as [id nm props d | id p nm props d (IH1 & IH2 & IH3)]
    using Zone_parent_ind.
  - repeat split. intros a Ha. apply list_elem_of_singleton in Ha. by subst.
  - split; [exact IH1|]. split.
    + change (chain (mkZone id (Some p) nm props d))
        with (mkZone id (Some p) nm props d :: chain p).
      rewrite last_cons, IH2. done.
    + intros a Ha.
      change (chain (mkZone id (Some p) nm props d))
        with (mkZone id (Some p) nm props d :: chain p) in Ha.
      apply elem_of_cons in Ha as [->|Ha]; [done|].
      change (rootOf (mkZone id (Some p) nm props d)) with (rootOf p).
      by apply IH3.
Qed.





(** X6: [zone.fork(spec)] without a spec throws [ZoneSpec required!];
    with one, below a delegate without fork hook, it calls the [onFork]
    of the nearest zone on the parent chain whose spec defines it, with
    the delegate of that zone's parent and with the forking zone as both
    current and target zone; and where no spec defines [onFork], it
    builds the child itself, whose parent is the forking zone. *)
Theorem fork_resolves_onFork (base z : Zone) (specs : list ZoneSpec)
    (id : nat) (zs : ZoneSpec) :
  BuiltFrom base z specs ->
  zd_zone (_zoneDelegate base) = zid base ->
  tZS (_fork (_zoneDelegate base)) = None ->
  Zone_fork z id None = inl (EError "ZoneSpec required!")
  /\ match list_find (fun s => onFork s = true) specs with
     | Some (k, s) =>
         Zone_fork z id (Some zs)
         = inr (ForkHook s (zid <$> chain z !! S k) (zid z) (zid z) zs)
     | None =>
         exists child,
           Zone_fork z id (Some zs) = inr (Forked (Some child))
           /\ _parent child = Some z
           /\ zid child = id
           /\ BuiltFrom base child (zs :: specs)
     end.
Proof.
  intros Hb Hbase Hnone. split; [done|].
  pose proof (fork_entry_is_nearest base z specs Hb Hbase) as Hf.
  pose proof (BuiltFrom_zd_zone _ _ _ Hb Hbase) as Hzd.
  unfold Zone_fork, ZoneDelegate_fork. rewrite Hf. unfold nearest.
  destruct (list_find _ specs) as [[k s]|]; simpl.
  - by rewrite Hzd.
  - assert (tZS match specs with
                | [] => _fork (_zoneDelegate base)
                | _ :: _ =>
                    {| tZS := tZS (_fork (_zoneDelegate base));
                       tDlgt := tDlgt (_fork (_zoneDelegate base));
                       tCurrZone := zid <$> chain z !! 1%nat |}
                end = None) as -> by (by destruct specs).
    destruct (Zone_new_child id z zs) as (c & Hc & Hid & Hpar & _).
    exists c. rewrite Hc. repeat split; try done.
    by eapply BuiltFrom_child.
Qed.

End Building.

(** ** Entry checks of [runTask] and [cancelTask] *)

Section EntryChecks.

Variable zones : list Zone.
Variable call : Code -> M Val.

Lemma sameZone_false tz this :
  sameZone tz this = false <-> tz <> Some (zid this).
Proof.
  rewrite <- (sameZone_true tz this). by destruct (sameZone tz this).
Qed.

(** X7: [runTask] checks before it changes anything.  A task of another
    zone is refused with the zone-of-creation error; an event task that is
    [notScheduled] is skipped and [undefined] returned; and any other task
    that is neither [scheduled] nor [running] is refused by the transition
    to [running]; in all three cases no state is changed, in particular
    [runCount], the current task and the zone frame. *)
Theorem runTask_checks_before_running (n : nat) (this : Zone) (task : nat)
    (tk : ZoneTask) (w : World) :
  tasks w !! task = Some tk ->
  (_zone tk <> Some (zid this) ->
   Zone_runTask zones n call this task w
   = (Throw (EError (wrongZoneMsg zones "run" tk this)), w))
  /\ (_zone tk = Some (zid this) ->
      _state tk = notScheduled -> type tk = eventTask ->
      Zone_runTask zones n call this task w = (Ok VUndefined, w))
  /\ (_zone tk = Some (zid this) ->
      _state tk <> scheduled -> _state tk <> running ->
      ~ (_state tk = notScheduled /\ type tk = eventTask) ->
      Zone_runTask zones n call this task w
      = (Throw (EError (transitionMsg tk running scheduled None)), w)).
Proof.
  intros Ht. unfold Zone_runTask.
  erewrite bind_Ok by (by apply getTask_Some).
  split; [|split].
  - intros Hz. apply sameZone_false in Hz. by rewrite Hz.
  - intros Hz Hs Hty. apply sameZone_true in Hz. rewrite Hz, Hs, Hty. done.
  - intros Hz Hs Hr Hev. apply sameZone_true in Hz. rewrite Hz. simpl.
    assert (TaskState_eqb (_state tk) notScheduled
            && TaskType_eqb (type tk) eventTask = false) as ->.
    { apply not_true_is_false. intros [H1 H2]%andb_true_iff.
      apply Hev. split; [by apply TaskState_eqb_eq|].
      by destruct (type tk). }
    assert (TaskState_eqb (_state tk) running = false) as ->
      by (by destruct (_state tk)).
    simpl. apply bind_Throw. unfold runTask_enter.
    apply bind_Throw. apply transitionTo_Throw; [done|].
    unfold stateIs. by destruct (_state tk).
Qed.

(** X8: [cancelTask] checks before it changes anything: a task of another
    zone is refused with the zone-of-creation error, and a task of this
    zone that is neither [scheduled] nor [running] is refused by the
    transition to [canceling]; the state is left as it was, and neither
    the cancel hook nor [cancelFn] is called. *)
Theorem cancelTask_checks_before_cancelling (n : nat) (this : Zone)
    (task : nat) (tk : ZoneTask) (w : World) :
  tasks w !! task = Some tk ->
  (_zone tk <> Some (zid this) ->
   Zone_cancelTask zones n call this task w
   = (Throw (EError (wrongZoneMsg zones "cancelled" tk this)), w))
  /\ (_zone tk = Some (zid this) ->
      _state tk <> scheduled -> _state tk <> running ->
      Zone_cancelTask zones n call this task w
      = (Throw (EError (transitionMsg tk canceling scheduled (Some running))),
         w)).
Proof.
  intros Ht. unfold Zone_cancelTask.
  erewrite bind_Ok by (by apply getTask_Some).
  split.
  - intros Hz. apply sameZone_false in Hz. by rewrite Hz.
  - intros Hz Hs Hr. apply sameZone_true in Hz. rewrite Hz. simpl.
    apply bind_Throw. apply transitionTo_Throw; [done|].
    unfold stateIs. by destruct (_state tk).
Qed.

End EntryChecks.

(** ** [cancelTask] *)

Section CancelTask.

Variable zones : list Zone.
Variable call : Code -> M Val.

Lemma cancelTask_to_canceling (this : Zone) (task : nat) (tk : ZoneTask)
    (n : nat) (w : World) :
  tasks w !! task = Some tk ->
  _zone tk = Some (zid this) ->
  _state tk = scheduled \/ _state tk = running ->
  Zone_cancelTask zones n call this task w
  = (try_catch
       (ZoneDelegate_cancelTask call (_zoneDelegate this) (zid this) task;;
        ret tt)
       (fun err =>
          ZoneTask__transitionTo task unknown canceling None;;
          ZoneDelegate_handleError call (_zoneDelegate this) (zid this) err;;
          throw err);;
     Zone__updateTaskCount zones n call this task (-1);;
     ZoneTask__transitionTo task notScheduled canceling None;;
     updTask task (with_runCount 0);;
     ret (VTask task))
      (putTask task (with_state canceling tk) w).
Proof.
  intros Ht Hz Hs. unfold Zone_cancelTask.
  erewrite bind_Ok by (by apply getTask_Some).
  apply sameZone_true in Hz. rewrite Hz. simpl.
  erewrite bind_Ok
    by (apply transitionTo_Ok;
        [done | unfold stateIs; by destruct Hs as [-> | ->]]).
  reflexivity.
Qed.

Lemma cancelTask_counted_out (n : nat) (this : Zone) (task : nat)
    (tk tk2 : ZoneTask) (v : Val) (a : nat) (ds : list nat) (w w2 : World) :
  tasks w !! task = Some tk ->
  _zone tk = Some (zid this) ->
  _state tk = scheduled \/ _state tk = running ->
  ZoneDelegate_cancelTask call (_zoneDelegate this) (zid this) task
    (putTask task (with_state canceling tk) w) = (Ok v, w2) ->
  tasks w2 !! task = Some tk2 ->
  _state tk2 = canceling ->
  _zoneDelegates tk2 = Some a ->
  arrays w2 !! a = Some (Some <$> ds) ->
  resolves zones ds ->
  quietHasTask call zones ds ->
  bumpable ds (type tk2) (-1) (taskCounts w2) = true ->
  (length ds < n)%nat ->
  exists w3 tk3,
    Zone_cancelTask zones n call this task w = (Ok (VTask task), w3)
    /\ tasks w3 !! task = Some tk3
    /\ _state tk3 = notScheduled
    /\ runCount tk3 = 0
    /\ _zoneDelegates tk3 = None
    /\ taskCounts w3 = bumpAll ds (type tk2) (-1) (taskCounts w2)
    /\ _microTaskQueue w3 = _microTaskQueue w2.
Proof.
  intros Ht Hz Hs Hcancel Ht2 Hs2 Hzd Ha Hres Hq Hb Hn.
  rewrite (cancelTask_to_canceling this task tk n w Ht Hz Hs).
  erewrite bind_Ok; cycle 1.
  { apply try_catch_Ok. by erewrite bind_Ok by exact Hcancel. }
  destruct (Zone__updateTaskCount_quiet zones call n this task tk2 (-1) a ds
              w2 Ht2 Hzd Ha Hres Hq Hb Hn) as [tr Hu].
  simpl in Hu. erewrite bind_Ok by exact Hu.
  set (wU := set_trace tr _).
  assert (tasks wU !! task = Some (with_zoneDelegates None tk2)) as HtU.
  { unfold wU. simpl. apply list_lookup_insert_eq. by eapply lookup_lt_Some. }
  erewrite bind_Ok; cycle 1.
  { apply transitionTo_Ok; [exact HtU|].
    unfold stateIs. simpl. by rewrite Hs2. }
  erewrite bind_Ok
    by (eapply updTask_Some; by eapply tasks_putTask_eq).
  rewrite putTask_putTask.
  eexists _, _. split; [reflexivity|].
  split; [by eapply tasks_putTask_eq|]. done.
Qed.

(** X9: cancelling a task of this zone that is [scheduled] or [running],
    when the cancel hook or [cancelFn] returns and leaves the task
    [canceling] and holding its [zoneDelegates] list, when the [hasTask]
    notifications of the delegates on that list return normally and only
    observe, and when no counter of the task's type would go below zero:
    the task is counted out once for each entry of the list, loses the
    list, becomes [notScheduled] with [runCount = 0], and is returned;
    the microtask queue is not touched. *)
Theorem cancelTask_counts_out (n : nat) (this : Zone) (task : nat)
    (tk tk2 : ZoneTask) (v : Val) (a : nat) (ds : list nat) (w w2 : World) :
  tasks w !! task = Some tk ->
  _zone tk = Some (zid this) ->
  _state tk = scheduled \/ _state tk = running ->
  ZoneDelegate_cancelTask call (_zoneDelegate this) (zid this) task
    (putTask task (with_state canceling tk) w) = (Ok v, w2) ->
  tasks w2 !! task = Some tk2 ->
  _state tk2 = canceling ->
  _zoneDelegates tk2 = Some a ->
  arrays w2 !! a = Some (Some <$> ds) ->
  resolves zones ds ->
  quietHasTask call zones ds ->
  bumpable ds (type tk2) (-1) (taskCounts w2) = true ->
  (length ds < n)%nat ->
  exists w3 tk3,
    Zone_cancelTask zones n call this task w = (Ok (VTask task), w3)
    /\ tasks w3 !! task = Some tk3
    /\ _state tk3 = notScheduled
    /\ runCount tk3 = 0
    /\ _zoneDelegates tk3 = None
    /\ taskCounts w3 = bumpAll ds (type tk2) (-1) (taskCounts w2)
    /\ _microTaskQueue w3 = _microTaskQueue w2.
Proof. apply cancelTask_counted_out. Qed.

(** X10: when the cancel hook or [cancelFn] throws, or when there is
    neither hook nor [cancelFn] (the error is then [Task is not
    cancelable]), [cancelTask] moves the task to [unknown], hands the
    error to [handleError] and throws it again whatever [handleError]
    answers; the task is not counted out and keeps its [zoneDelegates]
    list. *)
Theorem cancelTask_failure_leaves_task_counted (n : nat) (this : Zone)
    (task : nat) (tk tk2 : ZoneTask) (err : Err) (h : Val)
    (w w2 w3 : World) :
  tasks w !! task = Some tk ->
  _zone tk = Some (zid this) ->
  _state tk = scheduled \/ _state tk = running ->
  ZoneDelegate_cancelTask call (_zoneDelegate this) (zid this) task
    (putTask task (with_state canceling tk) w) = (Throw err, w2) ->
  tasks w2 !! task = Some tk2 ->
  _state tk2 = canceling ->
  ZoneDelegate_handleError call (_zoneDelegate this) (zid this) err
    (putTask task (with_state unknown tk2) w2) = (Ok h, w3) ->
  Zone_cancelTask zones n call this task w = (Throw err, w3)
  /\ taskCounts (putTask task (with_state unknown tk2) w2) = taskCounts w2
  /\ (tZS (_cancelTask (_zoneDelegate this)) = None ->
      cancelFn tk = None ->
      err = EError "Task is not cancelable"
      /\ w2 = putTask task (with_state canceling tk) w
      /\ tk2 = with_state canceling tk
      /\ _zoneDelegates (with_state unknown tk2) = _zoneDelegates tk).
Proof.
  intros Ht Hz Hs Hcancel Ht2 Hs2 Hhandle.
  split; [|split; [done|]].
  - rewrite (cancelTask_to_canceling this task tk n w Ht Hz Hs).
    apply bind_Throw.
    erewrite try_catch_Throw by (by apply bind_Throw).
    erewrite bind_Ok; cycle 1.
    { apply transitionTo_Ok; [exact Ht2|].
      unfold stateIs. by rewrite Hs2. }
    by erewrite bind_Ok by exact Hhandle.
  - intros Hnone Hcf.
    assert (tasks (putTask task (with_state canceling tk) w) !! task
            = Some (with_state canceling tk)) as Ht1
      by (by eapply tasks_putTask_eq).
    unfold ZoneDelegate_cancelTask in Hcancel. rewrite Hnone in Hcancel.
    erewrite bind_Ok in Hcancel by (by apply getTask_Some).
    simpl in Hcancel. rewrite Hcf in Hcancel.
    injection Hcancel as <- <-.
    rewrite Ht1 in Ht2. injection Ht2 as <-. done.
Qed.

End CancelTask.

(** ** [scheduleTask] *)

Section ScheduleTask.

Variable zones : list Zone.
Variable call : Code -> M Val.

Lemma scheduleTask_phases (n : nat) (this : Zone) (task : nat)
    (tk : ZoneTask) (returned : Val) (w w2 : World) :
  tasks w !! task = Some tk ->
  _state tk = notScheduled ->
  rescheduleCheck zones this tk w = (Ok tt, w) ->
  scheduleTask_dispatch call this task (scheduleTask_bound this task tk w)
  = (Ok returned, w2) ->
  Zone_scheduleTask zones n call this task w
  = scheduleTask_finish zones n call this (length (arrays w)) returned w2.
Proof.
  intros Ht Hs Hguard Hdisp. unfold Zone_scheduleTask.
  erewrite bind_Ok by (by apply getTask_Some).
  erewrite bind_Ok by exact Hguard.
  unfold scheduleTask_proceed.
  erewrite bind_Ok by (by apply scheduleTask_bind_notScheduled).
  by erewrite bind_Ok by exact Hdisp.
Qed.

Lemma scheduleTask_default_microtask (n : nat) (this : Zone) (task : nat)
    (tk : ZoneTask) (w : World) :
  tasks w !! task = Some tk ->
  _state tk = notScheduled ->
  type tk = microTask ->
  scheduleFn tk = None ->
  rescheduleCheck zones this tk w = (Ok tt, w) ->
  tZS (_scheduleTask (_zoneDelegate this)) = None ->
  exists w',
    Zone_scheduleTask zones (S n) call this task w = (Ok (VTask task), w')
    /\ _microTaskQueue w' = _microTaskQueue w ++ [task]
    /\ tasks w'
       = <[task := with_state scheduled
                    (with_zone (Some (zid this))
                       (with_zoneDelegates (Some (length (arrays w)))
                          tk))]> (tasks w)
    /\ taskCounts w' = taskCounts w
    /\ trace w'
       = trace w
         ++ (if (_numberOfNestedTaskFrames w =? 0)
                && Nat.eqb (length (_microTaskQueue w)) 0
             then [EvArmDrain] else [])
         ++ [EvEnqueue task].
Proof.
  intros Ht Hs Hty Hsf Hguard Hnone.
  set (tkB := with_zone (Some (zid this))
                (with_zoneDelegates (Some (length (arrays w)))
                   (with_state scheduling tk))).
  assert (tasks (scheduleTask_bound this task tk w) !! task = Some tkB)
    as HtB by (by eapply tasks_putTask_eq).
  set (arm := (_numberOfNestedTaskFrames w =? 0)
              && Nat.eqb (length (_microTaskQueue w)) 0).
  set (w2 := add_event (EvEnqueue task)
               (set_queue (_microTaskQueue w ++ [task])
                  ((if arm then add_event EvArmDrain else id)
                     (scheduleTask_bound this task tk w)))).
  assert (scheduleTask_dispatch call this task
            (scheduleTask_bound this task tk w) = (Ok (VTask task), w2))
    as Hdisp.
  { unfold scheduleTask_dispatch. apply try_catch_Ok.
    unfold ZoneDelegate_scheduleTask. rewrite Hnone.
    erewrite bind_Ok by (by apply getTask_Some).
    simpl. rewrite Hsf, Hty. simpl.
    unfold scheduleMicroTask, bind, get_world, modify, emit, ret. simpl.
    fold arm. unfold w2. by destruct arm. }
  rewrite (scheduleTask_phases (S n) this task tk (VTask task) w w2
             Ht Hs Hguard Hdisp).
  assert (tasks w2 !! task = Some tkB) as Ht2
    by (unfold w2; by destruct arm).
  assert (arrays w2 !! length (arrays w) = Some []) as Ha2.
  { unfold w2. destruct arm; simpl;
      by rewrite lookup_app_r, Nat.sub_diag by lia. }
  unfold scheduleTask_finish.
  unfold bind at 1. unfold bind at 1. unfold get_world at 1.
  rewrite Ht2. simpl _zoneDelegates. simpl optNat_eqb.
  rewrite Nat.eqb_refl.
  assert (Zone__updateTaskCount zones (S n) call this task 1 w2 = (Ok tt, w2))
    as Hu.
  { unfold Zone__updateTaskCount.
    erewrite bind_Ok by (by apply getTask_Some).
    simpl. unfold bind, ret, get_world. by rewrite Ha2. }
  unfold bind at 1. rewrite Hu.
  unfold bind at 1. unfold get_world at 1. rewrite Ht2. simpl.
  erewrite transitionTo_Ok; [|exact Ht2|done].
  eexists. split; [reflexivity|].
  unfold w2.
  destruct arm; simpl; rewrite list_insert_insert_eq, <- ?app_assoc; done.
Qed.

(** X11: in a zone whose delegate has no [scheduleTask] hook, scheduling a
    [notScheduled] microtask that has no [scheduleFn] and that the guard
    at the head of [scheduleTask] lets through (the task is not owned by
    a proper ancestor of the zone) puts it at the end of the microtask
    queue, binds it to the zone and leaves it [scheduled]; the host
    trigger is armed exactly when no task frame is open and the queue was
    empty; no task counter changes. *)
Theorem scheduleTask_enqueues_microtask (n : nat) (this : Zone) (task : nat)
    (tk : ZoneTask) (w : World) :
  tasks w !! task = Some tk ->
  _state tk = notScheduled ->
  type tk = microTask ->
  scheduleFn tk = None ->
  rescheduleCheck zones this tk w = (Ok tt, w) ->
  tZS (_scheduleTask (_zoneDelegate this)) = None ->
  exists w',
    Zone_scheduleTask zones (S n) call this task w = (Ok (VTask task), w')
    /\ _microTaskQueue w' = _microTaskQueue w ++ [task]
    /\ tasks w'
       = <[task := with_state scheduled
                    (with_zone (Some (zid this))
                       (with_zoneDelegates (Some (length (arrays w)))
                          tk))]> (tasks w)
    /\ taskCounts w' = taskCounts w
    /\ trace w'
       = trace w
         ++ (if (_numberOfNestedTaskFrames w =? 0)
                && Nat.eqb (length (_microTaskQueue w)) 0
             then [EvArmDrain] else [])
         ++ [EvEnqueue task].
Proof. apply scheduleTask_default_microtask. Qed.

(** X12: [scheduleTask] goes by the task the delegate hands back.  When
    that task is no longer bound to the list made by this call and is not
    [scheduling], as after [cancelScheduleRequest] in a hook, it is
    returned as it is: not counted, and not moved to [scheduled]. *)
Theorem scheduleTask_leaves_cancelled_request (n : nat) (this : Zone)
    (task task' : nat) (tk tk' : ZoneTask) (w w2 : World) :
  tasks w !! task = Some tk ->
  _state tk = notScheduled ->
  rescheduleCheck zones this tk w = (Ok tt, w) ->
  scheduleTask_dispatch call this task (scheduleTask_bound this task tk w)
  = (Ok (VTask task'), w2) ->
  tasks w2 !! task' = Some tk' ->
  _zoneDelegates tk' <> Some (length (arrays w)) ->
  _state tk' <> scheduling ->
  Zone_scheduleTask zones n call this task w = (Ok (VTask task'), w2).
Proof.
  intros Ht Hs Hguard Hdisp Ht' Hzd Hst.
  rewrite (scheduleTask_phases n this task tk (VTask task') w w2
             Ht Hs Hguard Hdisp).
  unfold scheduleTask_finish, bind, get_world, ret. rewrite Ht'.
  assert (optNat_eqb (_zoneDelegates tk') (Some (length (arrays w))) = false)
    as ->.
  { destruct (_zoneDelegates tk') as [a|]; [|done]. simpl.
    apply Nat.eqb_neq. congruence. }
  rewrite Ht'.
  assert (TaskState_eqb (_state tk') scheduling = false) as ->
    by (by destruct (_state tk')).
  done.
Qed.

Lemma rescheduleCheck_unbound (this : Zone) (tk : ZoneTask) (w : World) :
  _zone tk = None -> rescheduleCheck zones this tk w = (Ok tt, w).
Proof. unfold rescheduleCheck. by intros ->. Qed.

(** X16: [zone.scheduleMicroTask(source, callback, data)] without a
    custom scheduler, in a zone whose delegate has no [scheduleTask] hook,
    always succeeds: it returns the new task, which is [scheduled], bound
    to the zone and last in the microtask queue; no counter changes. *)
Theorem scheduleMicroTask_enqueues_new_task (n : nat) (this : Zone)
    (source : string) (callback : Code) (data : option TaskData)
    (w : World) :
  tZS (_scheduleTask (_zoneDelegate this)) = None ->
  exists w',
    Zone_scheduleMicroTask zones (S n) call this source callback data None w
    = (Ok (VTask (length (tasks w))), w')
    /\ _microTaskQueue w' = _microTaskQueue w ++ [length (tasks w)]
    /\ tasks w'
       = tasks w
         ++ [with_state scheduled
               (with_zone (Some (zid this))
                  (with_zoneDelegates (Some (length (arrays w)))
                     (ZoneTask_new microTask source callback data None
                        None)))]
    /\ taskCounts w' = taskCounts w.
Proof.
  intros Hnone. unfold Zone_scheduleMicroTask, bind at 1, allocTask.
  set (tk := ZoneTask_new microTask source callback data None None).
  set (wa := set_tasks _ w).
  assert (tasks wa !! length (tasks w) = Some tk) as Ht.
  { unfold wa. simpl. by rewrite lookup_app_r, Nat.sub_diag by lia. }
  destruct (scheduleTask_default_microtask n this (length (tasks w)) tk wa)
    as (w' & Hr & Hq & Hts & Hc & _); try done.
  exists w'. split; [exact Hr|]. split; [exact Hq|]. split; [|exact Hc].
  rewrite Hts. unfold wa. simpl.
  rewrite insert_app_r_alt by lia. by rewrite Nat.sub_diag.
Qed.

Lemma scheduleTask_missing_scheduleFn (n : nat) (this : Zone) (task : nat)
    (tk : ZoneTask) (w : World) :
  tasks w !! task = Some tk ->
  _state tk = notScheduled ->
  _zone tk = None ->
  type tk <> microTask ->
  scheduleFn tk = None ->
  tZS (_scheduleTask (_zoneDelegate this)) = None ->
  tZS (_handleError (_zoneDelegate this)) = None ->
  Zone_scheduleTask zones n call this task w
  = (Throw (EError "Task is missing scheduleFn."),
     putTask task
       (with_state unknown
          (with_zone (Some (zid this))
             (with_zoneDelegates (Some (length (arrays w)))
                (with_state scheduling tk))))
       (scheduleTask_bound this task tk w)).
Proof.
  intros Ht Hs Hz Hty Hsf Hnone Hnoerr.
  set (tkB := with_zone (Some (zid this))
                (with_zoneDelegates (Some (length (arrays w)))
                   (with_state scheduling tk))).
  assert (tasks (scheduleTask_bound this task tk w) !! task = Some tkB)
    as HtB by (by eapply tasks_putTask_eq).
  unfold Zone_scheduleTask.
  erewrite bind_Ok by (by apply getTask_Some).
  erewrite bind_Ok by (by apply rescheduleCheck_unbound).
  unfold scheduleTask_proceed.
  erewrite bind_Ok by (by apply scheduleTask_bind_notScheduled).
  apply bind_Throw. unfold scheduleTask_dispatch.
  erewrite try_catch_Throw; cycle 1.
  { unfold ZoneDelegate_scheduleTask. rewrite Hnone.
    erewrite bind_Ok by (by apply getTask_Some).
    simpl. rewrite Hsf.
    assert (TaskType_eqb (type tk) microTask = false) as ->
      by (by destruct (type tk)).
    reflexivity. }
  erewrite bind_Ok by (by apply transitionTo_Ok).
  unfold ZoneDelegate_handleError. rewrite Hnoerr. reflexivity.
Qed.

Lemma schedule_without_scheduleFn (n : nat) (this : Zone)
    (source : string) (callback : Code) (data : option TaskData)
    (customCancel : option (nat -> Code)) (ty : TaskType) (w : World) :
  tZS (_scheduleTask (_zoneDelegate this)) = None ->
  tZS (_handleError (_zoneDelegate this)) = None ->
  ty <> microTask ->
  exists w',
    (let* task := allocTask (ZoneTask_new ty source callback data None
                               customCancel) in
     Zone_scheduleTask zones n call this task) w
    = (Throw (EError "Task is missing scheduleFn."), w')
    /\ tasks w'
       = tasks w
         ++ [with_state unknown
               (with_zone (Some (zid this))
                  (with_zoneDelegates (Some (length (arrays w)))
                     (ZoneTask_new ty source callback data None
                        customCancel)))]
    /\ taskCounts w' = taskCounts w
    /\ _microTaskQueue w' = _microTaskQueue w.
Proof.
  intros Hnone Hnoerr Hty.
  set (tk := ZoneTask_new ty source callback data None customCancel).
  set (wa := set_tasks (fun ts => ts ++ [tk]) w).
  assert (tasks wa !! length (tasks w) = Some tk) as Ht.
  { unfold wa. simpl. by rewrite lookup_app_r, Nat.sub_diag by lia. }
  pose proof (scheduleTask_missing_scheduleFn n this (length (tasks w)) tk wa
                Ht eq_refl eq_refl Hty eq_refl Hnone Hnoerr) as Hr.
  eexists. split; [exact Hr|].
  split; [|done]. unfold wa. simpl.
  rewrite list_insert_insert_eq.
  rewrite insert_app_r_alt by lia. by rewrite Nat.sub_diag.
Qed.

(** X17: [zone.scheduleMacroTask] and [zone.scheduleEventTask] without a
    custom scheduler, in a zone whose delegate has neither a
    [scheduleTask] nor a [handleError] hook, always throw [Task is
    missing scheduleFn.]; the task made for the call is left [unknown],
    bound to the zone, and uncounted. *)
Theorem scheduleMacroTask_needs_scheduleFn (n : nat) (this : Zone)
    (source : string) (callback : Code) (data : option TaskData)
    (customCancel : option (nat -> Code)) (w : World) :
  tZS (_scheduleTask (_zoneDelegate this)) = None ->
  tZS (_handleError (_zoneDelegate this)) = None ->
  (exists w',
     Zone_scheduleMacroTask zones n call this source callback data None
       customCancel w
     = (Throw (EError "Task is missing scheduleFn."), w')
     /\ tasks w'
        = tasks w
          ++ [with_state unknown
                (with_zone (Some (zid this))
                   (with_zoneDelegates (Some (length (arrays w)))
                      (ZoneTask_new macroTask source callback data None
                         customCancel)))]
     /\ taskCounts w' = taskCounts w
     /\ _microTaskQueue w' = _microTaskQueue w)
  /\ (exists w',
        Zone_scheduleEventTask zones n call this source callback data None
          customCancel w
        = (Throw (EError "Task is missing scheduleFn."), w')
        /\ tasks w'
           = tasks w
             ++ [with_state unknown
                   (with_zone (Some (zid this))
                      (with_zoneDelegates (Some (length (arrays w)))
                         (ZoneTask_new eventTask source callback data None
                            customCancel)))]
        /\ taskCounts w' = taskCounts w
        /\ _microTaskQueue w' = _microTaskQueue w).
Proof.
  intros Hnone Hnoerr.
  split; by apply schedule_without_scheduleFn.
Qed.

(** X18: a task in state [unknown] stays there: [runTask], [cancelTask]
    and [scheduleTask] of any zone, and [cancelScheduleRequest], all throw
    on it and change nothing. *)
Theorem unknown_task_is_stuck (n : nat) (this : Zone) (task : nat)
    (tk : ZoneTask) (w : World) :
  tasks w !! task = Some tk ->
  _state tk = unknown ->
  (exists e, Zone_runTask zones n call this task w = (Throw e, w))
  /\ (exists e, Zone_cancelTask zones n call this task w = (Throw e, w))
  /\ (exists e, Zone_scheduleTask zones n call this task w = (Throw e, w))
  /\ (exists e, ZoneTask_cancelScheduleRequest task w = (Throw e, w)).
Proof.
  intros Ht Hs.
  assert (forall to f1 f2,
            f1 <> unknown -> f2 <> Some unknown ->
            ZoneTask__transitionTo task to f1 f2 w
            = (Throw (EError (transitionMsg tk to f1 f2)), w)) as Htr.
  { intros to f1 f2 H1 H2. apply transitionTo_Throw; [done|].
    unfold stateIs. rewrite Hs.
    destruct f1; try done; destruct f2 as [[]|]; done. }
  split; [|split; [|split]].
  - unfold Zone_runTask. erewrite bind_Ok by (by apply getTask_Some).
    destruct (negb (sameZone (_zone tk) this)); [by eexists|].
    rewrite Hs. simpl. eexists. apply bind_Throw.
    unfold runTask_enter. apply bind_Throw. by apply Htr.
  - unfold Zone_cancelTask. erewrite bind_Ok by (by apply getTask_Some).
    destruct (negb (sameZone (_zone tk) this)); [by eexists|].
    eexists. apply bind_Throw. by apply Htr.
  - unfold Zone_scheduleTask. erewrite bind_Ok by (by apply getTask_Some).
    unfold rescheduleCheck.
    destruct (_zone tk) as [tz|];
      [destruct (negb (tz =? zid this)%nat && onParentChain this tz);
       [by eexists|]|];
      (erewrite bind_Ok by reflexivity;
       eexists; unfold scheduleTask_proceed, scheduleTask_bind;
       apply bind_Throw, bind_Throw; by apply Htr).
  - eexists. unfold ZoneTask_cancelScheduleRequest. by apply Htr.
Qed.

End ScheduleTask.

(** ** [ZoneDelegate.hasTask] and the static [ZoneTask.invokeTask] *)

Section HasTaskInvokeTask.

Variable zones : list Zone.
Variable call : Code -> M Val.

(** X13: [ZoneDelegate.hasTask] without a cached [onHasTask] calls
    nothing; an error thrown by the hook is handed to [handleError] and
    then dropped, whatever [handleError] answers, so that [hasTask]
    returns normally; only an error thrown by [handleError] itself leaves
    [hasTask]. *)
Theorem hasTask_swallows_hook_errors (d : ZoneDelegate) (targetZone : nat)
    (isEmpty : HasTaskState) (w : World) :
  let w0 := add_event (EvHasTask (zd_zone d) targetZone isEmpty) w in
  (tZS (_hasTask d) = None ->
   ZoneDelegate_hasTask call d targetZone isEmpty w = (Ok tt, w0))
  /\ (forall zs h err w1,
        tZS (_hasTask d) = Some zs ->
        onHasTask zs = Some h ->
        call (h (tDlgt (_hasTask d)) (tCurrZone (_hasTask d)) targetZone
                isEmpty) w0 = (Throw err, w1) ->
        (forall v w2,
            ZoneDelegate_handleError call d targetZone err w1 = (Ok v, w2) ->
            ZoneDelegate_hasTask call d targetZone isEmpty w = (Ok tt, w2))
        /\ (forall err2 w2,
              ZoneDelegate_handleError call d targetZone err w1
              = (Throw err2, w2) ->
              ZoneDelegate_hasTask call d targetZone isEmpty w
              = (Throw err2, w2))).
Proof.
  intros w0. unfold ZoneDelegate_hasTask, hasTask_dispatch.
  split.
  - intros ->. reflexivity.
  - intros zs h err w1 Hzs Hh Hhook. rewrite Hzs, Hh.
    split.
    + intros v w2 Hhandle.
      unfold bind at 1, emit, modify. fold w0.
      erewrite try_catch_Throw by (by apply bind_Throw).
      by erewrite bind_Ok by exact Hhandle.
    + intros err2 w2 Hhandle.
      unfold bind at 1, emit, modify. fold w0.
      erewrite try_catch_Throw by (by apply bind_Throw).
      by apply bind_Throw.
Qed.

(** X14: the static [ZoneTask.invokeTask] drains the microtask queue
    exactly when the task it ran was the outermost one, and does so too
    when the task threw; in every case the counter of nested task frames
    is taken down by one before the outcome of the task is passed on. *)
Theorem invokeTask_drains_when_outermost (n : nat) (task : nat)
    (tk : ZoneTask) (r : Res Val) (w w2 : World) :
  tasks w !! task = Some tk ->
  runInOwnZone zones n call task (invokeTask_entered task tk w) = (r, w2) ->
  r <> Diverge ->
  (_numberOfNestedTaskFrames w2 <> 1 ->
   ZoneTask_invokeTask zones n call task w
   = (r, set_nested (_numberOfNestedTaskFrames w2 - 1) w2))
  /\ (_numberOfNestedTaskFrames w2 = 1 ->
      forall w3,
        drainMicroTaskQueue zones n call w2 = (Ok tt, w3) ->
        ZoneTask_invokeTask zones n call task w
        = (r, set_nested (_numberOfNestedTaskFrames w3 - 1) w3)).
Proof.
  intros Ht Hrun Hr. unfold ZoneTask_invokeTask.
  unfold bind at 1, modify.
  set (w1 := set_nested _ w).
  assert (tasks w1 !! task = Some tk) as Ht1 by done.
  assert ((getTask task;;
           updTask task (fun tk => with_runCount (runCount tk + 1) tk);;
           runInOwnZone zones n call task) w1 = (r, w2)) as Hbody.
  { erewrite bind_Ok by (by apply getTask_Some).
    erewrite bind_Ok by (by apply updTask_Some).
    exact Hrun. }
  assert (forall w3,
            (if _numberOfNestedTaskFrames w2 =? 1
             then drainMicroTaskQueue zones n call else ret tt) w2
            = (Ok tt, w3) ->
            try_finally
              (getTask task;;
               updTask task (fun tk => with_runCount (runCount tk + 1) tk);;
               runInOwnZone zones n call task)
              (let* w := get_world in
               (if _numberOfNestedTaskFrames w =? 1
                then drainMicroTaskQueue zones n call else ret tt);;
               modify (fun w =>
                         set_nested (_numberOfNestedTaskFrames w - 1) w)) w1
            = (r, set_nested (_numberOfNestedTaskFrames w3 - 1) w3)) as Hfin.
  { intros w3 Hd.
    assert ((let* w := get_world in
             (if _numberOfNestedTaskFrames w =? 1
              then drainMicroTaskQueue zones n call else ret tt);;
             modify (fun w =>
                       set_nested (_numberOfNestedTaskFrames w - 1) w)) w2
            = (Ok tt, set_nested (_numberOfNestedTaskFrames w3 - 1) w3))
      as Hf.
    { unfold bind at 1, get_world. by erewrite bind_Ok by exact Hd. }
    destruct r as [a|e|].
    - by eapply try_finally_Ok.
    - by eapply try_finally_Throw.
    - done. }
  split.
  - intros Hne. apply Z.eqb_neq in Hne. apply Hfin. by rewrite Hne.
  - intros Hone w3 Hdrain. apply Hfin. by rewrite Hone.
Qed.

End HasTaskInvokeTask.

(** ** Which hook a call reaches *)

Section Dispatch.

Variable zones : list Zone.

Lemma invoke_entry_is_nearest base z specs :
  BuiltFrom base z specs ->
  zd_zone (_zoneDelegate base) = zid base ->
  _invoke (_zoneDelegate z)
  = nearest (fun s => isSome (onInvoke s)) _invoke base z specs
  /\ _handleError (_zoneDelegate z)
     = nearest (fun s => isSome (onHandleError s)) _handleError base z specs.
Proof.
  intros Hb Hbase.
  split; apply nearest_generic; try done;
    intros id p s z' Hnew;
    destruct (Zone_new_child id p s)
      as (z'' & Hz'' & _ & _ & _ & _ & _ & H3 & H4);
    rewrite Hnew in Hz''; by injection Hz'' as <-.
Qed.

Lemma nearest_None has sel base z specs :
  list_find (fun s => has s = true) specs = None ->
  tZS (sel (_zoneDelegate base)) = None ->
  tZS (nearest has sel base z specs) = None.
Proof. unfold nearest. intros -> Hn. by destruct specs. Qed.

(** X19: in a zone made by successive forks from a zone without
    [onInvoke] and [onHandleError] hooks, [ZoneDelegate.invoke] calls the
    [onInvoke] of the nearest spec on the way that defines it, handing it
    the delegate of the parent of the zone that spec was given to, and
    calls the callback itself when no spec defines it; [handleError]
    likewise calls the nearest [onHandleError], and answers [true] when
    there is none. *)
Theorem calls_reach_nearest_hook (call : Code -> M Val) (base z : Zone)
    (specs : list ZoneSpec) (target : nat) :
  BuiltFrom base z specs ->
  zd_zone (_zoneDelegate base) = zid base ->
  tZS (_invoke (_zoneDelegate base)) = None ->
  tZS (_handleError (_zoneDelegate base)) = None ->
  match list_find (fun s => isSome (onInvoke s) = true) specs with
  | Some (k, s) =>
      exists h,
        onInvoke s = Some h
        /\ forall cb,
             ZoneDelegate_invoke call (_zoneDelegate z) target cb
             = call (h (zid <$> chain z !! S k)
                       (zid <$> chain z !! (if k is O then O else 1%nat))
                       target cb)
  | None =>
      forall cb,
        ZoneDelegate_invoke call (_zoneDelegate z) target cb = call cb
  end
  /\ match list_find (fun s => isSome (onHandleError s) = true) specs with
     | Some (k, s) =>
         exists h,
           onHandleError s = Some h
           /\ forall err,
                ZoneDelegate_handleError call (_zoneDelegate z) target err
                = call (h (zid <$> chain z !! S k)
                          (zid <$> chain z !! (if k is O then O else 1%nat))
                          target err)
     | None =>
         forall err,
           ZoneDelegate_handleError call (_zoneDelegate z) target err
           = ret (VBool true)
     end.
Proof.
  intros Hb Hbase Hi He.
  destruct (invoke_entry_is_nearest base z specs Hb Hbase) as [Hinv Herr].
  split.
  - destruct (list_find _ specs) as [[k s]|] eqn:Hf.
    + pose proof Hf as Hf2. apply list_find_Some in Hf2 as (_ & Hs & _).
      destruct (onInvoke s) as [h|] eqn:Hh; [|done].
      exists h. split; [done|]. intros cb.
      unfold ZoneDelegate_invoke. rewrite Hinv. unfold nearest.
      rewrite Hf. simpl. by rewrite Hh.
    + intros cb. unfold ZoneDelegate_invoke.
      by rewrite Hinv, nearest_None.
  - destruct (list_find _ specs) as [[k s]|] eqn:Hf.
    + pose proof Hf as Hf2. apply list_find_Some in Hf2 as (_ & Hs & _).
      destruct (onHandleError s) as [h|] eqn:Hh; [|done].
      exists h. split; [done|]. intros err.
      unfold ZoneDelegate_handleError. rewrite Herr. unfold nearest.
      rewrite Hf. simpl. by rewrite Hh.
    + intros err. unfold ZoneDelegate_handleError.
      by rewrite Herr, nearest_None.
Qed.

(** X20: a delegate that counts tasks only because a zone above it does
    (its own spec defines no task hook) is transparent to the task hooks:
    its [invokeTask] and [cancelTask] are those of its parent's delegate,
    and its [scheduleTask] is that of its parent's delegate after the
    delegate has put itself on the task's [zoneDelegates] list. *)
Theorem counting_delegate_forwards (n : nat) (base p z : Zone)
    (specs : list ZoneSpec) (id : nat) (s : ZoneSpec) (target task : nat) :
  BuiltFrom base p specs ->
  Zone_new id (Some p) (Some s) = Some z ->
  counting base (s :: specs) = true ->
  zones !! zd_zone (_zoneDelegate p) = Some p ->
  (onInvokeTask s = None ->
   forall w,
     ZoneDelegate_invokeTask (exec zones (S n)) (_zoneDelegate z) target task w
     = ZoneDelegate_invokeTask (exec zones n) (_zoneDelegate p) target task w)
  /\ (onCancelTask s = None ->
      forall w,
        ZoneDelegate_cancelTask (exec zones (S n)) (_zoneDelegate z) target
          task w
        = ZoneDelegate_cancelTask (exec zones n) (_zoneDelegate p) target
            task w)
  /\ (onScheduleTask s = None ->
      forall w tk a l,
        tasks w !! task = Some tk ->
        _zoneDelegates tk = Some a ->
        arrays w !! a = Some l ->
        ZoneDelegate_scheduleTask (exec zones (S n)) (_zoneDelegate z) target
          task w
        = (let* returned :=
             ZoneDelegate_scheduleTask (exec zones n) (_zoneDelegate p)
               target task in
           ret (if truthy returned then returned else VTask task))
            (set_arrays (fun arrs => <[a := l ++ [Some id]]> arrs) w)).
Proof.
  intros Hp Hnew Hc Hz.
  destruct (counted_child base p z specs id s Hp Hnew Hc)
    as (Ho & Hh & Hs & Hi & Hcn).
  assert (forall w, getDelegate zones (zd_zone (_zoneDelegate p)) w
                    = (Ok (_zoneDelegate p), w)) as Hd.
  { intros w. unfold getDelegate, getZone. by rewrite Hz. }
  split; [|split].
  - intros Hnone w. unfold ZoneDelegate_invokeTask at 1.
    rewrite Hi. unfold countedTriple. rewrite Hnone. simpl.
    by erewrite bind_Ok by apply Hd.
  - intros Hnone w. unfold ZoneDelegate_cancelTask at 1.
    rewrite Hcn. unfold countedTriple. rewrite Hnone. simpl.
    by erewrite bind_Ok by apply Hd.
  - intros Hnone w tk a l Ht Ha Hl. unfold ZoneDelegate_scheduleTask at 1.
    rewrite Hs, Hh, Ho. unfold countedTriple. rewrite Hnone. simpl.
    assert (pushArray a (Some id) w
            = (Ok tt, set_arrays (fun arrs => <[a := l ++ [Some id]]> arrs) w))
      as Hpush.
    { unfold pushArray, modify, set_arrays. by rewrite Hl. }
    erewrite bind_Ok; cycle 1.
    { erewrite bind_Ok by (by apply getTask_Some). rewrite Ha.
      exact Hpush. }
    unfold bind at 1. unfold bind at 1.
    rewrite Hd. reflexivity.
Qed.

End Dispatch.

(** ** The zone stack and the count of open task frames

    Whatever user code does, it pops no frame it did not push and closes
    no task frame it did not open. *)

Section StackDiscipline.

Lemma sg_refl w : stackGrows w w.
Proof. split; [done | lia]. Qed.

Lemma sg_trans w1 w2 w3 : stackGrows w1 w2 -> stackGrows w2 w3 -> stackGrows w1 w3.
Proof. intros [? ?] [? ?]. split; [by etrans | lia]. Qed.

Lemma sg_tasks f w : stackGrows w (set_tasks f w).
Proof. split; [unfold stack; simpl; done | simpl; lia]. Qed.

Lemma sg_arrays f w : stackGrows w (set_arrays f w).
Proof. split; [unfold stack; simpl; done | simpl; lia]. Qed.

Lemma sg_taskCounts f w : stackGrows w (set_taskCounts f w).
Proof. split; [unfold stack; simpl; done | simpl; lia]. Qed.

Lemma sg_currentTask t w : stackGrows w (set_currentTask t w).
Proof. split; [unfold stack; simpl; done | simpl; lia]. Qed.

Lemma sg_event e w : stackGrows w (add_event e w).
Proof. split; [unfold stack; simpl; done | simpl; lia]. Qed.

Lemma sg_log s w : stackGrows w (add_event (EvLog s) w).
Proof. split; [unfold stack; simpl; done | simpl; lia]. Qed.

Lemma sg_hasTask z t st w : stackGrows w (add_event (EvHasTask z t st) w).
Proof. split; [unfold stack; simpl; done | simpl; lia]. Qed.

Lemma sg_enqueue t : preserves stackGrows (scheduleMicroTask t).
Proof.
  intros w r w'. unfold scheduleMicroTask, bind, get_world, emit, modify, ret.
  destruct (_ && _); intros [= _ <-];
    (split; [unfold stack; simpl; done | simpl; lia]).
Qed.

Lemma inFrame_push z w : inFrame z w (set_frame (Some (mkFrame (_currentZoneFrame w) z)) w).
Proof. split; [done | simpl; lia]. Qed.

Lemma inFrame_step z w w1 w2 :
  inFrame z w w1 -> stackGrows w1 w2 -> inFrame z w w2.
Proof. intros [? ?] [? ?]. split; [by etrans | lia]. Qed.

Lemma inFrame_grows z w w1 : inFrame z w w1 -> stackGrows w w1.
Proof.
  intros [Hs ?]. split; [|done].
  etrans; [|exact Hs]. by apply suffix_cons_r.
Qed.

Lemma stack_pop w top :
  _currentZoneFrame w = Some top ->
  stack w = f_zone top :: stack (set_frame (f_parent top) w).
Proof. unfold stack. intros ->. by destruct top. Qed.

Lemma inFrame_pop z w w1 r w2 :
  inFrame z w w1 -> popFrame w1 = (r, w2) -> stackGrows w w2.
Proof.
  intros Hin. unfold popFrame.
  destruct (_currentZoneFrame w1) as [top|] eqn:Hf; intros [= _ <-];
    [|by eapply inFrame_grows].
  destruct Hin as [Hs Hn]. split; [|done].
  rewrite (stack_pop w1 top Hf) in Hs.
  apply suffix_cons_inv in Hs as [Heq | Hs]; [|by eapply suffix_cons_l].
  by injection Heq as _ <-.
Qed.

Local Ltac sg_side :=
  first [ exact sg_refl | exact sg_trans | exact sg_tasks | exact sg_arrays
        | exact sg_taskCounts | exact sg_hasTask | exact sg_log
        | exact sg_enqueue | assumption ].

Local Ltac sg_step :=
  match goal with
  | |- preserves _ (ret _) => apply (pres_ret stackGrows sg_refl)
  | |- preserves _ (throw _) => apply (pres_throw stackGrows sg_refl)
  | |- preserves _ (typeError _) => apply (pres_typeError stackGrows sg_refl)
  | |- preserves _ diverge => apply (pres_diverge stackGrows sg_refl)
  | |- preserves _ get_world => apply (pres_get_world stackGrows sg_refl)
  | |- preserves _ (bind _ _) => apply (pres_bind stackGrows sg_trans); [|intro]
  | |- preserves _ (try_catch _ _) =>
      apply (pres_try_catch stackGrows sg_trans); [|intro]
  | |- preserves _ (try_finally _ _) =>
      apply (pres_try_finally stackGrows sg_trans)
  | |- preserves _ (getTask _) => apply (pres_getTask stackGrows sg_refl)
  | |- preserves _ (updTask _ _) => apply (pres_updTask stackGrows sg_tasks)
  | |- preserves _ (allocTask _) => apply (pres_allocTask stackGrows sg_tasks)
  | |- preserves _ (emit _) => apply pres_modify; intro; apply sg_event
  | |- preserves _ (modify (set_currentTask _)) =>
      apply pres_modify; intro; apply sg_currentTask
  | |- preserves _ (modify (set_queue _)) =>
      apply pres_modify; intro;
      (split; [unfold stack; simpl; done | simpl; lia])
  | |- preserves _ (modify (set_draining _)) =>
      apply pres_modify; intro;
      (split; [unfold stack; simpl; done | simpl; lia])
  | |- preserves _ (ZoneTask__transitionTo _ _ _ _) =>
      apply (pres_transitionTo stackGrows sg_refl sg_trans sg_tasks)
  | |- preserves _ (ZoneTask_cancelScheduleRequest _) =>
      apply (pres_cancelScheduleRequest stackGrows sg_refl sg_trans sg_tasks)
  | |- preserves _ (getZone _ _) => apply (pres_getZone stackGrows sg_refl)
  | |- preserves _ (getDelegate _ _) =>
      apply (pres_getDelegate stackGrows sg_refl sg_trans)
  | |- preserves _ (ZoneDelegate_invoke _ _ _ _) =>
      apply (pres_invoke stackGrows); sg_side
  | |- preserves _ (ZoneDelegate_handleError _ _ _ _) =>
      apply (pres_handleError stackGrows); sg_side
  | |- preserves _ (ZoneDelegate_scheduleTask _ _ _ _) =>
      apply (pres_dlg_scheduleTask stackGrows); sg_side
  | |- preserves _ (ZoneDelegate_invokeTask _ _ _ _) =>
      apply (pres_dlg_invokeTask stackGrows); sg_side
  | |- preserves _ (ZoneDelegate_cancelTask _ _ _ _) =>
      apply (pres_dlg_cancelTask stackGrows); sg_side
  | |- preserves _ (ZoneDelegate_hasTask _ _ _ _) =>
      apply (pres_hasTask stackGrows); sg_side
  | |- preserves _ (Zone__updateTaskCount _ _ _ _ _ _) =>
      apply (pres_Zone_updateTaskCount stackGrows); sg_side
  | |- preserves _ (Zone_scheduleTask _ _ _ _ _) =>
      apply (pres_scheduleTask stackGrows); sg_side
  | |- preserves _ (Zone_cancelTask _ _ _ _ _) =>
      apply (pres_cancelTask stackGrows); sg_side
  | |- preserves _ (if ?b then _ else _) => destruct b
  | |- preserves _ (match ?x with _ => _ end) => destruct x
  end.

Section WithCall.

Variable zones : list Zone.
Variable call : Code -> M Val.
Hypothesis Hcall : forall c, preserves stackGrows (call c).

(** A bracket [push; try { m } finally { pop }]. *)
Lemma sg_bracket {A} z (m : M A) :
  preserves stackGrows m ->
  preserves stackGrows (pushFrame z;; try_finally m popFrame).
Proof.
  intros Hm w r w'. unfold bind, pushFrame, modify, try_finally.
  pose proof (inFrame_push z w) as Hin.
  set (w1 := set_frame _ w) in *.
  destruct (m w1) as [r1 w2] eqn:E.
  pose proof (inFrame_step z w w1 w2 Hin (Hm _ _ _ E)) as Hin2.
  destruct r1 as [a|e|]; [| |intros [= _ <-]; by eapply inFrame_grows];
    destruct (popFrame w2) as [[[]|e'|] w3] eqn:P; intros [= _ <-];
    by eapply inFrame_pop.
Qed.

Lemma sg_run this cb : preserves stackGrows (Zone_run call this cb).
Proof. unfold Zone_run. apply sg_bracket. sg_step. Qed.

Lemma sg_runGuarded this cb :
  preserves stackGrows (Zone_runGuarded call this cb).
Proof.
  unfold Zone_runGuarded. apply sg_bracket.
  unfold runGuarded_body. repeat sg_step.
Qed.

Lemma sg_runTask_settle n this task g :
  preserves stackGrows (runTask_settle zones n call this task g).
Proof. unfold runTask_settle. repeat sg_step. Qed.

Lemma sg_runTask_body this task :
  preserves stackGrows (runTask_body call this task).
Proof. unfold runTask_body. repeat sg_step. Qed.

Lemma sg_runTask_enter this task g w r w1 :
  runTask_enter this task g w = (r, w1) ->
  match r with
  | Ok _ => inFrame (zid this) w w1
  | _ => stackGrows w w1
  end.
Proof.
  unfold runTask_enter.
  set (A := if g then ZoneTask__transitionTo task running scheduled None
            else ret tt).
  set (same := fun w w' : World =>
                 stack w' = stack w
                 /\ _numberOfNestedTaskFrames w'
                    = _numberOfNestedTaskFrames w).
  assert (forall w, same w w) as same_refl by done.
  assert (forall w1 w2 w3, same w1 w2 -> same w2 w3 -> same w1 w3)
    as same_trans by (intros ??? [? ?] [? ?]; split; congruence).
  assert (forall f w, same w (set_tasks f w)) as same_tasks by done.
  assert (preserves same
            (A;; updTask task (fun tk => with_runCount (runCount tk + 1) tk)))
    as Hpre.
  { apply (pres_bind same same_trans); [|intro; by apply pres_updTask].
    unfold A. destruct g; [by apply pres_transitionTo | by apply pres_ret]. }
  assert (forall w', same w w' -> stackGrows w w') as Hsame.
  { intros w' [Hs Hn]. split; [by rewrite Hs | lia]. }
  unfold bind at 1.
  destruct (A w) as [[[]|e|] w0] eqn:E0.
  - unfold bind at 1.
    destruct (updTask task _ w0) as [[[]|e|] w0'] eqn:E1.
    + assert (same w w0') as [Hs Hn].
      { eapply Hpre. unfold bind. rewrite E0. exact E1. }
      unfold bind, get_world, modify, pushFrame, ret. simpl.
      intros [= <- <-]. split; [|simpl; lia].
      unfold stack at 2. simpl. fold (stack w0'). by rewrite Hs.
    + intros [= <- <-]. apply Hsame. eapply Hpre. unfold bind.
      by rewrite E0, E1.
    + intros [= <- <-]. apply Hsame. eapply Hpre. unfold bind.
      by rewrite E0, E1.
  - intros [= <- <-]. apply Hsame. eapply Hpre. unfold bind. by rewrite E0.
  - intros [= <- <-]. apply Hsame. eapply Hpre. unfold bind. by rewrite E0.
Qed.

Lemma sg_runTask_unwind n this task g prev z w w2 r w3 :
  inFrame z w w2 ->
  runTask_unwind zones n call this task g prev w2 = (r, w3) ->
  stackGrows w w3.
Proof.
  intros Hin. unfold runTask_unwind. unfold bind at 1.
  destruct (runTask_settle zones n call this task g w2) as [rs ws] eqn:E.
  pose proof (inFrame_step z w w2 ws Hin (sg_runTask_settle _ _ _ _ _ _ _ E))
    as Hin2.
  destruct rs as [[]|e|]; [|intros [= _ <-]; by eapply inFrame_grows..].
  unfold bind at 1.
  destruct (popFrame ws) as [[[]|e|] wp] eqn:P;
    [|intros [= _ <-]; by eapply inFrame_pop..].
  unfold modify. intros [= _ <-].
  eapply sg_trans; [by eapply inFrame_pop | apply sg_currentTask].
Qed.

Lemma sg_runTask n this task :
  preserves stackGrows (Zone_runTask zones n call this task).
Proof.
  intros w r w'. unfold Zone_runTask. unfold bind at 1.
  destruct (getTask task w) as [[tk|e|] w0] eqn:G;
    pose proof (pres_getTask stackGrows sg_refl task _ _ _ G) as Hg;
    [|intros [= _ <-]; done..].
  assert (w0 = w) as ->.
  { unfold getTask in G. by destruct (tasks w !! task); injection G. }
  destruct (negb (sameZone (_zone tk) this)); [intros [= _ <-]; done|].
  destruct (_ && _); [intros [= _ <-]; done|].
  unfold bind at 1.
  destruct (runTask_enter this task _ w) as [re w1] eqn:E.
  pose proof (sg_runTask_enter _ _ _ _ _ _ E) as He.
  destruct re as [prev|e|]; [|intros [= _ <-]; done..].
  unfold try_finally.
  destruct (runTask_body call this task w1) as [rb w2] eqn:B.
  pose proof (inFrame_step _ _ _ _ He (sg_runTask_body _ _ _ _ _ B)) as Hin2.
  destruct rb as [a|e|]; [| |intros [= _ <-]; by eapply inFrame_grows];
    destruct (runTask_unwind zones n call this task _ prev w2)
      as [[[]|e'|] w3] eqn:U; intros [= _ <-];
    by eapply sg_runTask_unwind.
Qed.

Lemma sg_runInOwnZone n task :
  preserves stackGrows (runInOwnZone zones n call task).
Proof.
  unfold runInOwnZone. repeat sg_step; apply sg_runTask.
Qed.

Lemma sg_drainPass n queue :
  preserves stackGrows (drainPass zones n call queue).
Proof.
  induction queue as [|task rest IH]; simpl; [sg_step|].
  unfold onUnhandledError.
  repeat first [ apply sg_runInOwnZone | exact IH | sg_step ].
Qed.

Lemma sg_drainLoop n k : preserves stackGrows (drainLoop zones n call k).
Proof.
  induction k as [|k IH]; simpl; [sg_step|].
  repeat first [ apply sg_drainPass | exact IH | apply sg_runInOwnZone
               | progress unfold onUnhandledError | sg_step ].
Qed.

Lemma sg_drain n : preserves stackGrows (drainMicroTaskQueue zones n call).
Proof.
  unfold drainMicroTaskQueue, microtaskDrainDone.
  repeat first [ apply sg_drainLoop | sg_step ].
Qed.

Lemma sg_invokeTask n task :
  preserves stackGrows (ZoneTask_invokeTask zones n call task).
Proof.
  intros w r w'. unfold ZoneTask_invokeTask. unfold bind at 1, modify.
  set (w1 := set_nested _ w).
  assert (preserves stackGrows
            (getTask task;;
             updTask task (fun tk => with_runCount (runCount tk + 1) tk);;
             runInOwnZone zones n call task)) as Hbody
    by (repeat first [ apply sg_runInOwnZone | sg_step ]).
  unfold try_finally.
  destruct ((getTask task;; _) w1) as [rb w2] eqn:B.
  apply Hbody in B as [Hs Hn]. simpl in Hs, Hn.
  assert (stackGrows w w2) as Hg2 by (split; [done | lia]).
  destruct rb as [a|e|]; [| |intros [= _ <-]; done].
  all: unfold bind at 1, get_world; unfold bind at 1;
    destruct ((if _numberOfNestedTaskFrames w2 =? 1
               then drainMicroTaskQueue zones n call else ret tt) w2)
      as [rd w3] eqn:D;
    assert (stackGrows w2 w3) as [Hs3 Hn3]
      by (destruct (_ =? 1);
          [by eapply sg_drain | by injection D as _ <-; apply sg_refl]);
    destruct rd as [[]|e'|]; unfold modify; intros [= _ <-];
    (split; [by etrans | simpl; lia]).
Qed.

End WithCall.

Lemma exec_stackGrows zones n : forall c, preserves stackGrows (exec zones n c).
Proof.
  induction n as [|n IH]; intros c; simpl;
    [apply (pres_diverge stackGrows sg_refl)|].
  destruct c;
    repeat first
      [ match goal with
        | |- preserves _ (exec _ _ _) => apply IH
        | |- preserves _ (Zone_run _ _ _) => by apply sg_run
        | |- preserves _ (Zone_runGuarded _ _ _) => by apply sg_runGuarded
        | |- preserves _ (Zone_runTask _ _ _ _ _) => by apply sg_runTask
        | |- preserves _ (ZoneTask_invokeTask _ _ _ _) =>
            by apply sg_invokeTask
        | |- preserves _ (drainMicroTaskQueue _ _ _) => by apply sg_drain
        end
      | sg_step ].
Qed.

(** X15: whatever user code does (nested [run], [runGuarded], [runTask],
    task thunks, scheduling, cancelling, draining, hooks calling their
    parent delegate, errors thrown anywhere), when it stops the stack of
    zone frames it was started with is still there, under the frames it
    may have left pushed, and the count of open task frames is not below
    what it was; the same holds for each entry point of the API given
    such user code. *)
Theorem user_code_pops_no_foreign_frame (zones : list Zone) (n m : nat)
    (w w' : World) :
  (forall c r, exec zones n c w = (r, w') -> stackGrows w w')
  /\ (forall this cb r,
        Zone_run (exec zones n) this cb w = (r, w') -> stackGrows w w')
  /\ (forall this cb r,
        Zone_runGuarded (exec zones n) this cb w = (r, w') ->
        stackGrows w w')
  /\ (forall this task r,
        Zone_runTask zones m (exec zones n) this task w = (r, w') ->
        stackGrows w w')
  /\ (forall task r,
        ZoneTask_invokeTask zones m (exec zones n) task w = (r, w') ->
        stackGrows w w')
  /\ (forall r,
        drainMicroTaskQueue zones m (exec zones n) w = (r, w') ->
        stackGrows w w').
Proof.
  pose proof (exec_stackGrows zones n) as Hexec.
  split; [|split; [|split; [|split; [|split]]]]; intros.
  - by eapply Hexec.
  - by eapply sg_run.
  - by eapply sg_runGuarded.
  - by eapply sg_runTask.
  - by eapply sg_invokeTask.
  - by eapply sg_drain.
Qed.

End StackDiscipline.

(** ** Round trips and equivalences *)

Section RoundTrips.

Variable zones : list Zone.
Variable call : Code -> M Val.

(** X21: while the microtask queue is being drained, a call of
    [drainMicroTaskQueue] does nothing at all, and nothing user code does
    clears the flag or takes a task off the queue: it can only push tasks
    at its end. *)
Theorem drain_is_not_reentrant (n m : nat) (w : World) :
  _isDrainingMicrotaskQueue w = true ->
  drainMicroTaskQueue zones n call w = (Ok tt, w)
  /\ forall c r w',
       exec zones m c w = (r, w') ->
       _isDrainingMicrotaskQueue w' = true
       /\ exists new, _microTaskQueue w' = _microTaskQueue w ++ new.
Proof.
  intros Hf. split.
  - unfold drainMicroTaskQueue, bind, get_world. by rewrite Hf.
  - intros c r w' Hexec.
    destruct (exec_onlyEnqueues zones m c w r w' Hexec Hf)
      as (Hf' & new & Hq & _).
    split; [done|]. by exists new.
Qed.

(** X23: scheduling a [notScheduled] task that the guard lets through
    and then cancelling it, when the delegate hands the task back still
    [scheduling] and bound to the list made by the call, no counter of
    the task's type is negative before the task is counted in, the
    [hasTask] notifications of the delegates on the list return normally
    and only observe, and the cancel hook or [cancelFn] leaves the task,
    the lists and the counters alone: the task ends [notScheduled] with
    [runCount = 0], and every counter is back at the value it had before
    the task was counted in. *)
Theorem schedule_then_cancel_is_neutral (n : nat) (this : Zone) (task : nat)
    (tk tkS : ZoneTask) (ds : list nat) (w ws : World) :
  tasks w !! task = Some tk ->
  _state tk = notScheduled ->
  rescheduleCheck zones this tk w = (Ok tt, w) ->
  scheduleTask_dispatch call this task (scheduleTask_bound this task tk w)
  = (Ok (VTask task), ws) ->
  tasks ws !! task = Some tkS ->
  _state tkS = scheduling ->
  _zone tkS = Some (zid this) ->
  _zoneDelegates tkS = Some (length (arrays w)) ->
  arrays ws !! length (arrays w) = Some (Some <$> ds) ->
  resolves zones ds ->
  quietHasTask call zones ds ->
  (length ds < n)%nat ->
  (forall d, 0 <= getCount (countsOf ws d) (type tkS)) ->
  exists wS,
    Zone_scheduleTask zones n call this task w = (Ok (VTask task), wS)
    /\ tasks wS !! task = Some (with_state scheduled tkS)
    /\ (forall d,
          getCount (countsOf wS d) (type tkS)
          = getCount (countsOf ws d) (type tkS)
            + Z.of_nat (count_occ Nat.eq_dec ds d))
    /\ forall v w2,
         let w1 := putTask task (with_state canceling tkS) wS in
         ZoneDelegate_cancelTask call (_zoneDelegate this) (zid this) task w1
         = (Ok v, w2) ->
         tasks w2 !! task = tasks w1 !! task ->
         arrays w2 = arrays w1 ->
         taskCounts w2 = taskCounts w1 ->
         exists w3 tk3,
           Zone_cancelTask zones n call this task wS = (Ok (VTask task), w3)
           /\ tasks w3 !! task = Some tk3
           /\ _state tk3 = notScheduled
           /\ runCount tk3 = 0
           /\ forall d, countsOf w3 d = countsOf ws d.
Proof.
  intros Htask Hstate Hguard Hdisp HtS HsS HzS HaS Harr Hres Hq Hn Hnn.
  destruct (scheduleTask_finish_counts zones call n this task tkS
              (length (arrays w)) ds ws HtS HaS HsS Harr Hres Hq)
    as [tr Hfin]; [by apply bumpable_inc | done |].
  set (wS := putTask task (with_state scheduled tkS) _) in Hfin.
  assert (tasks wS !! task = Some (with_state scheduled tkS)) as HtwS.
  { unfold wS. simpl. apply list_lookup_insert_eq. by eapply lookup_lt_Some. }
  exists wS. split; [|split; [exact HtwS|split]].
  - rewrite (scheduleTask_phases zones call n this task tk (VTask task) w ws
               Htask Hstate Hguard Hdisp).
    exact Hfin.
  - intros d. unfold countsOf.
    change (taskCounts wS !! d)
      with (bumpAll ds (type tkS) 1 (taskCounts ws) !! d).
    rewrite bumpAll_lookup, getCount_setCount. lia.
  - intros v w2 w1 Hcancel Htasks Harrs Hcounts.
    assert (tasks w2 !! task = Some (with_state canceling tkS)) as Ht2.
    { rewrite Htasks. unfold w1. by eapply tasks_putTask_eq. }
    destruct (cancelTask_counted_out zones call n this task
                (with_state scheduled tkS) (with_state canceling tkS) v
                (length (arrays w)) ds wS w2)
      as (w3 & tk3 & Hr & Ht3 & Hs3 & Hc3 & _ & Hcounts3 & _);
      [exact HtwS | exact HzS | by left | exact Hcancel | exact Ht2 | done
      | exact HaS | | exact Hres | exact Hq | | exact Hn |].
    + rewrite Harrs. unfold w1, wS. simpl. exact Harr.
    + apply bumpable_dec. intros d. rewrite Hcounts. unfold w1. simpl.
      change (taskCounts wS !! d)
        with (bumpAll ds (type tkS) 1 (taskCounts ws) !! d).
      rewrite bumpAll_lookup, getCount_setCount.
      specialize (Hnn d). unfold countsOf in Hnn. lia.
    + exists w3, tk3. split; [exact Hr|]. split; [exact Ht3|].
      split; [exact Hs3|]. split; [exact Hc3|].
      intros d. unfold countsOf. rewrite Hcounts3, Hcounts.
      unfold w1. simpl.
      change (taskCounts wS) with (bumpAll ds (type tkS) 1 (taskCounts ws)).
      apply bumpAll_round_trip.
Qed.

End RoundTrips.

(** ** Examples for the further properties *)

Section BuildingExamples.

Import ExHooks.

Lemma built_I : BuiltFrom root I [specI].
Proof. by eapply BuiltFrom_child; [apply BuiltFrom_base|]. Qed.

Lemma built_J : BuiltFrom root J [Ex.plainSpec "J"; specI].
Proof. by eapply BuiltFrom_child; [apply built_I|]. Qed.

Lemma built_K : BuiltFrom root K [specK; Ex.plainSpec "J"; specI].
Proof. by eapply BuiltFrom_child; [apply built_J|]. Qed.

Lemma built_L :
  BuiltFrom root L [Ex.plainSpec "L"; specK; Ex.plainSpec "J"; specI].
Proof. by eapply BuiltFrom_child; [apply built_K|]. Qed.

(** [L] finds [onInvoke] three zones up, in [I]: the hook gets [root]'s
    delegate and, as current zone, [K]. *)
Lemma delegate_caches_nearest_hook_witness :
  _invoke (_zoneDelegate L)
  = {| tZS := Some specI; tDlgt := Some 0%nat; tCurrZone := Some 3%nat |}
  /\ _fork (_zoneDelegate L)
     = {| tZS := Some specK; tDlgt := Some 2%nat; tCurrZone := Some 3%nat |}.
Proof.
  destruct (delegate_caches_nearest_hook root L _ built_L eq_refl)
    as (Hf & _ & Hi & _).
  rewrite Hi, Hf. split; reflexivity.
Defined.

(** [L], forked below [K] whose spec defines [onHasTask], counts tasks
    itself and forwards the task hooks with [DELEGATE_ZS]. *)
Lemma ref_counting_reaches_descendants_witness :
  _hasTaskDlgtOwner (_zoneDelegate L) = Some 4%nat
  /\ _scheduleTask (_zoneDelegate L)
     = {| tZS := Some DELEGATE_ZS; tDlgt := Some 3%nat;
          tCurrZone := Some 4%nat |}.
Proof.
  destruct (ref_counting_reaches_descendants root K L _ 4 (Ex.plainSpec "L")
              built_K eq_refl eq_refl) as (Ho & _ & Hs & _).
  rewrite Ho, Hs. split; reflexivity.
Defined.

(** [J], above [K], does not count tasks and has no task hook. *)
Lemma task_hooks_short_circuit_without_counting_witness :
  tZS (_hasTask (_zoneDelegate J)) = None
  /\ tZS (_scheduleTask (_zoneDelegate J)) = None.
Proof.
  destruct (task_hooks_short_circuit_without_counting root J _ built_J
              eq_refl eq_refl) as (Hh & Hs & _).
  rewrite Hh, Hs. split; reflexivity.
Defined.

End BuildingExamples.

Section ForkExamples.

Import ExHooks.


(** [J.fork] builds the child itself; [L.fork] goes to [onFork] of [K]. *)
Lemma fork_resolves_onFork_witness :
  (exists child, Zone_fork J 5 (Some (Ex.plainSpec "M"))
                 = inr (Forked (Some child)) /\ _parent child = Some J)
  /\ Zone_fork L 5 (Some (Ex.plainSpec "M"))
     = inr (ForkHook specK (Some 2%nat) 4 4 (Ex.plainSpec "M")).
Proof.
  split.
  - destruct (fork_resolves_onFork root J _ 5 (Ex.plainSpec "M") built_J
                eq_refl eq_refl) as (_ & child & Hc & Hp & _).
    by exists child.
  - by destruct (fork_resolves_onFork root L _ 5 (Ex.plainSpec "M") built_L
                   eq_refl eq_refl) as (_ & ->).
Defined.

End ForkExamples.

Section TaskExamples.

Import Ex ExTasks.

Local Abbreviation run20 := (exec Ex.zones 20).

(** The cancelled task of [A] is refused by [B], and by [A] itself since
    it is [notScheduled]. *)
Lemma runTask_checks_before_running_witness :
  Zone_runTask Ex.zones 20 run20 B 0 wOwnedByA
  = (Throw (EError "A task can only be run in the zone of creation! (Creation: A; Execution: B)"),
     wOwnedByA)
  /\ Zone_runTask Ex.zones 20 run20 A 0 wOwnedByA
     = (Throw (EError "macroTask 't': can not transition to 'running', expecting state 'scheduled', was 'notScheduled'."),
        wOwnedByA).
Proof.
  split.
  - destruct (runTask_checks_before_running Ex.zones run20 20 B 0
                (taskAt wOwnedByA 0) wOwnedByA) as (H1 & _);
      [vm_compute; reflexivity|].
    rewrite H1; [vm_compute; reflexivity | vm_compute; congruence].
  - destruct (runTask_checks_before_running Ex.zones run20 20 A 0
                (taskAt wOwnedByA 0) wOwnedByA) as (_ & _ & H3);
      [vm_compute; reflexivity|].
    rewrite H3; [vm_compute; reflexivity | vm_compute; reflexivity
                | vm_compute; congruence | vm_compute; congruence
                | vm_compute; intros [_ ?]; congruence].
Defined.

Lemma cancelTask_checks_before_cancelling_witness :
  Zone_cancelTask Ex.zones 20 run20 B 0 wOwnedByA
  = (Throw (EError "A task can only be cancelled in the zone of creation! (Creation: A; Execution: B)"),
     wOwnedByA)
  /\ Zone_cancelTask Ex.zones 20 run20 A 0 wOwnedByA
     = (Throw (EError "macroTask 't': can not transition to 'canceling', expecting state 'scheduled' or 'running', was 'notScheduled'."),
        wOwnedByA).
Proof.
  destruct (cancelTask_checks_before_cancelling Ex.zones run20 20 B 0
              (taskAt wOwnedByA 0) wOwnedByA) as (H1 & _);
    [vm_compute; reflexivity|].
  destruct (cancelTask_checks_before_cancelling Ex.zones run20 20 A 0
              (taskAt wOwnedByA 0) wOwnedByA) as (_ & H2);
    [vm_compute; reflexivity|].
  split.
  - rewrite H1; [vm_compute; reflexivity | vm_compute; congruence].
  - rewrite H2; [vm_compute; reflexivity | vm_compute; reflexivity
                | vm_compute; congruence | vm_compute; congruence].
Defined.

(** Cancelling the macrotask scheduled in [H] counts it out of [H]. *)
Lemma cancelTask_counts_out_witness :
  getCount (countsOf wMacroInH 3) macroTask = 1
  /\ exists w3 tk3,
       Zone_cancelTask Ex.zones 20 run20 H 0 wMacroInH = (Ok (VTask 0), w3)
       /\ tasks w3 !! 0%nat = Some tk3
       /\ _state tk3 = notScheduled
       /\ runCount tk3 = 0
       /\ getCount (countsOf w3 3) macroTask = 0.
Proof.
  split; [vm_compute; reflexivity|].
  set (tk := taskAt wMacroInH 0).
  set (X := ZoneDelegate_cancelTask run20 (_zoneDelegate H) (zid H) 0
              (putTask 0 (with_state canceling tk) wMacroInH)).
  destruct (cancelTask_counts_out Ex.zones run20 20 H 0 tk (taskAt (snd X) 0)
              VUndefined 0 [3%nat] wMacroInH (snd X))
    as (w3 & tk3 & Hr & Ht & Hs & Hc & _ & Hn & _);
    [vm_compute; reflexivity | vm_compute; reflexivity
    | left; vm_compute; reflexivity | vm_compute; reflexivity
    | vm_compute; reflexivity | vm_compute; reflexivity
    | vm_compute; reflexivity | vm_compute; reflexivity
    | apply H_resolves | apply H_quietHasTask
    | vm_compute; reflexivity | vm_compute; lia |].
  exists w3, tk3. repeat (split; [done|]).
  unfold countsOf. rewrite Hn. vm_compute. reflexivity.
Defined.

(** A microtask has no [cancelFn]: cancelling it fails and leaves it
    [unknown]. *)
Lemma cancelTask_failure_leaves_task_counted_witness :
  exists w3,
    Zone_cancelTask Ex.zones 20 run20 A 0 wMicroInA
    = (Throw (EError "Task is not cancelable"), w3)
    /\ _state (taskAt w3 0) = unknown.
Proof.
  set (tk := taskAt wMicroInA 0).
  set (w1 := putTask 0 (with_state canceling tk) wMicroInA).
  set (wU := putTask 0 (with_state unknown (with_state canceling tk)) w1).
  destruct (cancelTask_failure_leaves_task_counted Ex.zones run20 20 A 0 tk
              (with_state canceling tk) (EError "Task is not cancelable")
              (VBool true) wMicroInA w1 wU) as (Hr & _);
    [vm_compute; reflexivity | vm_compute; reflexivity
    | left; vm_compute; reflexivity | vm_compute; reflexivity
    | vm_compute; reflexivity | vm_compute; reflexivity
    | vm_compute; reflexivity |].
  exists wU. split; [exact Hr | vm_compute; reflexivity].
Defined.

(** The first microtask scheduled from outside any task arms the host
    trigger and is queued. *)
Lemma scheduleTask_enqueues_microtask_witness :
  exists w',
    Zone_scheduleTask Ex.zones 20 run20 A 0 wMicroNew = (Ok (VTask 0), w')
    /\ _microTaskQueue w' = [0%nat]
    /\ trace w' = [EvArmDrain; EvEnqueue 0].
Proof.
  destruct (scheduleTask_enqueues_microtask Ex.zones run20 19 A 0
              (taskAt wMicroNew 0) wMicroNew)
    as (w' & Hr & Hq & _ & _ & Htr);
    [vm_compute; reflexivity | vm_compute; reflexivity
    | vm_compute; reflexivity | vm_compute; reflexivity
    | vm_compute; reflexivity | vm_compute; reflexivity |].
  exists w'. split; [exact Hr|]. split; [rewrite Hq | rewrite Htr];
    vm_compute; reflexivity.
Defined.

(** In [S], whose hook withdraws the request, the task comes back
    [notScheduled] and uncounted. *)
Lemma scheduleTask_leaves_cancelled_request_witness :
  exists w2,
    Zone_scheduleTask zonesS 20 (exec zonesS 20) S 0 wMacroNew
    = (Ok (VTask 0), w2)
    /\ _state (taskAt w2 0) = notScheduled
    /\ taskCounts w2 = ∅.
Proof.
  set (tk := taskAt wMacroNew 0).
  set (X := scheduleTask_dispatch (exec zonesS 20) S 0
              (scheduleTask_bound S 0 tk wMacroNew)).
  exists (snd X). split.
  - apply (scheduleTask_leaves_cancelled_request zonesS (exec zonesS 20) 20
             S 0 0 tk (taskAt (snd X) 0) wMacroNew (snd X));
      [vm_compute; reflexivity | vm_compute; reflexivity
      | vm_compute; reflexivity | vm_compute; reflexivity
      | vm_compute; reflexivity | vm_compute; congruence
      | vm_compute; congruence].
  - split; vm_compute; reflexivity.
Defined.

End TaskExamples.

Section HasTaskExamples.

Import Ex ExTasks.

(** [T]'s hook throws and its [onHandleError] answers [true]: [hasTask]
    still returns normally. *)
Lemma hasTask_swallows_hook_errors_witness :
  ZoneDelegate_hasTask (exec zonesT 20) (_zoneDelegate T) 1 stMicro w0
  = (Ok tt,
     set_trace [EvHasTask 1 1 stMicro; EvLog "handled"] w0).
Proof.
  destruct (hasTask_swallows_hook_errors (exec zonesT 20) (_zoneDelegate T) 1
              stMicro w0) as (_ & Hhook).
  destruct (Hhook specT (fun _ _ _ _ => CThrow (EError "hook failed"))
              (EError "hook failed")
              (add_event (EvHasTask 1 1 stMicro) w0)) as (Hok & _);
    [vm_compute; reflexivity | vm_compute; reflexivity
    | vm_compute; reflexivity |].
  apply (Hok (VBool true)). vm_compute. reflexivity.
Defined.

(** Fired by the host, the event task of [A] is the outermost task: the
    queued microtask runs before [invokeTask] returns. *)
Lemma invokeTask_drains_when_outermost_witness :
  _microTaskQueue wEventAndMicro = [1%nat]
  /\ exists w3,
       ZoneTask_invokeTask Ex.zones 20 (exec Ex.zones 20) 0 wEventAndMicro
       = (Ok VUndefined, w3)
       /\ _microTaskQueue w3 = []
       /\ _numberOfNestedTaskFrames w3 = 0
       /\ logged (trace w3) = ["click"; "m"].
Proof.
  split; [vm_compute; reflexivity|].
  set (tk := taskAt wEventAndMicro 0).
  set (X := runInOwnZone Ex.zones 20 (exec Ex.zones 20) 0
              (invokeTask_entered 0 tk wEventAndMicro)).
  destruct (invokeTask_drains_when_outermost Ex.zones (exec Ex.zones 20) 20 0
              tk (Ok VUndefined) wEventAndMicro (snd X)) as (_ & Hone);
    [vm_compute; reflexivity | vm_compute; reflexivity | discriminate |].
  set (Y := drainMicroTaskQueue Ex.zones 20 (exec Ex.zones 20) (snd X)).
  eexists. split.
  - apply (Hone eq_refl (snd Y)). vm_compute. reflexivity.
  - repeat split; vm_compute; reflexivity.
Defined.

End HasTaskExamples.

Section MoreExamples.

Import Ex ExTasks.

Local Abbreviation run20 := (exec Ex.zones 20).

(** The run that leaves the frame of [A] pushed leaves the root frame
    under it. *)
Lemma user_code_pops_no_foreign_frame_witness :
  stack wRescheduling = [0%nat]
  /\ stack (snd (run20 (CRunTask 1 0) wRescheduling)) = [1%nat; 0%nat]
  /\ stackGrows wRescheduling (snd (run20 (CRunTask 1 0) wRescheduling)).
Proof.
  split; [vm_compute; reflexivity|]. split; [vm_compute; reflexivity|].
  destruct (user_code_pops_no_foreign_frame Ex.zones 20 20 wRescheduling
              (snd (run20 (CRunTask 1 0) wRescheduling))) as (Hexec & _).
  apply (Hexec (CRunTask 1 0) (fst (run20 (CRunTask 1 0) wRescheduling))).
  apply surjective_pairing.
Defined.

Lemma scheduleMicroTask_enqueues_new_task_witness :
  exists w',
    Zone_scheduleMicroTask Ex.zones 20 run20 A "m" (CLog "m") None None w0
    = (Ok (VTask 0), w')
    /\ _microTaskQueue w' = [0%nat].
Proof.
  destruct (scheduleMicroTask_enqueues_new_task Ex.zones run20 19 A "m"
              (CLog "m") None w0 eq_refl) as (w' & Hr & Hq & _).
  exists w'. split; [exact Hr | exact Hq].
Defined.

Lemma scheduleMacroTask_needs_scheduleFn_witness :
  exists w',
    Zone_scheduleMacroTask Ex.zones 20 run20 A "t" (CLog "t") None None None
      w0
    = (Throw (EError "Task is missing scheduleFn."), w')
    /\ _state (taskAt w' 0) = unknown.
Proof.
  destruct (scheduleMacroTask_needs_scheduleFn Ex.zones run20 20 A "t"
              (CLog "t") None None w0 eq_refl eq_refl)
    as ((w' & Hr & Ht & _) & _).
  exists w'. split; [exact Hr|].
  unfold taskAt. rewrite Ht. reflexivity.
Defined.

(** The microtask that could not be cancelled is [unknown]; cancelling it
    again, running it or scheduling it throws and changes nothing. *)
Lemma unknown_task_is_stuck_witness :
  _state (taskAt wUnknown 0) = unknown
  /\ (exists e, Zone_runTask Ex.zones 20 run20 A 0 wUnknown
                = (Throw e, wUnknown))
  /\ (exists e, Zone_scheduleTask Ex.zones 20 run20 B 0 wUnknown
                = (Throw e, wUnknown)).
Proof.
  split; [vm_compute; reflexivity|].
  destruct (unknown_task_is_stuck Ex.zones run20 20 A 0 (taskAt wUnknown 0)
              wUnknown) as (Hrun & _);
    [vm_compute; reflexivity | vm_compute; reflexivity |].
  destruct (unknown_task_is_stuck Ex.zones run20 20 B 0 (taskAt wUnknown 0)
              wUnknown) as (_ & _ & Hsched & _);
    [vm_compute; reflexivity | vm_compute; reflexivity |].
  split; [exact Hrun | exact Hsched].
Defined.

End MoreExamples.

Section DispatchExamples.

Import ExHooks.

(** A call in [L] reaches [onInvoke] of [I]; no zone of the line handles
    errors. *)
Lemma calls_reach_nearest_hook_witness :
  (forall cb,
     ZoneDelegate_invoke (exec zones 20) (_zoneDelegate L) 4 cb
     = exec zones 20 (CSeq (CLog "invoke") cb))
  /\ (forall err,
        ZoneDelegate_handleError (exec zones 20) (_zoneDelegate L) 4 err
        = ret (VBool true)).
Proof.
  destruct (calls_reach_nearest_hook (exec zones 20) root L _ 4 built_L
              eq_refl eq_refl eq_refl) as [Hinv Herr].
  split; [|exact Herr].
  destruct Hinv as (h & Hh & Hcall). injection Hh as <-. exact Hcall.
Defined.

(** [L] counts tasks because [K] does; its [invokeTask] is [K]'s. *)
Lemma counting_delegate_forwards_witness :
  ZoneDelegate_invokeTask (exec zones 20) (_zoneDelegate L) 4 0 Ex.wMacroNew
  = ZoneDelegate_invokeTask (exec zones 19) (_zoneDelegate K) 4 0 Ex.wMacroNew.
Proof.
  destruct (counting_delegate_forwards zones 19 root K L _ 4
              (Ex.plainSpec "L") 4 0 built_K eq_refl eq_refl eq_refl)
    as (Hinv & _).
  by apply Hinv.
Defined.

End DispatchExamples.

Section RoundTripExamples.

Import Ex ExTasks.

Local Abbreviation run20 := (exec Ex.zones 20).

(** With three microtasks queued and the drain under way, a nested drain
    leaves them queued. *)
Lemma drain_is_not_reentrant_witness :
  drainMicroTaskQueue Ex.zones 20 run20 (set_draining true wQueued)
  = (Ok tt, set_draining true wQueued)
  /\ _isDrainingMicrotaskQueue
       (snd (run20 CDrainMicroTaskQueue (set_draining true wQueued))) = true.
Proof.
  destruct (drain_is_not_reentrant Ex.zones run20 20 20
              (set_draining true wQueued) eq_refl) as [Hdrain Hexec].
  split; [exact Hdrain|].
  destruct (Hexec CDrainMicroTaskQueue
              (fst (run20 CDrainMicroTaskQueue (set_draining true wQueued)))
              (snd (run20 CDrainMicroTaskQueue (set_draining true wQueued))))
    as [Hf _]; [apply surjective_pairing | exact Hf].
Defined.

(** Schedule-then-cancel of a macrotask in [H]. *)
Lemma schedule_then_cancel_is_neutral_witness :
  exists wS w3 tk3,
    Zone_scheduleTask Ex.zones 20 run20 H 0 wMacroNew = (Ok (VTask 0), wS)
    /\ getCount (countsOf wS 3) macroTask = 1
    /\ Zone_cancelTask Ex.zones 20 run20 H 0 wS = (Ok (VTask 0), w3)
    /\ tasks w3 !! 0%nat = Some tk3
    /\ _state tk3 = notScheduled
    /\ runCount tk3 = 0
    /\ forall d, countsOf w3 d = countsOf wMacroNew d.
Proof.
  set (tk := taskAt wMacroNew 0).
  set (ws := snd (scheduleTask_dispatch run20 H 0
                    (scheduleTask_bound H 0 tk wMacroNew))).
  set (tkS := taskAt ws 0).
  destruct (schedule_then_cancel_is_neutral Ex.zones run20 20 H 0 tk tkS
              [3%nat] wMacroNew ws)
    as (wS & Hsched & HtS & HcS & Hcancel);
    [vm_compute; reflexivity | vm_compute; reflexivity
    | vm_compute; reflexivity | vm_compute; reflexivity
    | vm_compute; reflexivity | vm_compute; reflexivity
    | vm_compute; reflexivity | vm_compute; reflexivity
    | vm_compute; reflexivity
    | apply H_resolves | apply H_quietHasTask | vm_compute; lia
    | intros d; vm_compute; by destruct d as [|[|[|[|?]]]] |].
  assert (wS = snd (Zone_scheduleTask Ex.zones 20 run20 H 0 wMacroNew)) as HwS
    by (by rewrite Hsched).
  subst wS.
  set (wS := snd (Zone_scheduleTask Ex.zones 20 run20 H 0 wMacroNew)) in *.
  set (w1 := putTask 0 (with_state canceling tkS) wS) in Hcancel.
  destruct (Hcancel VUndefined
              (snd (ZoneDelegate_cancelTask run20 (_zoneDelegate H) (zid H) 0
                      w1)))
    as (w3 & tk3 & Hr3 & Ht3 & Hs3 & Hc3 & Hn3);
    [vm_compute; reflexivity | vm_compute; reflexivity
    | vm_compute; reflexivity | vm_compute; reflexivity |].
  exists wS, w3, tk3.
  split; [exact Hsched|].
  split; [change macroTask with (type tkS); rewrite (HcS 3%nat);
          vm_compute; reflexivity|].
  split; [exact Hr3|]. split; [exact Ht3|]. split; [exact Hs3|].
  split; [exact Hc3|].
  intros d. rewrite Hn3. vm_compute. reflexivity.
Defined.

End RoundTripExamples.
